(** * Y2BeLike: request parsing, classification and concurrent dispatch

    A shallow embedding of [src/download.py], from the parser of the
    request down to the handlers of the Kivy window, together with the
    properties stated in the design specification and further properties
    of the code.

    Conventions.
    - A Python [str] is a Rocq [string]; each character stands for a code
      point below 256.
    - A Python [dict] is a [gmap string pyval].
    - Code that prints, calls yt-dlp, or goes through [functools.lru_cache]
      runs in the state-and-exception monad [M] over a [world].
    - yt-dlp, [urllib.parse] and [os] are external to the repository; they
      are the fields of the record [externals], which the code takes as a
      Section variable, and [Reference] gives concrete instances for
      closed examples. *)

From Stdlib Require Import String Ascii List ZArith NArith Bool Lia Permutation.
From stdpp Require Import base option strings gmap list pretty.

Local Open Scope string_scope.
Local Open Scope bool_scope.
Local Set Warnings "-register-all".

(** ** Python string primitives *)

Module Py.

(** [str.isspace] on one character, which is also what [\s] matches in a
    [str] pattern: TAB..CR, FS..US, SPACE, NEL and NBSP. *)
Definition isspace (c : ascii) : bool :=
  let n := N_of_ascii c in
  ((9 <=? n) && (n <=? 13) || (28 <=? n) && (n <=? 31) ||
   (n =? 32) || (n =? 133) || (n =? 160))%N.

Fixpoint lstrip (s : string) : string :=
  match s with
  | String c s' => if isspace c then lstrip s' else s
  | EmptyString => EmptyString
  end.

Fixpoint rstrip (s : string) : string :=
  match s with
  | EmptyString => EmptyString
  | String c s' =>
      match rstrip s' with
      | EmptyString => if isspace c then EmptyString else String c EmptyString
      | r => String c r
      end
  end.

(** [s.strip()] *)
Definition strip (s : string) : string := lstrip (rstrip s).

(** [needle in hay] for two strings. *)
Fixpoint contains (needle hay : string) : bool :=
  String.prefix needle hay ||
  match hay with
  | EmptyString => false
  | String _ hay' => contains needle hay'
  end.

(** Truthiness of a string: [bool(s)]. *)
Definition truthy_str (s : string) : bool :=
  match s with EmptyString => false | _ => true end.

End Py.

Notation "a 'in_str' b" := (Py.contains a b) (at level 30, no associativity).

(** ** [parse_multiple_urls] *)

(** The character class [[,\s\n\t]] of the splitting pattern. *)
Definition is_separator (c : ascii) : bool :=
  Ascii.eqb c "," || Py.isspace c || Ascii.eqb c "010" || Ascii.eqb c "009".

(** [re.split(r'[,\s\n\t]+', s)]: the pieces of [s] between maximal runs of
    separator characters; a run at either end leaves an empty piece there,
    and the empty string yields one empty piece.  [cur] is the piece being
    read and [in_run] tells whether the previous character was a
    separator. *)
Fixpoint re_split_from (s cur : string) (in_run : bool) : list string :=
  match s with
  | EmptyString => [cur]
  | String c s' =>
      if is_separator c then
        if in_run then re_split_from s' EmptyString true
        else cur :: re_split_from s' EmptyString true
      else re_split_from s' (cur ++ String c EmptyString) false
  end.

Definition re_split (s : string) : list string :=
  re_split_from s EmptyString false.

(** The test of the validation loop. *)
Definition is_youtube_url (url : string) : bool :=
  ("youtube.com" in_str url || "youtu.be" in_str url) &&
  ("/watch?" in_str url ||
   "/playlist?" in_str url ||
   "/@" in_str url ||
   "/channel/" in_str url ||
   "/c/" in_str url ||
   "/user/" in_str url ||
   "youtu.be/" in_str url).

(** The local variables of the loop and what it printed. *)
Record parse_state := ParseState {
  valid_urls : list string;
  invalid_count : nat;
  parse_printed : list string;
}.

Definition parse_step (st : parse_state) (url : string) : parse_state :=
  if is_youtube_url url then
    ParseState (valid_urls st ++ [url]) (invalid_count st) (parse_printed st)
  else if Py.truthy_str url then
    ParseState (valid_urls st) (S (invalid_count st))
      (parse_printed st ++ ["Warning: Skipping invalid URL: " ++ url])
  else st.

Definition parse_multiple_urls_run (input_string : string) : parse_state :=
  let urls := re_split (Py.strip input_string) in
  let urls := map Py.strip (List.filter (fun url => Py.truthy_str (Py.strip url)) urls) in
  let st := fold_left parse_step urls (ParseState [] 0 []) in
  if (0 <? invalid_count st)%nat then
    ParseState (valid_urls st) (invalid_count st)
      (parse_printed st ++
       ["Info: Found " ++ pretty (length (valid_urls st)) ++
        " valid YouTube URLs, skipped " ++ pretty (invalid_count st) ++
        " invalid entries"])
  else st.

Definition parse_multiple_urls (input_string : string) : list string :=
  valid_urls (parse_multiple_urls_run input_string).

(** ** Python values, dictionaries and exceptions *)

Inductive pyval :=
| PNone
| PBool (b : bool)
| PInt (z : Z)
| PStr (s : string)
| PList (l : list pyval)
| PDict (d : list (string * pyval)).

(** An [Exception] instance: its class name and [str(e)].  Interrupts and
    interpreter exit, which [except Exception] lets through, are not
    modelled. *)
Record exn := Exn { exn_class : string; exn_text : string }.

Module PyVal.

(** [bool(v)] *)
Definition truthy (v : pyval) : bool :=
  match v with
  | PNone => false
  | PBool b => b
  | PInt z => negb (z =? 0)%Z
  | PStr s => Py.truthy_str s
  | PList l => match l with [] => false | _ => true end
  | PDict d => match d with [] => false | _ => true end
  end.

(** [v == 'literal'] for a string literal. *)
Definition eq_str (v : pyval) (lit : string) : bool :=
  match v with
  | PStr s => String.eqb s lit
  | _ => false
  end.

Definition type_name (v : pyval) : string :=
  match v with
  | PNone => "NoneType"
  | PBool _ => "bool"
  | PInt _ => "int"
  | PStr _ => "str"
  | PList _ => "list"
  | PDict _ => "dict"
  end.

(** [len(v)] *)
Definition len (v : pyval) : exn + nat :=
  match v with
  | PStr s => inr (String.length s)
  | PList l => inr (length l)
  | PDict d => inr (length d)
  | _ => inl (Exn "TypeError"
                ("object of type '" ++ type_name v ++ "' has no len()"))
  end.

Fixpoint join (sep : string) (l : list string) : string :=
  match l with
  | [] => EmptyString
  | [x] => x
  | x :: l' => x ++ sep ++ join sep l'
  end.

(** [repr(v)]; a string is put between single quotes as it is (escapes
    and the choice of the other quote are left out). *)
Fixpoint repr (v : pyval) : string :=
  match v with
  | PNone => "None"
  | PBool true => "True"
  | PBool false => "False"
  | PInt z => pretty z
  | PStr s => "'" ++ s ++ "'"
  | PList l => "[" ++ join ", " (map repr l) ++ "]"
  | PDict d =>
      "{" ++ join ", " (map (fun '(k, x) => "'" ++ k ++ "': " ++ repr x) d) ++ "}"
  end.

(** [str(v)], what an f-string field shows. *)
Definition str (v : pyval) : string :=
  match v with
  | PStr s => s
  | _ => repr v
  end.

Definition is_lower (c : ascii) : bool :=
  let n := N_of_ascii c in ((97 <=? n) && (n <=? 122))%N.
Definition is_upper (c : ascii) : bool :=
  let n := N_of_ascii c in ((65 <=? n) && (n <=? 90))%N.
Definition to_upper (c : ascii) : ascii :=
  if is_lower c then ascii_of_N (N_of_ascii c - 32) else c.
Definition to_lower (c : ascii) : ascii :=
  if is_upper c then ascii_of_N (N_of_ascii c + 32) else c.

(** The cased characters among the code points below 256 (the letters,
    the two ordinal indicators and the micro sign), and the lower case
    of one character. *)
Definition is_cased (c : ascii) : bool :=
  let n := N_of_ascii c in
  ((65 <=? n) && (n <=? 90) || (97 <=? n) && (n <=? 122) ||
   (n =? 170) || (n =? 181) || (n =? 186) ||
   (192 <=? n) && (n <=? 214) || (216 <=? n) && (n <=? 246) || (248 <=? n))%N.

Definition lower_char (c : ascii) : ascii :=
  let n := N_of_ascii c in
  if ((65 <=? n) && (n <=? 90) || (192 <=? n) && (n <=? 214) ||
      (216 <=? n) && (n <=? 222))%N
  then ascii_of_N (n + 32) else c.

(** The title case of one character.  That of U+00DF is the two letters
    [Ss].  Those of U+00B5 and U+00FF are U+039C and U+0178, which no
    string of this development holds: the two characters are left as
    they are, and [title_in_range] tells the strings on which this
    matters. *)
Definition title_char (c : ascii) : string :=
  let n := N_of_ascii c in
  if (n =? 223)%N then "Ss"
  else if ((97 <=? n) && (n <=? 122) || (224 <=? n) && (n <=? 246) ||
           (248 <=? n) && (n <=? 254))%N
  then String (ascii_of_N (n - 32)) EmptyString
  else String c EmptyString.

(** [s.title()]: a character that follows a cased one is put in lower
    case, any other in title case. *)
Fixpoint title_from (s : string) (previous_is_cased : bool) : string :=
  match s with
  | EmptyString => EmptyString
  | String c s' =>
      (if previous_is_cased then String (lower_char c) EmptyString else title_char c)
      ++ title_from s' (is_cased c)
  end.

(** No U+00B5 or U+00FF at a place where [title] would put it in title
    case: there [title_from] is [str.title] exactly. *)
Fixpoint title_in_range (s : string) (previous_is_cased : bool) : bool :=
  match s with
  | EmptyString => true
  | String c s' =>
      let n := N_of_ascii c in
      (previous_is_cased || negb ((n =? 181) || (n =? 255))%N)
      && title_in_range s' (is_cased c)
  end.

(** [v.title()] *)
Definition title (v : pyval) : exn + string :=
  match v with
  | PStr s => inr (title_from s false)
  | _ => inl (Exn "AttributeError"
                ("'" ++ type_name v ++ "' object has no attribute 'title'"))
  end.

End PyVal.

(** [d.get(k, dflt)] and [d.get(k)] *)
Definition dict_get (d : gmap string pyval) (k : string) (dflt : pyval) : pyval :=
  default dflt (d !! k).
Definition dict_get_none (d : gmap string pyval) (k : string) : pyval :=
  dict_get d k PNone.

(** ** [os.path.join], POSIX flavour *)

Fixpoint ends_with_slash (s : string) : bool :=
  match s with
  | EmptyString => false
  | String c EmptyString => Ascii.eqb c "/"
  | String _ s' => ends_with_slash s'
  end.

Definition starts_with_slash (s : string) : bool :=
  match s with
  | String c _ => Ascii.eqb c "/"
  | EmptyString => false
  end.

Definition path_join2 (a b : string) : string :=
  if starts_with_slash b then b
  else if negb (Py.truthy_str a) || ends_with_slash a then a ++ b
  else a ++ "/" ++ b.

Definition os_path_join (a : string) (ps : list string) : string :=
  fold_left path_join2 ps a.

(** ** The world: cache, engine log, console *)

(** The two yt-dlp entry points the code uses, with the options the
    [YoutubeDL] object was built from. *)
Inductive engine_call :=
| ExtractInfo (ydl_opts : gmap string pyval) (url : string)
| Download (ydl_opts : gmap string pyval) (urls : list string).

Record world := World {
  (** the [lru_cache] of [get_url_info], most recently used entry first *)
  url_info_cache : list (string * (pyval * gmap string pyval));
  (** every yt-dlp call so far, oldest first *)
  engine_log : list engine_call;
  (** every printed line so far, oldest first *)
  console : list string;
}.

Definition initial_world : world := World [] [] [].

(** What lies outside the repository. *)
Record externals := Externals {
  (** [urlparse(url).query], or the [ValueError] that [urlparse] raises *)
  urlparse_query : string -> exn + string;
  (** [parse_qs(query)] *)
  parse_qs : string -> gmap string (list string);
  (** [YoutubeDL(opts).extract_info(url, download=False)], given the calls
      made before: an info dict, [None], or an exception *)
  ydl_extract_info :
    list engine_call -> gmap string pyval -> string ->
    exn + option (gmap string pyval);
  (** [YoutubeDL(opts).download(urls)]: a return code or an exception *)
  ydl_download :
    list engine_call -> gmap string pyval -> list string -> exn + Z;
  (** [os.getcwd()] *)
  os_getcwd : string;
  (** [os.makedirs(path, exist_ok=True)]: the [OSError], if any *)
  os_makedirs : string -> option exn;
  (** which of the pending futures finishes next, one pick per future *)
  pool_picks : list nat;
}.

(** ** The monad of effectful code *)

Inductive result (A : Type) :=
| Ok (a : A)
| Raise (e : exn).
Arguments Ok {A} a.
Arguments Raise {A} e.

Definition M (A : Type) : Type := world -> result A * world.

Definition ret {A} (a : A) : M A := fun w => (Ok a, w).

Definition raise {A} (e : exn) : M A := fun w => (Raise e, w).

Definition bind {A B} (m : M A) (k : A -> M B) : M B :=
  fun w =>
    match m w with
    | (Ok a, w') => k a w'
    | (Raise e, w') => (Raise e, w')
    end.

(** [try: m  except Exception as e: handler e] *)
Definition try_except {A} (m : M A) (handler : exn -> M A) : M A :=
  fun w =>
    match m w with
    | (Ok a, w') => (Ok a, w')
    | (Raise e, w') => handler e w'
    end.

Definition lift {A} (r : exn + A) : M A :=
  match r with
  | inl e => raise e
  | inr a => ret a
  end.

Definition print (line : string) : M unit :=
  fun w => (Ok tt, World (url_info_cache w) (engine_log w) (console w ++ [line])).

Declare Scope py_scope.
Delimit Scope py_scope with py.
Notation "x <- m ;; k" := (bind m (fun x => k))
  (at level 20, m at level 99, k at level 200) : py_scope.
Notation "' pat <- m ;; k" := (bind m (fun x => match x with pat => k end))
  (at level 20, pat pattern, m at level 99, k at level 200) : py_scope.
Notation "m ;; k" := (bind m (fun _ => k))
  (at level 100, k at level 200, right associativity) : py_scope.
Local Open Scope py_scope.

(** ** [functools.lru_cache(maxsize=128)] around a one-argument function *)

Definition maxsize : nat := 128.

Fixpoint cache_lookup {V} (key : string) (c : list (string * V)) : option V :=
  match c with
  | [] => None
  | (k, v) :: c' => if String.eqb k key then Some v else cache_lookup key c'
  end.

Fixpoint cache_remove {V} (key : string) (c : list (string * V)) : list (string * V) :=
  match c with
  | [] => []
  | (k, v) :: c' =>
      if String.eqb k key then cache_remove key c' else (k, v) :: cache_remove key c'
  end.

(** Store a fresh entry as the most recent one; a full cache first drops
    its least recently used entry. *)
Definition cache_store {V} (key : string) (v : V) (c : list (string * V))
  : list (string * V) :=
  (key, v) :: (if (length c <? maxsize)%nat then c else removelast c).

Definition set_cache (c : list (string * (pyval * gmap string pyval))) (w : world) : world :=
  World c (engine_log w) (console w).

Definition lru_cache (f : string -> M (pyval * gmap string pyval)) (key : string)
  : M (pyval * gmap string pyval) :=
  fun w =>
    match cache_lookup key (url_info_cache w) with
    | Some v =>
        (* hit: the entry becomes the most recent one *)
        (Ok v, set_cache ((key, v) :: cache_remove key (url_info_cache w)) w)
    | None =>
        match f key w with
        | (Ok v, w') =>
            match cache_lookup key (url_info_cache w') with
            | Some _ => (Ok v, w')   (* stored meanwhile: left as it is *)
            | None => (Ok v, set_cache (cache_store key v (url_info_cache w')) w')
            end
        | (Raise e, w') => (Raise e, w')   (* an exception is not cached *)
        end
    end.

(** ** The code of [download.py] *)

Record fetch_result := FetchResult {
  url : string;
  success : bool;
  message : string;
}.

(** The two lists the summary is printed from. *)
Record batch_report := BatchReport {
  successful : list fetch_result;
  failed : list fetch_result;
}.

Definition nl : string := String "010"%char EmptyString.

Fixpoint str_repeat (s : string) (n : nat) : string :=
  match n with
  | O => EmptyString
  | S n' => s ++ str_repeat s n'
  end.

Definition thread_tag (thread_id : Z) : string :=
  "[Thread " ++ pretty thread_id ++ "]".

(** ['/@' in url or '/channel/' in url or '/c/' in url or '/user/' in url] *)
Definition has_channel_marker (url : string) : bool :=
  "/@" in_str url || "/channel/" in_str url || "/c/" in_str url || "/user/" in_str url.

Definition audio_quality_map : gmap string string :=
  list_to_map [("320kbps", "320"); ("256kbps", "256"); ("192kbps", "192");
               ("128kbps", "128"); ("64kbps", "64")].

Definition video_quality_map : gmap string string :=
  list_to_map [("1080p", "1080"); ("720p", "720"); ("480p", "480");
               ("360p", "360"); ("240p", "240")].

Section Code.

Variable E : externals.

Definition log_call (c : engine_call) (w : world) : world :=
  World (url_info_cache w) (engine_log w ++ [c]) (console w).

(** [with YoutubeDL(opts) as ydl: ydl.extract_info(url, download=False)] *)
Definition extract_info (opts : gmap string pyval) (url : string)
  : M (option (gmap string pyval)) :=
  fun w =>
    match ydl_extract_info E (engine_log w) opts url with
    | inr info => (Ok info, log_call (ExtractInfo opts url) w)
    | inl e => (Raise e, log_call (ExtractInfo opts url) w)
    end.

(** [ydl.download(urls)] *)
Definition download (opts : gmap string pyval) (urls : list string) : M Z :=
  fun w =>
    match ydl_download E (engine_log w) opts urls with
    | inr code => (Ok code, log_call (Download opts urls) w)
    | inl e => (Raise e, log_call (Download opts urls) w)
    end.

(** The options of the shallow query in [get_url_info]. *)
Definition info_ydl_opts : gmap string pyval :=
  list_to_map [("quiet", PBool true); ("extract_flat", PBool true);
               ("no_warnings", PBool true); ("skip_download", PBool true);
               ("playlist_items", PStr "1")].

(** The URL-pattern fallback; the source has it twice, word for word:
    under [if info is None] and in the [except] handler. *)
Definition url_pattern_fallback (url : string) : M (pyval * gmap string pyval) :=
  parsed_query <- lift (urlparse_query E url) ;;
  let query_params := parse_qs E parsed_query in
  if has_channel_marker url then ret (PStr "channel", ∅)
  else if bool_decide (is_Some (query_params !! "list")) then ret (PStr "playlist", ∅)
  else ret (PStr "video", ∅).

(** The body of [get_url_info], below the decorator. *)
Definition get_url_info_body (url : string) : M (pyval * gmap string pyval) :=
  try_except
    (info <- extract_info info_ydl_opts url ;;
     match info with
     | None => url_pattern_fallback url
     | Some info =>
         let content_type := dict_get info "_type" (PStr "video") in
         if PyVal.eq_str content_type "playlist" then
           if PyVal.truthy (dict_get_none info "uploader_id") && has_channel_marker url
           then ret (PStr "channel", info)
           else ret (PStr "playlist", info)
         else ret (content_type, info)
     end)
    (fun _ => url_pattern_fallback url).

Definition get_url_info : string -> M (pyval * gmap string pyval) :=
  lru_cache get_url_info_body.

Definition is_playlist_url (url : string) : M bool :=
  '(content_type, _) <- get_url_info url ;;
  ret (PyVal.eq_str content_type "playlist").

Definition get_content_type (url : string) : M pyval :=
  '(content_type, _) <- get_url_info url ;;
  ret content_type.

(** Lines 172-211: format selector, file extension and post-processors
    for the mode and the quality string. *)
Definition mode_config (thread_id : Z) (audio_only : bool) (quality : string)
  : M (string * string * pyval) :=
  if audio_only then
    let quality_map := audio_quality_map in
    let audio_quality := default "192" (quality_map !! quality) in
    let format_selector := "bestaudio/best" in
    let file_extension := "mp3" in
    let postprocessors :=
      PList [PDict [("key", PStr "FFmpegExtractAudio");
                    ("preferredcodec", PStr "mp3");
                    ("preferredquality", PStr audio_quality)]] in
    print (thread_tag thread_id ++ " Audio-only mode: Downloading MP3 at " ++
           audio_quality ++ "kbps...") ;;
    ret (format_selector, file_extension, postprocessors)
  else
    let quality_map := video_quality_map in
    let video_height := default "1080" (quality_map !! quality) in
    let format_selector :=
      "best[height<=" ++ video_height ++ "]/" ++
      "bestvideo[height<=" ++ video_height ++ "]+bestaudio/best" in
    let file_extension := "mp4" in
    let postprocessors :=
      PList [PDict [("key", PStr "FFmpegVideoConvertor");
                    ("preferedformat", PStr "mp4")]] in
    print (thread_tag thread_id ++ " Video mode: Downloading MP4 at " ++
           quality ++ "...") ;;
    ret (format_selector, file_extension, postprocessors).

(** Lines 214-235: the options common to the three content types. *)
Definition base_ydl_opts (audio_only : bool) (format_selector : string)
    (postprocessors : pyval) : gmap string pyval :=
  let ydl_opts : gmap string pyval :=
    list_to_map [("format", PStr format_selector);
                 ("ignoreerrors", PBool true);
                 ("no_warnings", PBool false);
                 ("extract_flat", PBool false);
                 ("writesubtitles", PBool false);
                 ("writethumbnail", PBool false);
                 ("writeautomaticsub", PBool false);
                 ("postprocessors", postprocessors);
                 ("keepvideo", PBool false);
                 ("clean_infojson", PBool true);
                 ("retries", PInt 3);
                 ("fragment_retries", PInt 3);
                 ("noplaylist", PBool false)] in
  if negb audio_only then <["merge_output_format" := PStr "mp4"]> ydl_opts
  else ydl_opts.

(** Lines 240-254: the output template for the detected content type. *)
Definition set_outtmpl (thread_id : Z) (audio_only : bool) (content_type : pyval)
    (output_path file_extension : string) (ydl_opts : gmap string pyval)
  : M (gmap string pyval) :=
  if PyVal.eq_str content_type "playlist" then
    let ydl_opts :=
      <["outtmpl" := PStr (os_path_join output_path
          ["%(playlist_title)s";
           "%(playlist_index)s-%(title)s." ++ file_extension])]> ydl_opts in
    print (thread_tag thread_id ++
           " Detected playlist URL. Downloading entire playlist...") ;;
    ret ydl_opts
  else if PyVal.eq_str content_type "channel" then
    let ydl_opts :=
      <["outtmpl" := PStr (os_path_join output_path
          ["%(uploader)s";
           "%(upload_date)s-%(title)s." ++ file_extension])]> ydl_opts in
    print (thread_tag thread_id ++
           " Detected channel URL. Downloading entire channel...") ;;
    ret ydl_opts
  else
    let ydl_opts :=
      <["outtmpl" := PStr (os_path_join output_path
          ["%(title)s." ++ file_extension])]> ydl_opts in
    print (thread_tag thread_id ++ " Detected single video URL. Downloading " ++
           (if audio_only then "audio" else "video") ++ "...") ;;
    ret ydl_opts.

(** Lines 269-281: a playlist-typed answer is announced, and one without
    entries ends the attempt with a failure. *)
Definition check_entries (url : string) (thread_id : Z) (content_type : pyval)
    (info : gmap string pyval) : M (option fetch_result) :=
  if PyVal.eq_str (dict_get_none info "_type") "playlist" then
    let title := dict_get info "title" (PStr "Unknown Playlist") in
    video_count <- lift (PyVal.len (dict_get info "entries" (PList []))) ;;
    content_title <- lift (PyVal.title content_type) ;;
    print (thread_tag thread_id ++ " " ++ content_title ++ ": '" ++
           PyVal.str title ++ "' (" ++ pretty video_count ++ " videos)") ;;
    if (video_count =? 0)%nat then
      content_title <- lift (PyVal.title content_type) ;;
      ret (Some (FetchResult url false
                   (thread_tag thread_id ++ " " ++ content_title ++
                    " appears to be empty or private")))
    else ret None
  else ret None.

(** Lines 283-299: the download and the success report. *)
Definition download_and_report (url : string) (thread_id : Z) (audio_only : bool)
    (content_type : pyval) (ydl_opts info : gmap string pyval) : M fetch_result :=
  download ydl_opts [url] ;;
  if PyVal.eq_str (dict_get_none info "_type") "playlist" then
    content_title <- lift (PyVal.title content_type) ;;
    let title := dict_get info "title" (PStr ("Unknown " ++ content_title)) in
    video_count <- lift (PyVal.len (dict_get info "entries" (PList []))) ;;
    content_title <- lift (PyVal.title content_type) ;;
    ret (FetchResult url true
           (thread_tag thread_id ++ " " ++ content_title ++ " '" ++
            PyVal.str title ++ "' download completed! (" ++
            pretty video_count ++ " " ++
            (if audio_only then "MP3s" else "videos") ++ ")"))
  else
    ret (FetchResult url true
           (thread_tag thread_id ++ " " ++
            (if audio_only then "Audio" else "Video") ++
            " download completed successfully!")).

(** Lines 257-299: the body of the [try]. *)
Definition download_attempt (url : string) (thread_id : Z) (audio_only : bool)
    (content_type : pyval) (ydl_opts : gmap string pyval) : M fetch_result :=
  info <- extract_info ydl_opts url ;;
  match info with
  | None =>
      ret (FetchResult url false
             (thread_tag thread_id ++
              " Failed to extract video information. Video may be private or unavailable."))
  | Some info =>
      early <- check_entries url thread_id content_type info ;;
      match early with
      | Some r => ret r
      | None => download_and_report url thread_id audio_only content_type ydl_opts info
      end
  end.

(** Lines 256-306: the [try] with its handler. *)
Definition guarded_download (url : string) (thread_id : Z) (audio_only : bool)
    (content_type : pyval) (ydl_opts : gmap string pyval) : M fetch_result :=
  try_except
    (download_attempt url thread_id audio_only content_type ydl_opts)
    (fun e =>
       ret (FetchResult url false (thread_tag thread_id ++ " Error: " ++ exn_text e))).

Definition download_single_video (url output_path : string) (thread_id : Z)
    (audio_only : bool) (quality : string) : M fetch_result :=
  '(format_selector, file_extension, postprocessors) <-
     mode_config thread_id audio_only quality ;;
  let ydl_opts := base_ydl_opts audio_only format_selector postprocessors in
  '(content_type, cached_info) <- get_url_info url ;;
  ydl_opts <- set_outtmpl thread_id audio_only content_type output_path
                file_extension ydl_opts ;;
  guarded_download url thread_id audio_only content_type ydl_opts.

(** [sum(1 for url in urls if get_content_type(url) == ty)] *)
Fixpoint count_content_type (ty : string) (urls : list string) : M nat :=
  match urls with
  | [] => ret O
  | url :: urls' =>
      content_type <- get_content_type url ;;
      n <- count_content_type ty urls' ;;
      ret (if PyVal.eq_str content_type ty then S n else n)
  end.

(** [enumerate(urls)] with the thread id [i + 1] of the submit call. *)
Fixpoint enumerate_from (i : Z) (urls : list string) : list (Z * string) :=
  match urls with
  | [] => []
  | url :: urls' => (i + 1, url)%Z :: enumerate_from (i + 1)%Z urls'
  end.

(** The order in which the submitted futures complete: at each step the
    next pick selects one of those still pending. *)
Fixpoint completion_order {A} (n : nat) (picks : list nat) (pending : list A) : list A :=
  match n with
  | O => []
  | S n' =>
      let i := (hd O picks mod length pending)%nat in
      match pending !! i with
      | Some x => x :: completion_order n' (tl picks) (delete i pending)
      | None => []
      end
  end.

Definition as_completed {A} (pending : list A) : list A :=
  completion_order (length pending) (pool_picks E) pending.

(** Run [m] and hand back how it ended, as a future does. *)
Definition future {A} (m : M A) : M (result A) :=
  fun w => let '(r, w') := m w in (Ok r, w').

(** The futures that are still running when the collecting loop is left by
    an exception: leaving the [with] block waits for them. *)
Fixpoint drain (output_path : string) (audio_only : bool) (quality : string)
    (tasks : list (Z * string)) : M unit :=
  match tasks with
  | [] => ret tt
  | (thread_id, url) :: tasks' =>
      future (download_single_video url output_path thread_id audio_only quality) ;;
      drain output_path audio_only quality tasks'
  end.

(** Lines 357-367.  Each worker runs as one step, in completion order;
    the loop appends its result and prints its message. *)
Fixpoint collect_results (output_path : string) (audio_only : bool) (quality : string)
    (tasks : list (Z * string)) (results : list fetch_result)
  : M (list fetch_result) :=
  match tasks with
  | [] => ret results
  | (thread_id, url) :: tasks' =>
      r <- future (download_single_video url output_path thread_id audio_only quality) ;;
      match r with
      | Ok result =>
          print (message result) ;;
          collect_results output_path audio_only quality tasks' (results ++ [result])
      | Raise e =>
          drain output_path audio_only quality tasks' ;;
          raise e
      end
  end.

(** Lines 373-386: the two lists and the printed summary. *)
Definition build_report (results : list fetch_result) : batch_report :=
  BatchReport (List.filter (fun r => success r) results)
              (List.filter (fun r => negb (success r)) results).

(** The bullet of the source is kept as the bytes of its UTF-8 form. *)
Fixpoint print_failed (failed : list fetch_result) : M unit :=
  match failed with
  | [] => ret tt
  | result :: failed' =>
      print ("   • " ++ url result) ;;
      print ("     Reason: " ++ message result) ;;
      print_failed failed'
  end.

Definition download_youtube_content (urls : list string) (output_path : option string)
    (max_workers : Z) (audio_only : bool) (quality : string) : M batch_report :=
  let output_path :=
    match output_path with
    | None => os_path_join (os_getcwd E) ["downloads"]
    | Some p => p
    end in
  lift (match os_makedirs E output_path with Some e => inl e | None => inr tt end) ;;
  print (nl ++ "Starting download of " ++ pretty (length urls) ++ " URL(s) with " ++
         pretty max_workers ++ " concurrent workers...") ;;
  print ("Output directory: " ++ output_path) ;;
  print ("Format: " ++ (if audio_only then "MP3 Audio Only" else "MP4 Video")) ;;
  playlist_count <- count_content_type "playlist" urls ;;
  channel_count <- count_content_type "channel" urls ;;
  let video_count :=
    (Z.of_nat (length urls) - Z.of_nat playlist_count - Z.of_nat channel_count)%Z in
  let content_summary :=
    app (if (0 <? playlist_count)%nat then [pretty playlist_count ++ " playlist(s)"] else [])
   (app (if (0 <? channel_count)%nat then [pretty channel_count ++ " channel(s)"] else [])
        (if (0 <? video_count)%Z then [pretty video_count ++ " video(s)"] else [])) in
  (match content_summary with
   | [] => print "Content: Unknown content type"
   | _ => print ("Content: " ++ PyVal.join " + " content_summary)
   end) ;;
  print (str_repeat "-" 60) ;;
  (if (max_workers <=? 0)%Z
   then raise (Exn "ValueError" "max_workers must be greater than 0")
   else ret tt) ;;
  results <- collect_results output_path audio_only quality
               (as_completed (enumerate_from 0 urls)) [] ;;
  print (nl ++ str_repeat "=" 60) ;;
  print "DOWNLOAD SUMMARY" ;;
  print (str_repeat "=" 60) ;;
  let report := build_report results in
  print ("Successful downloads: " ++ pretty (length (successful report))) ;;
  print ("Failed downloads: " ++ pretty (length (failed report))) ;;
  (match failed report with
   | [] => ret tt
   | _ => print (nl ++ "Failed URLs:") ;; print_failed (failed report)
   end) ;;
  (match successful report with
   | [] => ret tt
   | _ => print (nl ++ "All files saved to: " ++ output_path)
   end) ;;
  ret report.

End Code.

(** ** One concrete instance of the externals *)

Module Reference.

(** [urlparse(url).query] after CPython's [urlsplit]: leading control
    characters and spaces are dropped, TAB, CR and LF are removed, a
    scheme and a [//netloc] are split off, an unmatched square bracket in
    the netloc raises [ValueError], and the query runs from the first [?]
    to the first [#].  The further checks CPython makes on a bracketed or
    non-ASCII host are left out. *)

Definition is_c0_or_space (c : ascii) : bool := (N_of_ascii c <=? 32)%N.

Fixpoint lstrip_c0 (s : string) : string :=
  match s with
  | String c s' => if is_c0_or_space c then lstrip_c0 s' else s
  | EmptyString => EmptyString
  end.

Fixpoint remove_chars (p : ascii -> bool) (s : string) : string :=
  match s with
  | EmptyString => EmptyString
  | String c s' => if p c then remove_chars p s' else String c (remove_chars p s')
  end.

Definition is_tab_cr_lf (c : ascii) : bool :=
  let n := N_of_ascii c in ((n =? 9) || (n =? 10) || (n =? 13))%N.

Definition is_alpha (c : ascii) : bool := PyVal.is_lower c || PyVal.is_upper c.

Definition is_scheme_char (c : ascii) : bool :=
  let n := N_of_ascii c in
  is_alpha c || ((48 <=? n) && (n <=? 57))%N ||
  Ascii.eqb c "+" || Ascii.eqb c "-" || Ascii.eqb c ".".

(** [s.partition(c)] for a character test: the part before the first
    match and, if there is one, the part after it. *)
Fixpoint partition_at (p : ascii -> bool) (s : string) : string * option string :=
  match s with
  | EmptyString => (EmptyString, None)
  | String c s' =>
      if p c then (EmptyString, Some s')
      else let '(before, after) := partition_at p s' in (String c before, after)
  end.

Fixpoint all_chars (p : ascii -> bool) (s : string) : bool :=
  match s with
  | EmptyString => true
  | String c s' => p c && all_chars p s'
  end.

Fixpoint any_char (p : ascii -> bool) (s : string) : bool :=
  match s with
  | EmptyString => false
  | String c s' => p c || any_char p s'
  end.

Definition drop_scheme (url : string) : string :=
  match partition_at (Ascii.eqb ":") url with
  | (String c0 _ as scheme, Some rest) =>
      if is_alpha c0 && all_chars is_scheme_char scheme then rest else url
  | _ => url
  end.

(** [_splitnetloc(url, 2)]: the netloc and what follows it. *)
Fixpoint split_netloc (s : string) : string * string :=
  match s with
  | EmptyString => (EmptyString, EmptyString)
  | String c s' =>
      if Ascii.eqb c "/" || Ascii.eqb c "?" || Ascii.eqb c "#" then (EmptyString, s)
      else let '(netloc, rest) := split_netloc s' in (String c netloc, rest)
  end.

Definition urlparse_query (url : string) : exn + string :=
  let url := remove_chars is_tab_cr_lf (lstrip_c0 url) in
  let url := drop_scheme url in
  let split :=
    match url with
    | String "/" (String "/" rest) =>
        let '(netloc, url') := split_netloc rest in
        let open := any_char (Ascii.eqb "[") netloc in
        let close := any_char (Ascii.eqb "]") netloc in
        if open && negb close || close && negb open
        then inl (Exn "ValueError" "Invalid IPv6 URL")
        else inr url'
    | _ => inr url
    end in
  match split with
  | inl e => inl e
  | inr url =>
      let url := fst (partition_at (Ascii.eqb "#") url) in
      inr (default EmptyString (snd (partition_at (Ascii.eqb "?") url)))
  end.

(** [qs.split('&')] *)
Fixpoint split_amp (s cur : string) : list string :=
  match s with
  | EmptyString => [cur]
  | String c s' =>
      if Ascii.eqb c "&" then cur :: split_amp s' EmptyString
      else split_amp s' (cur ++ String c EmptyString)
  end.

Definition plus_to_space (s : string) : string :=
  string_of_list_ascii
    (map (fun c => if Ascii.eqb c "+" then " "%char else c) (list_ascii_of_string s)).

(** [parse_qs(qs)] with its default arguments: fields without [=] or with
    an empty value are dropped.  Percent-escapes are not decoded. *)
Definition parse_qs (qs : string) : gmap string (list string) :=
  fold_left
    (fun (d : gmap string (list string)) name_value =>
       match partition_at (Ascii.eqb "=") name_value with
       | (name, Some (String _ _ as value)) =>
           let name := plus_to_space name in
           <[name := app (default [] (d !! name)) [plus_to_space value]]> d
       | _ => d
       end)
    (split_amp qs EmptyString) ∅.

(** Externals with the parsers above, a fixed working directory, a
    directory creation that succeeds and futures that finish in
    submission order; the engine is left to the caller. *)
Definition with_engine
    (extract : list engine_call -> gmap string pyval -> string ->
               exn + option (gmap string pyval))
    (dl : list engine_call -> gmap string pyval -> list string -> exn + Z)
  : externals :=
  Externals urlparse_query parse_qs extract dl "/home/user" (fun _ => None) [].

(** An engine that cannot reach the network. *)
Definition offline : externals :=
  with_engine
    (fun _ _ url => inl (Exn "DownloadError" ("ERROR: Unable to download webpage: " ++ url)))
    (fun _ _ _ => inl (Exn "DownloadError" "ERROR: Unable to download")).

(** An engine that answers every query with the same info dict and
    downloads without error. *)
Definition answering (info : option (gmap string pyval)) : externals :=
  with_engine (fun _ _ _ => inr info) (fun _ _ _ => inr 0%Z).

End Reference.

(** ** Vocabulary of the specification *)

(** ContentShape, with the tag [get_url_info] uses for each variant. *)
Inductive ContentShape := Single | Collection | Feed.

Definition shape_tag (s : ContentShape) : string :=
  match s with
  | Single => "video"
  | Collection => "playlist"
  | Feed => "channel"
  end.

(** How the fetch worker routes a content type. *)
Definition shape_of (content_type : pyval) : ContentShape :=
  if PyVal.eq_str content_type "playlist" then Collection
  else if PyVal.eq_str content_type "channel" then Feed
  else Single.

(** The output template the specification gives for each shape, over the
    engine's field names. *)
Definition spec_template (s : ContentShape) (root ext : string) : string :=
  match s with
  | Single => root ++ "/" ++ "%(title)s" ++ "." ++ ext
  | Collection =>
      root ++ "/" ++ "%(playlist_title)s" ++ "/" ++
      "%(playlist_index)s" ++ "-" ++ "%(title)s" ++ "." ++ ext
  | Feed =>
      root ++ "/" ++ "%(uploader)s" ++ "/" ++
      "%(upload_date)s" ++ "-" ++ "%(title)s" ++ "." ++ ext
  end.

(** The post-processing step of audio mode at a bit rate, and the format
    selector of video mode capped at a height. *)
Definition extract_audio_at (kbps : string) : pyval :=
  PList [PDict [("key", PStr "FFmpegExtractAudio");
                ("preferredcodec", PStr "mp3");
                ("preferredquality", PStr kbps)]].

Definition convert_to_mp4 : pyval :=
  PList [PDict [("key", PStr "FFmpegVideoConvertor");
                ("preferedformat", PStr "mp4")]].

Definition selector_capped_at (height : string) : string :=
  "best[height<=" ++ height ++ "]/bestvideo[height<=" ++ height ++ "]+bestaudio/best".

(** The values lines 172-211 settle on, apart from the printed line. *)
Definition resolved_mode (audio_only : bool) (quality : string)
  : string * string * pyval :=
  if audio_only then
    ("bestaudio/best", "mp3",
     extract_audio_at (default "192" (audio_quality_map !! quality)))
  else
    (selector_capped_at (default "1080" (video_quality_map !! quality)), "mp4",
     convert_to_mp4).

(** The output template lines 240-254 store. *)
Definition outtmpl_of (content_type : pyval) (output_path file_extension : string)
  : string :=
  if PyVal.eq_str content_type "playlist" then
    os_path_join output_path
      ["%(playlist_title)s"; "%(playlist_index)s-%(title)s." ++ file_extension]
  else if PyVal.eq_str content_type "channel" then
    os_path_join output_path
      ["%(uploader)s"; "%(upload_date)s-%(title)s." ++ file_extension]
  else os_path_join output_path ["%(title)s." ++ file_extension].

(** The options the fetch worker hands to the engine. *)
Definition worker_ydl_opts (audio_only : bool) (quality : string)
    (content_type : pyval) (output_path : string) : gmap string pyval :=
  let '(format_selector, file_extension, postprocessors) :=
    resolved_mode audio_only quality in
  <["outtmpl" := PStr (outtmpl_of content_type output_path file_extension)]>
    (base_ydl_opts audio_only format_selector postprocessors).

(** [needle] occurs in [hay]. *)
Definition substring (needle hay : string) : Prop :=
  exists before after, hay = before ++ needle ++ after.

Fixpoint str_forall (p : ascii -> bool) (s : string) : bool :=
  match s with
  | EmptyString => true
  | String c s' => p c && str_forall p s'
  end.

Definition not_separator (c : ascii) : bool := negb (is_separator c).

(** [s] is empty or begins with a separator. *)
Definition at_boundary (s : string) : bool :=
  match s with
  | EmptyString => true
  | String c _ => is_separator c
  end.

(** The tokens of a text, as the specification describes them: the text is
    a run of separators, a token, and so on; a token is not empty, holds
    no separator and ends where a separator or the text's end follows. *)
Inductive tokens_of : string -> list string -> Prop :=
| tokens_none seps :
    str_forall is_separator seps = true ->
    tokens_of seps []
| tokens_next seps tok rest toks :
    str_forall is_separator seps = true ->
    tok <> EmptyString ->
    str_forall not_separator tok = true ->
    at_boundary rest = true ->
    tokens_of rest toks ->
    tokens_of (seps ++ tok ++ rest) (tok :: toks).

(** A sequence of classify calls in one process. *)
Fixpoint classify_all (E : externals) (links : list string) : M (list pyval) :=
  match links with
  | [] => ret []
  | link :: links' =>
      shape <- get_content_type E link ;;
      shapes <- classify_all E links' ;;
      ret (shape :: shapes)
  end.

Definition queries_url (link : string) (c : engine_call) : bool :=
  match c with
  | ExtractInfo _ u => String.eqb u link
  | Download _ _ => false
  end.

(** How often the engine was asked about [link]. *)
Definition engine_queries (link : string) (w : world) : nat :=
  length (List.filter (fun c => queries_url link c) (engine_log w)).

Definition is_download (c : engine_call) : bool :=
  match c with
  | Download _ _ => true
  | ExtractInfo _ _ => false
  end.

(** An output root that [os.path.join] extends with a slash. *)
Definition plain_root (root : string) : Prop :=
  root <> EmptyString /\ ends_with_slash root = false.

(** ** Notions used in the proofs *)

(** [b] is empty or its first character fails [p]. *)
Definition head_fails (p : ascii -> bool) (b : string) : bool :=
  match b with
  | EmptyString => true
  | String c _ => negb (p c)
  end.

(** A step that leaves two worlds in relation [R], whatever it returns. *)
Definition keeps {A} (R : world -> world -> Prop) (m : M A) : Prop :=
  forall w r w', m w = (r, w') -> R w w'.

(** The relations that compose along a computation. *)
Class Frame (R : world -> world -> Prop) := {
  frame_refl : forall w, R w w;
  frame_trans : forall w1 w2 w3, R w1 w2 -> R w2 w3 -> R w1 w3;
}.

(** The cache is untouched and the engine log grew by calls that all
    satisfy [P]. *)
Definition adds_calls (P : engine_call -> Prop) (w w' : world) : Prop :=
  url_info_cache w' = url_info_cache w /\
  exists calls, engine_log w' = (engine_log w ++ calls)%list /\ Forall P calls.

(** The content type read off an info dict (lines 65-75). *)
Definition type_from_info (url : string) (info : gmap string pyval) : pyval :=
  let content_type := dict_get info "_type" (PStr "video") in
  if PyVal.eq_str content_type "playlist" then
    if PyVal.truthy (dict_get_none info "uploader_id") && has_channel_marker url
    then PStr "channel" else PStr "playlist"
  else content_type.

(** The content type read off the URL alone, given its parsed query. *)
Definition type_from_pattern (E : externals) (url query : string) : pyval :=
  if has_channel_marker url then PStr "channel"
  else if bool_decide (is_Some (parse_qs E query !! "list")) then PStr "playlist"
  else PStr "video".

(** What holds between classify calls that all returned, while the links
    seen stay within [universe]: the cached links are distinct and among
    those seen, no link was queried twice, and a link that is not cached
    was never queried. *)
Definition cache_consistent (universe : list string) (w : world) : Prop :=
  NoDup (map fst (url_info_cache w)) /\
  (forall k, k ∈ map fst (url_info_cache w) -> k ∈ universe) /\
  (forall k, engine_queries k w <= 1)%nat /\
  (forall k, k ∉ map fst (url_info_cache w) -> engine_queries k w = O).

(** 130 classify calls: one link, 128 others, the first link again. *)
Definition other_links : list string :=
  map (fun n => "https://youtu.be/v" ++ pretty n) (seq 1 128).

Definition many_links : list string :=
  ("https://youtu.be/v0" :: other_links ++ ["https://youtu.be/v0"])%list.

Definition plain_video : externals :=
  Reference.answering (Some (list_to_map [("_type", PStr "video")])).

(** Three links whose workers end as success, failure, success. *)
Definition second_fails : externals :=
  Reference.with_engine
    (fun _ _ link =>
       if String.eqb link "https://youtu.be/two"
       then inl (Exn "DownloadError" "ERROR: Video unavailable")
       else inr (Some (list_to_map [("_type", PStr "video")])))
    (fun _ _ _ => inr 0%Z).

(** ** Further notions: the cache bound, the console, the window *)

(** The cache within its capacity and without a repeated link. *)
Definition cache_bounded (w : world) : Prop :=
  (length (url_info_cache w) <= maxsize)%nat /\ NoDup (map fst (url_info_cache w)).

(** The engine log grew by calls that all satisfy [P]. *)
Definition log_adds (P : engine_call -> Prop) (w w' : world) : Prop :=
  exists calls, engine_log w' = (engine_log w ++ calls)%list /\ Forall P calls.

(** A bounded cache stays bounded. *)
Definition keeps_bounded (w w' : world) : Prop :=
  cache_bounded w -> cache_bounded w'.

(** [message] begins with the tag of thread [thread_id]. *)
Definition tagged (thread_id : Z) (message : string) : Prop :=
  exists rest, message = thread_tag thread_id ++ " " ++ rest.

(** A host on which the output directory cannot be created. *)
Definition read_only_host : externals :=
  Externals Reference.urlparse_query Reference.parse_qs
    (fun _ _ _ => inr None) (fun _ _ _ => inr 0%Z) "/"
    (fun path => Some (Exn "PermissionError"
                         ("[Errno 13] Permission denied: '" ++ path ++ "'")))
    [].

(** [first] and [second] are printed one after the other. *)
Definition printed_in_a_row (first second : string) (lines : list string) : Prop :=
  exists before after, lines = (before ++ first :: second :: after)%list.

(** The console only grew. *)
Definition console_grows (w w' : world) : Prop :=
  exists lines, console w' = (console w ++ lines)%list.

(** ** The window: [YouTubeDownloaderGUI]

    Of the Kivy widgets only what the handlers read and write is kept: the
    texts of the inputs, the spinner's values and text, the start button's
    [disabled], the progress value, the log and the error pop-ups opened.
    [Clock.schedule_once] appends an event to a queue, and a frame of the
    clock dispatches the queued events in the order they were scheduled. *)

Inductive widget := VideoCheckBox | AudioCheckBox | OtherWidget.

Definition widget_eqb (a b : widget) : bool :=
  match a, b with
  | VideoCheckBox, VideoCheckBox => true
  | AudioCheckBox, AudioCheckBox => true
  | OtherWidget, OtherWidget => true
  | _, _ => false
  end.

Record gui := Gui {
  url_text : string;               (* self.url_text.text *)
  output_entry : string;           (* self.output_entry.text *)
  format_var : string;             (* self.format_var *)
  quality_values : list string;    (* self.quality_spinner.values *)
  quality_text : string;           (* self.quality_spinner.text *)
  start_disabled : bool;           (* self.start_button.disabled *)
  progress_value : Z;              (* self.progress.value *)
  log_text : string;               (* self.log_text.text *)
  log_cursor : nat * nat;          (* self.log_text.cursor *)
  popups : list string;            (* the messages of the pop-ups opened *)
}.

(** What [Clock.schedule_once] is given. *)
Inductive clock_event :=
| UpdateLog (message : string)     (* lambda dt: self._update_log(message) *)
| UpdateLogError                   (* lambda dt: self._update_log(f"Error: {str(e)}") *)
| DownloadFinished.                (* lambda dt: self.download_finished() *)

Definition video_qualities : list string := ["1080p"; "720p"; "480p"; "360p"; "240p"].
Definition audio_qualities : list string :=
  ["320kbps"; "256kbps"; "192kbps"; "128kbps"; "64kbps"].

Definition set_format (g : gui) (format : string) (values : list string) (text : string)
  : gui :=
  Gui (url_text g) (output_entry g) format values text (start_disabled g)
      (progress_value g) (log_text g) (log_cursor g) (popups g).

Definition on_format_change (g : gui) (checkbox : widget) (value : bool) : gui :=
  if value then
    if widget_eqb checkbox VideoCheckBox then
      set_format g "video" video_qualities "1080p"
    else if widget_eqb checkbox AudioCheckBox then
      set_format g "audio" audio_qualities "192kbps"
    else g
  else g.

(** The methods the class defines. *)
Definition class_methods : list string :=
  ["__init__"; "on_format_change"; "log_message"; "_update_log"; "start_download";
   "run_download"; "download_finished"; "show_error"].

(** [self.<name>] for a name [__init__] has not assigned: a method of the
    class or one of the names [inherited] from the Kivy base classes, else
    [AttributeError]. *)
Definition self_method (inherited : list string) (name : string) : exn + unit :=
  if existsb (String.eqb name) (class_methods ++ inherited)%list then inr tt
  else inl (Exn "AttributeError"
              ("'YouTubeDownloaderGUI' object has no attribute '" ++ name ++ "'")).

Definition and_then {A B} (x : exn + A) (k : A -> exn + B) : exn + B :=
  match x with
  | inl e => inl e
  | inr a => k a
  end.

(** [__init__], as far as the kept fields go, with the handlers it looks
    up on [self] in the order of the source; untouched fields have Kivy's
    defaults. *)
Definition gui_init (E : externals) (inherited : list string) : exn + gui :=
  let url_text := EmptyString in
  let output_entry := os_path_join (os_getcwd E) ["downloads"] in
  (* browse_btn.bind(on_press=self.browse_directory) *)
  and_then (self_method inherited "browse_directory") (fun _ =>
  let format_var := "video" in
  (* self.video_cb.bind(active=self.on_format_change) *)
  and_then (self_method inherited "on_format_change") (fun _ =>
  (* self.audio_cb.bind(active=self.on_format_change) *)
  and_then (self_method inherited "on_format_change") (fun _ =>
  let g := Gui url_text output_entry format_var video_qualities "1080p" false 0
               EmptyString (O, O) [] in
  (* self.on_format_change(self.video_cb, True) *)
  and_then (self_method inherited "on_format_change") (fun _ =>
  let g := on_format_change g VideoCheckBox true in
  (* self.start_button.bind(on_press=self.start_download) *)
  and_then (self_method inherited "start_download") (fun _ =>
  inr g))))).

(** [s.split(sep)] for a one-character separator. *)
Fixpoint split_char (sep : ascii) (s cur : string) : list string :=
  match s with
  | EmptyString => [cur]
  | String c s' =>
      if Ascii.eqb c sep then cur :: split_char sep s' EmptyString
      else split_char sep s' (cur ++ String c EmptyString)
  end.

Definition _update_log (g : gui) (message : string) : gui :=
  let text := log_text g ++ (message ++ nl) in
  Gui (url_text g) (output_entry g) (format_var g) (quality_values g) (quality_text g)
      (start_disabled g) (progress_value g) text
      (O, length (split_char "010" text EmptyString)) (popups g).

Definition log_message (message : string) : list clock_event :=
  [UpdateLog message].

Definition download_finished (g : gui) : gui * list clock_event :=
  (Gui (url_text g) (output_entry g) (format_var g) (quality_values g) (quality_text g)
       false 100 (log_text g) (log_cursor g) (popups g),
   log_message "Descarga completada.").

Definition show_error (g : gui) (message : string) : gui :=
  Gui (url_text g) (output_entry g) (format_var g) (quality_values g) (quality_text g)
      (start_disabled g) (progress_value g) (log_text g) (log_cursor g)
      (popups g ++ [message]).

(** The letter a with an acute accent, U+00E1. *)
Definition a_acute : string := String "225"%char EmptyString.

(** The arguments of the download thread:
    [(urls, output_path, audio_only, max_workers, quality)]. *)
Definition thread_arguments : Type := list string * string * bool * Z * string.

(** What a press on the start button leaves behind. *)
Record start_outcome := StartOutcome {
  gui_after : gui;
  scheduled : list clock_event;
  stdout_lines : list string;          (* printed by [parse_multiple_urls] *)
  thread_started : option thread_arguments;
}.

Definition start_download (E : externals) (g : gui) : start_outcome :=
  let urls_input := Py.strip (url_text g) in
  if negb (Py.truthy_str (Py.strip urls_input)) then
    StartOutcome (show_error g "Por favor ingresa al menos una URL.") [] [] None
  else
    let parsed := parse_multiple_urls_run urls_input in
    let urls := valid_urls parsed in
    match urls with
    | [] =>
        StartOutcome
          (show_error g ("No se encontraron URLs v" ++ a_acute ++ "lidas de YouTube."))
          [] (parse_printed parsed) None
    | _ =>
        let output_path := Py.strip (output_entry g) in
        let output_path :=
          if negb (Py.truthy_str output_path)
          then os_path_join (os_getcwd E) ["downloads"] else output_path in
        let audio_only := String.eqb (format_var g) "audio" in
        let quality := quality_text g in
        let max_workers := Z.min (Z.of_nat (length urls)) 5 in
        let max_workers := if (max_workers =? 0)%Z then 1%Z else max_workers in
        let g :=
          Gui (url_text g) (output_entry g) (format_var g) (quality_values g)
              (quality_text g) true 0 (log_text g) (log_cursor g) (popups g) in
        StartOutcome g
          (log_message
             ("Iniciando descarga de " ++ pretty (length urls) ++ " URL(s) con " ++
              pretty max_workers ++ " worker(s) autom" ++ a_acute ++ "tico(s)..."))
          (parse_printed parsed)
          (Some (urls, output_path, audio_only, max_workers, quality))
    end.

(** [run_download], the body of the thread.  While it runs, [print] is
    [custom_print]: what the coordinator prints (every call has one
    argument) is scheduled for the log instead of reaching the console,
    so the lines the coordinator adds to the console of the model are the
    events and the console is left as it was.  The handler schedules a
    callback that is to log the error, and the [finally] clause the call
    of [download_finished]. *)
Definition run_download (E : externals) (urls : list string) (output_path : string)
    (audio_only : bool) (max_workers : Z) (quality : string) (w : world)
  : world * list clock_event :=
  let '(r, w') :=
    download_youtube_content E urls (Some output_path) max_workers audio_only quality w in
  let printed := drop (length (console w)) (console w') in
  (World (url_info_cache w') (engine_log w') (console w),
   app (map UpdateLog printed)
       (app (match r with
             | Raise e => [UpdateLogError]
             | Ok _ => []
             end)
            [DownloadFinished])).

(** One scheduled callback.  The callback of the handler reads [e] when
    the clock calls it; by then the [except] clause has ended and has
    unbound the name, so the callback raises [NameError] (with the text
    of CPython 3.11 and later). *)
Definition dispatch (g : gui) (ev : clock_event) : exn + gui * list clock_event :=
  match ev with
  | UpdateLog message => inr (_update_log g message, [])
  | UpdateLogError =>
      inl (Exn "NameError"
             ("cannot access free variable 'e' where it is not associated " ++
              "with a value in enclosing scope"))
  | DownloadFinished => inr (download_finished g)
  end.

(** What a frame of the clock leaves: the window, the callbacks that are
    still scheduled, and the exception that ended the frame if one did. *)
Record frame_outcome := FrameOutcome {
  frame_gui : gui;
  frame_queue : list clock_event;
  frame_error : option exn;
}.

(** One frame of the clock: the queued callbacks in order; what they
    schedule waits for the next frame.  A callback that raises ends the
    frame: the exception leaves [Clock.tick], and the callbacks behind it
    are not run. *)
Fixpoint clock_frame_from (g : gui) (queue new : list clock_event) : frame_outcome :=
  match queue with
  | [] => FrameOutcome g new None
  | ev :: queue' =>
      match dispatch g ev with
      | inl e => FrameOutcome g (app queue' new) (Some e)
      | inr (g1, new1) => clock_frame_from g1 queue' (app new new1)
      end
  end.

Definition clock_frame (g : gui) (queue : list clock_event) : frame_outcome :=
  clock_frame_from g queue [].

(** What the user does between two presses of the start button; the
    spinner offers its values only. *)
Inductive user_action :=
| TypeUrls (text : string)
| TypeOutput (text : string)
| Toggle (checkbox : widget) (value : bool)
| PickQuality (index : nat).

Definition apply_action (g : gui) (a : user_action) : gui :=
  match a with
  | TypeUrls text =>
      Gui text (output_entry g) (format_var g) (quality_values g) (quality_text g)
          (start_disabled g) (progress_value g) (log_text g) (log_cursor g) (popups g)
  | TypeOutput text =>
      Gui (url_text g) text (format_var g) (quality_values g) (quality_text g)
          (start_disabled g) (progress_value g) (log_text g) (log_cursor g) (popups g)
  | Toggle checkbox value => on_format_change g checkbox value
  | PickQuality index =>
      match quality_values g !! index with
      | Some text =>
          Gui (url_text g) (output_entry g) (format_var g) (quality_values g) text
              (start_disabled g) (progress_value g) (log_text g) (log_cursor g) (popups g)
      | None => g
      end
  end.

(** The text the log gains from a list of lines. *)
Fixpoint log_lines (lines : list string) : string :=
  match lines with
  | [] => EmptyString
  | line :: lines' => line ++ nl ++ log_lines lines'
  end.

(** The format and the spinner agree: the spinner shows one of the names
    of the format's quality map. *)
Definition format_consistent (g : gui) : Prop :=
  (format_var g = "video" /\ quality_values g = video_qualities /\
   In (quality_text g) video_qualities) \/
  (format_var g = "audio" /\ quality_values g = audio_qualities /\
   In (quality_text g) audio_qualities).

(** A query made with the classifier's options: only those limit the
    playlist items. *)
Definition is_shallow_query (link : string) (c : engine_call) : bool :=
  match c with
  | ExtractInfo opts u =>
      String.eqb u link &&
      match opts !! "playlist_items" with Some _ => true | None => false end
  | Download _ _ => false
  end.

(** How often the classifier asked the engine about [link]. *)
Definition shallow_queries (link : string) (w : world) : nat :=
  length (List.filter (is_shallow_query link) (engine_log w)).

(** [cache_consistent], counting the classifier's queries only. *)
Definition classifier_consistent (universe : list string) (w : world) : Prop :=
  NoDup (map fst (url_info_cache w)) /\
  (forall k, k ∈ map fst (url_info_cache w) -> k ∈ universe) /\
  (forall k, shallow_queries k w <= 1)%nat /\
  (forall k, k ∉ map fst (url_info_cache w) -> shallow_queries k w = O).

(** A step that, when it returns, leaves two worlds in relation [R]. *)
Definition keeps_ok {A} (R : world -> world -> Prop) (m : M A) : Prop :=
  forall w a w', m w = (Ok a, w') -> R w w'.

(** The relation of a step that keeps the classifier's account within
    [universe]. *)
Definition keeps_account (universe : list string) (w w' : world) : Prop :=
  classifier_consistent universe w -> classifier_consistent universe w'.

(** ** Further notions: the cache window, the parts of a batch *)

(** [link] is cached with the value [v], behind exactly the links of
    [seen]; or it is no longer cached, and [seen] names 128 links or
    more. *)
Definition lru_window (link : string) (v : pyval * gmap string pyval)
    (seen : list string) (w : world) : Prop :=
  (exists pre post,
     url_info_cache w = (pre ++ (link, v) :: post)%list /\
     (forall k, k ∈ map fst pre <-> k ∈ seen)) \/
  ((link ∉ map fst (url_info_cache w)) /\ (maxsize <= length (remove_dups seen))%nat).

(** An engine that answers every query with a playlist of two entries,
    neither of which resolved: with [ignoreerrors] set, yt-dlp leaves
    [None] in the list for an entry it could not extract. *)
Definition unresolved_playlist : externals :=
  Reference.answering
    (Some (list_to_map [("_type", PStr "playlist"); ("title", PStr "Holidays");
                        ("entries", PList [PNone; PNone])])).

(** The directory a batch writes to (lines 322-323). *)
Definition batch_root (E : externals) (output_path : option string) : string :=
  match output_path with
  | None => os_path_join (os_getcwd E) ["downloads"]
  | Some p => p
  end.

(** Lines 326-357: what [download_youtube_content] does before its first
    worker runs. *)
Definition batch_prelude (E : externals) (urls : list string) (root : string)
    (max_workers : Z) (audio_only : bool) : M unit :=
  lift (match os_makedirs E root with Some e => inl e | None => inr tt end) ;;
  print (nl ++ "Starting download of " ++ pretty (length urls) ++ " URL(s) with " ++
         pretty max_workers ++ " concurrent workers...") ;;
  print ("Output directory: " ++ root) ;;
  print ("Format: " ++ (if audio_only then "MP3 Audio Only" else "MP4 Video")) ;;
  playlist_count <- count_content_type E "playlist" urls ;;
  channel_count <- count_content_type E "channel" urls ;;
  let video_count :=
    (Z.of_nat (length urls) - Z.of_nat playlist_count - Z.of_nat channel_count)%Z in
  let content_summary :=
    app (if (0 <? playlist_count)%nat then [pretty playlist_count ++ " playlist(s)"] else [])
   (app (if (0 <? channel_count)%nat then [pretty channel_count ++ " channel(s)"] else [])
        (if (0 <? video_count)%Z then [pretty video_count ++ " video(s)"] else [])) in
  (match content_summary with
   | [] => print "Content: Unknown content type"
   | _ => print ("Content: " ++ PyVal.join " + " content_summary)
   end) ;;
  print (str_repeat "-" 60) ;;
  (if (max_workers <=? 0)%Z
   then raise (Exn "ValueError" "max_workers must be greater than 0")
   else ret tt).

(** The outcomes of the workers of [tasks], run one after the other from
    [w], each followed by the print of its message (lines 364-367). *)
Inductive worker_outcomes (E : externals) (root : string) (audio_only : bool)
    (quality : string) : list (Z * string) -> world -> list fetch_result -> world -> Prop :=
| outcomes_nil w : worker_outcomes E root audio_only quality [] w [] w
| outcomes_cons thread_id link tasks w r w1 results w' :
    download_single_video E link root thread_id audio_only quality w = (Ok r, w1) ->
    worker_outcomes E root audio_only quality tasks
      (World (url_info_cache w1) (engine_log w1) (console w1 ++ [message r])) results w' ->
    worker_outcomes E root audio_only quality ((thread_id, link) :: tasks) w
      (r :: results) w'.

(** Lines 369-386: the lines of the printed summary. *)
Definition summary_lines (report : batch_report) (root : string) : list string :=
  app [nl ++ str_repeat "=" 60; "DOWNLOAD SUMMARY"; str_repeat "=" 60;
       "Successful downloads: " ++ pretty (length (successful report));
       "Failed downloads: " ++ pretty (length (failed report))]
 (app (match failed report with
       | [] => []
       | _ => (nl ++ "Failed URLs:") ::
              flat_map (fun r => ["   • " ++ url r; "     Reason: " ++ message r])
                       (failed report)
       end)
      (match successful report with
       | [] => []
       | _ => [nl ++ "All files saved to: " ++ root]
       end)).

(** The first line a batch prints (lines 328-329). *)
Definition batch_header (urls : list string) (max_workers : Z) : string :=
  nl ++ "Starting download of " ++ pretty (length urls) ++ " URL(s) with " ++
  pretty max_workers ++ " concurrent workers...".

(** * Properties *)

#[local] Arguments String.append !s1 s2 : simpl nomatch.

(** ** Strings *)

Lemma str_app_assoc (a b c : string) : (a ++ b) ++ c = a ++ b ++ c.
Proof. induction a as [|x a IH]; simpl; [reflexivity | now rewrite IH]. Qed.

Lemma str_app_empty_r (a : string) : a ++ EmptyString = a.
Proof. induction a as [|x a IH]; simpl; [reflexivity | now rewrite IH]. Qed.

Lemma str_forall_app p (a b : string) :
  str_forall p (a ++ b) = str_forall p a && str_forall p b.
Proof.
  induction a as [|x a IH]; simpl; [reflexivity |].
  rewrite IH. now rewrite andb_assoc.
Qed.

Lemma prefix_app (n rest : string) : String.prefix n (n ++ rest) = true.
Proof.
  induction n as [|x n IH]; simpl; [now destruct rest |].
  destruct (ascii_dec x x); [exact IH | congruence].
Qed.

Lemma prefix_split (n h : string) :
  String.prefix n h = true -> exists rest, h = n ++ rest.
Proof.
  revert h. induction n as [|x n IH]; intros h Hp.
  - exists h. reflexivity.
  - destruct h as [|y h]; simpl in Hp; [discriminate |].
    destruct (ascii_dec x y) as [->|]; [| discriminate].
    destruct (IH _ Hp) as [rest ->]. exists rest. reflexivity.
Qed.

Lemma contains_unfold (needle hay : string) :
  Py.contains needle hay =
  String.prefix needle hay ||
  match hay with
  | EmptyString => false
  | String _ hay' => Py.contains needle hay'
  end.
Proof. destruct hay; reflexivity. Qed.

(** [needle in hay] holds exactly when [needle] occurs in [hay]. *)
Lemma contains_substring (needle hay : string) :
  Py.contains needle hay = true <-> substring needle hay.
Proof.
  split.
  - induction hay as [|c hay IH]; rewrite contains_unfold; intros H;
      apply orb_true_iff in H as [H | H].
    + destruct (prefix_split _ _ H) as [rest Hr]. exists EmptyString, rest. exact Hr.
    + discriminate.
    + destruct (prefix_split _ _ H) as [rest Hr]. exists EmptyString, rest. exact Hr.
    + destruct (IH H) as (b & a & ->). exists (String c b), a. reflexivity.
  - intros (b & a & ->). induction b as [|c b IH].
    + change (EmptyString ++ needle ++ a) with (needle ++ a).
      rewrite contains_unfold. now rewrite prefix_app.
    + change (String c b ++ needle ++ a) with (String c (b ++ needle ++ a)).
      rewrite contains_unfold, IH. apply orb_true_r.
Qed.

(** ** Splitting and tokens *)

Lemma space_is_separator c : Py.isspace c = true -> is_separator c = true.
Proof. unfold is_separator. intros ->. now rewrite orb_true_r. Qed.

Lemma lstrip_split s :
  exists ws, s = ws ++ Py.lstrip s /\ str_forall is_separator ws = true.
Proof.
  induction s as [|c s IH]; simpl.
  - exists EmptyString. split; reflexivity.
  - destruct (Py.isspace c) eqn:Hc.
    + destruct IH as (ws & Hs & Hws). exists (String c ws). split.
      * simpl. now rewrite <- Hs.
      * simpl. now rewrite (space_is_separator _ Hc), Hws.
    + exists EmptyString. split; reflexivity.
Qed.

Lemma rstrip_split s :
  exists ws, s = Py.rstrip s ++ ws /\ str_forall is_separator ws = true.
Proof.
  induction s as [|c s IH]; simpl.
  - exists EmptyString. split; reflexivity.
  - destruct IH as (ws & Hs & Hws). destruct (Py.rstrip s) as [|d r] eqn:Hr.
    + destruct (Py.isspace c) eqn:Hc.
      * exists (String c ws). split.
        -- simpl in Hs. now rewrite <- Hs.
        -- simpl. now rewrite (space_is_separator _ Hc), Hws.
      * exists ws. split; [| exact Hws]. simpl in *. now rewrite <- Hs.
    + exists ws. split; [| exact Hws]. simpl in *. now rewrite <- Hs.
Qed.

Lemma not_separator_not_space c : not_separator c = true -> Py.isspace c = false.
Proof.
  unfold not_separator, is_separator. intros H.
  apply negb_true_iff in H. destruct (Py.isspace c); [| reflexivity].
  now rewrite orb_true_r in H.
Qed.

Lemma rstrip_id t : str_forall not_separator t = true -> Py.rstrip t = t.
Proof.
  induction t as [|c t IH]; simpl; [reflexivity |].
  intros H. apply andb_true_iff in H as [Hc Ht]. rewrite (IH Ht).
  destruct t; [| reflexivity]. now rewrite (not_separator_not_space _ Hc).
Qed.

Lemma strip_id t : str_forall not_separator t = true -> Py.strip t = t.
Proof.
  intros H. unfold Py.strip. rewrite (rstrip_id _ H).
  destruct t as [|c t]; [reflexivity |]. simpl in *.
  apply andb_true_iff in H as [Hc _]. now rewrite (not_separator_not_space _ Hc).
Qed.

Lemma re_split_from_pieces s : forall cur in_run,
  str_forall not_separator cur = true ->
  Forall (fun t => str_forall not_separator t = true) (re_split_from s cur in_run).
Proof.
  induction s as [|c s IH]; intros cur in_run Hcur; simpl.
  - constructor; [exact Hcur | constructor].
  - destruct (is_separator c) eqn:Hc.
    + destruct in_run; [apply IH; reflexivity |].
      constructor; [exact Hcur | apply IH; reflexivity].
    + apply IH. rewrite str_forall_app, Hcur. simpl.
      unfold not_separator. now rewrite Hc.
Qed.

Lemma tokens_of_prefix pre s toks :
  str_forall is_separator pre = true -> tokens_of s toks -> tokens_of (pre ++ s) toks.
Proof.
  intros Hpre H. destruct H as [seps Hs | seps tok rest toks Hs Hne Htok Hb Hrest].
  - constructor. now rewrite str_forall_app, Hpre, Hs.
  - rewrite <- str_app_assoc. constructor; try assumption.
    now rewrite str_forall_app, Hpre, Hs.
Qed.

Lemma at_boundary_app rest post :
  at_boundary rest = true -> str_forall is_separator post = true ->
  at_boundary (rest ++ post) = true.
Proof.
  destruct rest as [|c rest]; simpl; [| trivial].
  intros _. destruct post as [|d post]; simpl; [reflexivity |].
  intros H. now apply andb_true_iff in H as [H _].
Qed.

Lemma tokens_of_suffix s toks post :
  str_forall is_separator post = true -> tokens_of s toks -> tokens_of (s ++ post) toks.
Proof.
  intros Hpost H.
  induction H as [seps Hs | seps tok rest toks Hs Hne Htok Hb Hrest IH].
  - constructor. now rewrite str_forall_app, Hs, Hpost.
  - rewrite !str_app_assoc. constructor; try assumption.
    now apply at_boundary_app.
Qed.

Lemma tokens_of_strip s toks : tokens_of (Py.strip s) toks -> tokens_of s toks.
Proof.
  intros H. unfold Py.strip in H.
  destruct (rstrip_split s) as (post & Hs & Hpost).
  destruct (lstrip_split (Py.rstrip s)) as (pre & Hr & Hpre).
  rewrite Hs, Hr. apply tokens_of_suffix; [exact Hpost |].
  apply tokens_of_prefix; [exact Hpre | exact H].
Qed.

(** The non-empty pieces of the split are the tokens. *)
Lemma re_split_from_tokens s : forall cur in_run pre,
  str_forall is_separator pre = true ->
  str_forall not_separator cur = true ->
  (in_run = true -> cur = EmptyString) ->
  tokens_of (pre ++ cur ++ s)
            (List.filter Py.truthy_str (re_split_from s cur in_run)).
Proof.
  induction s as [|c s IH]; intros cur in_run pre Hpre Hcur Hrun; simpl.
  - destruct cur as [|d cur].
    + constructor. now rewrite str_forall_app, Hpre.
    + apply (tokens_next pre (String d cur) EmptyString []);
        try assumption; [discriminate | reflexivity | now constructor].
  - destruct (is_separator c) eqn:Hc.
    + assert (Hpc : str_forall is_separator (pre ++ String c EmptyString) = true).
      { rewrite str_forall_app, Hpre. simpl. now rewrite Hc. }
      destruct cur as [|d cur].
      * assert (Hgoal : tokens_of (pre ++ EmptyString ++ String c s)
                  (List.filter Py.truthy_str (re_split_from s EmptyString true))).
        { specialize (IH EmptyString true (pre ++ String c EmptyString) Hpc eq_refl (fun _ => eq_refl)).
          rewrite str_app_assoc in IH. exact IH. }
        destruct in_run; simpl; exact Hgoal.
      * destruct in_run; [specialize (Hrun eq_refl); discriminate |].
        simpl. apply (tokens_next pre (String d cur) (String c s));
          try assumption; [discriminate |].
        specialize (IH EmptyString true (String c EmptyString) ltac:(simpl; now rewrite Hc) eq_refl
                       (fun _ => eq_refl)).
        exact IH.
    + specialize (IH (cur ++ String c EmptyString) false pre Hpre).
      rewrite str_app_assoc in IH. apply IH; [| discriminate].
      rewrite str_forall_app, Hcur. simpl. unfold not_separator. now rewrite Hc.
Qed.

Lemma tokens_of_nonempty s toks :
  tokens_of s toks -> Forall (fun t => Py.truthy_str t = true) toks.
Proof.
  induction 1 as [| seps tok rest toks Hs Hne Htok Hb Hrest IH]; constructor; [| exact IH].
  destruct tok; [congruence | reflexivity].
Qed.

Lemma comprehension_strip pieces :
  Forall (fun t => str_forall not_separator t = true) pieces ->
  map Py.strip (List.filter (fun url => Py.truthy_str (Py.strip url)) pieces)
  = List.filter Py.truthy_str pieces.
Proof.
  induction 1 as [| t pieces Ht _ IH]; simpl; [reflexivity |].
  rewrite (strip_id _ Ht). destruct (Py.truthy_str t); simpl; [| exact IH].
  now rewrite (strip_id _ Ht), IH.
Qed.

Lemma parse_loop toks : forall st,
  Forall (fun t => Py.truthy_str t = true) toks ->
  valid_urls (fold_left parse_step toks st)
    = (valid_urls st ++ List.filter is_youtube_url toks)%list /\
  invalid_count (fold_left parse_step toks st)
    = (invalid_count st + length (List.filter (fun t => negb (is_youtube_url t)) toks))%nat.
Proof.
  induction toks as [|t toks IH]; intros st Hne; simpl.
  - rewrite app_nil_r. split; [reflexivity | lia].
  - inversion Hne as [| ? ? Ht Hrest]; subst.
    destruct (IH (parse_step st t) Hrest) as [Hv Hc]. rewrite Hv, Hc.
    unfold parse_step. rewrite Ht. destruct (is_youtube_url t); simpl.
    + rewrite <- app_assoc. split; [reflexivity | lia].
    + split; [reflexivity | lia].
Qed.

(** What [parse_multiple_urls] computes, over the non-empty pieces of the
    split. *)
Lemma parse_multiple_urls_run_pieces input :
  let toks := List.filter Py.truthy_str (re_split (Py.strip input)) in
  tokens_of input toks /\
  valid_urls (parse_multiple_urls_run input) = List.filter is_youtube_url toks /\
  invalid_count (parse_multiple_urls_run input)
    = length (List.filter (fun t => negb (is_youtube_url t)) toks).
Proof.
  intros toks.
  assert (Htoks : tokens_of input toks).
  { apply tokens_of_strip.
    exact (re_split_from_tokens (Py.strip input) EmptyString false EmptyString eq_refl eq_refl
             (fun H => eq_refl)). }
  split; [exact Htoks |].
  unfold parse_multiple_urls_run.
  rewrite (comprehension_strip (re_split (Py.strip input)))
    by (apply re_split_from_pieces; reflexivity).
  fold toks.
  destruct (parse_loop toks (ParseState [] 0 []) (tokens_of_nonempty _ _ Htoks))
    as [Hv Hc].
  simpl in Hv, Hc.
  destruct (0 <? invalid_count (fold_left parse_step toks (ParseState [] 0 [])))%nat;
    simpl; rewrite ?Hv, ?Hc; split; reflexivity.
Qed.

(** A string splits in one way only into a longest prefix of [p]
    characters and the rest. *)
Lemma span_unique p : forall a1 b1 a2 b2,
  a1 ++ b1 = a2 ++ b2 ->
  str_forall p a1 = true -> str_forall p a2 = true ->
  head_fails p b1 = true -> head_fails p b2 = true ->
  a1 = a2 /\ b1 = b2.
Proof.
  induction a1 as [|c a1 IH]; intros b1 a2 b2 Heq H1 H2 Hb1 Hb2.
  - destruct a2 as [|d a2]; [split; [reflexivity | exact Heq] |].
    simpl in Heq, H2. subst b1. simpl in Hb1.
    apply andb_true_iff in H2 as [Hd _]. rewrite Hd in Hb1. discriminate.
  - destruct a2 as [|d a2].
    + simpl in Heq, H1. subst b2. simpl in Hb2.
      apply andb_true_iff in H1 as [Hc _]. rewrite Hc in Hb2. discriminate.
    + simpl in Heq, H1, H2. injection Heq as -> Heq.
      apply andb_true_iff in H1 as [_ H1]. apply andb_true_iff in H2 as [_ H2].
      destruct (IH _ _ _ Heq H1 H2 Hb1 Hb2) as [-> ->]. split; reflexivity.
Qed.

Lemma token_head_fails tok rest :
  tok <> EmptyString -> str_forall not_separator tok = true ->
  head_fails is_separator (tok ++ rest) = true.
Proof.
  destruct tok as [|c tok]; [congruence |]. simpl. intros _ H.
  now apply andb_true_iff in H as [H _].
Qed.

Lemma at_boundary_head_fails rest :
  at_boundary rest = true -> head_fails not_separator rest = true.
Proof.
  destruct rest as [|c rest]; simpl; [reflexivity |].
  unfold not_separator. intros ->. reflexivity.
Qed.

(** A text has one token sequence. *)
Lemma tokens_of_unique s toks1 :
  tokens_of s toks1 -> forall toks2, tokens_of s toks2 -> toks1 = toks2.
Proof.
  induction 1 as [seps Hs | seps tok rest toks Hs Hne Htok Hb Hrest IH];
    intros toks2 H2.
  - inversion H2 as [| seps' tok' rest' toks' Hs' Hne' Htok' Hb' Hrest' Heq];
      [reflexivity |].
    subst seps. rewrite !str_forall_app in Hs.
    apply andb_true_iff in Hs as [_ Hs]. apply andb_true_iff in Hs as [Hs _].
    destruct tok' as [|c tok']; [congruence |]. simpl in Hs, Htok'.
    apply andb_true_iff in Hs as [Hc _]. apply andb_true_iff in Htok' as [Hc' _].
    unfold not_separator in Hc'. rewrite Hc in Hc'. discriminate.
  - inversion H2 as [seps' Hs' Heq | seps' tok' rest' toks' Hs' Hne' Htok' Hb' Hrest' Heq].
    + subst seps'. rewrite !str_forall_app in Hs'.
      apply andb_true_iff in Hs' as [_ Hs']. apply andb_true_iff in Hs' as [Hs' _].
      destruct tok as [|c tok]; [congruence |]. simpl in Hs', Htok.
      apply andb_true_iff in Hs' as [Hc _]. apply andb_true_iff in Htok as [Hc' _].
      unfold not_separator in Hc'. rewrite Hc in Hc'. discriminate.
    + destruct (span_unique is_separator _ _ _ _ Heq Hs' Hs
                  (token_head_fails _ _ Hne' Htok') (token_head_fails _ _ Hne Htok))
        as [-> Heq2].
      destruct (span_unique not_separator _ _ _ _ Heq2 Htok' Htok
                  (at_boundary_head_fails _ Hb') (at_boundary_head_fails _ Hb))
        as [-> ->].
      f_equal. apply IH. assumption.
Qed.

(** ** Claims on [parse_multiple_urls] *)


(** The example of the specification: two links kept, one entry
    skipped. *)
Example parse_keeps_two_of_three :
  let run :=
    parse_multiple_urls_run
      "https://youtube.com/watch?v=abc, not-a-url https://youtube.com/watch?v=def" in
  valid_urls run = ["https://youtube.com/watch?v=abc"; "https://youtube.com/watch?v=def"] /\
  invalid_count run = 1%nat.
Proof. vm_compute. split; reflexivity. Qed.

Lemma substring_weaken a b hay : substring (a ++ b) hay -> substring a hay.
Proof.
  intros (before & after & ->). exists before, (b ++ after).
  now rewrite str_app_assoc.
Qed.

(** C10. A token in which [youtu.be/] occurs anywhere is accepted by
    [parse_multiple_urls], whatever surrounds that substring: it passes
    both the host test and the marker test. *)
Theorem short_host_substring_accepted (input_string token : string) (toks : list string) :
  tokens_of input_string toks ->
  In token toks ->
  substring "youtu.be/" token ->
  is_youtube_url token = true /\ In token (parse_multiple_urls input_string).
Proof.
  intros Htoks Hin Hsub.
  assert (Hvalid : is_youtube_url token = true).
  { unfold is_youtube_url.
    assert (H1 : Py.contains "youtu.be" token = true).
    { apply contains_substring. exact (substring_weaken "youtu.be" "/" token Hsub). }
    assert (H2 : Py.contains "youtu.be/" token = true)
      by (apply contains_substring; exact Hsub).
    rewrite H1, H2. now rewrite !orb_true_r. }
  split; [exact Hvalid |].
  destruct (parse_multiple_urls_run_pieces input_string) as (Ht' & Hv & _).
  unfold parse_multiple_urls. rewrite Hv, <- (tokens_of_unique _ _ Htoks _ Ht').
  apply filter_In. split; assumption.
Qed.

Lemma short_host_substring_accepted_witness :
  let input := "see https://notyoutu.be/abc, please" in
  let token := "https://notyoutu.be/abc" in
  is_youtube_url token = true /\ In token (parse_multiple_urls input).
Proof.
  intros input token.
  apply (short_host_substring_accepted input token
           (List.filter Py.truthy_str (re_split (Py.strip input)))).
  - exact (proj1 (parse_multiple_urls_run_pieces input)).
  - vm_compute. right. left. reflexivity.
  - exists "https://not", "abc". reflexivity.
Defined.

(** ** Quality resolution *)

Lemma audio_quality_default quality :
  quality ∉ ["320kbps"; "256kbps"; "192kbps"; "128kbps"; "64kbps"] ->
  audio_quality_map !! quality = None.
Proof. intros H. apply not_elem_of_list_to_map_1. exact H. Qed.

Lemma video_quality_default quality :
  quality ∉ ["1080p"; "720p"; "480p"; "360p"; "240p"] ->
  video_quality_map !! quality = None.
Proof. intros H. apply not_elem_of_list_to_map_1. exact H. Qed.

Lemma mode_config_audio thread_id quality w :
  fst (mode_config thread_id true quality w)
  = Ok ("bestaudio/best", "mp3",
        extract_audio_at (default "192" (audio_quality_map !! quality))).
Proof. reflexivity. Qed.

Lemma mode_config_video thread_id quality w :
  fst (mode_config thread_id false quality w)
  = Ok (selector_capped_at (default "1080" (video_quality_map !! quality)), "mp4",
        convert_to_mp4).
Proof. reflexivity. Qed.

(** C9. Quality resolution always yields a value: in audio mode a string
    outside the five bit-rate names gives 192 kbps, in video mode a
    string outside the five height names gives a height of 1080, and a
    listed name gives the value listed with it. *)
Theorem quality_resolution (thread_id : Z) (w : world) :
  (forall quality,
     quality ∉ ["320kbps"; "256kbps"; "192kbps"; "128kbps"; "64kbps"] ->
     fst (mode_config thread_id true quality w)
     = Ok ("bestaudio/best", "mp3", extract_audio_at "192")) /\
  (forall quality,
     quality ∉ ["1080p"; "720p"; "480p"; "360p"; "240p"] ->
     fst (mode_config thread_id false quality w)
     = Ok (selector_capped_at "1080", "mp4", convert_to_mp4)) /\
  (forall quality kbps,
     (quality, kbps) ∈ [("320kbps", "320"); ("256kbps", "256"); ("192kbps", "192");
                        ("128kbps", "128"); ("64kbps", "64")] ->
     fst (mode_config thread_id true quality w)
     = Ok ("bestaudio/best", "mp3", extract_audio_at kbps)) /\
  (forall quality height,
     (quality, height) ∈ [("1080p", "1080"); ("720p", "720"); ("480p", "480");
                          ("360p", "360"); ("240p", "240")] ->
     fst (mode_config thread_id false quality w)
     = Ok (selector_capped_at height, "mp4", convert_to_mp4)).
Proof.
  repeat split.
  - intros quality H. now rewrite mode_config_audio, (audio_quality_default _ H).
  - intros quality H. now rewrite mode_config_video, (video_quality_default _ H).
  - intros quality kbps H. rewrite mode_config_audio.
    repeat (apply elem_of_cons in H as [H | H]; [injection H as -> ->; reflexivity |]).
    now apply elem_of_nil in H.
  - intros quality height H. rewrite mode_config_video.
    repeat (apply elem_of_cons in H as [H | H]; [injection H as -> ->; reflexivity |]).
    now apply elem_of_nil in H.
Qed.

Lemma quality_resolution_witness :
  fst (mode_config 1 true "best" initial_world)
    = Ok ("bestaudio/best", "mp3", extract_audio_at "192") /\
  fst (mode_config 1 false "best" initial_world)
    = Ok (selector_capped_at "1080", "mp4", convert_to_mp4) /\
  fst (mode_config 1 true "128kbps" initial_world)
    = Ok ("bestaudio/best", "mp3", extract_audio_at "128") /\
  fst (mode_config 1 false "720p" initial_world)
    = Ok (selector_capped_at "720", "mp4", convert_to_mp4).
Proof.
  destruct (quality_resolution 1 initial_world) as (Ha & Hv & Hra & Hrv).
  split; [| split; [| split]].
  - apply Ha. intros H. inversion H as [| ? ? ? H1]; subst.
    repeat (inversion H1 as [| ? ? ? H2]; subst; clear H1; rename H2 into H1).
  - apply Hv. intros H. inversion H as [| ? ? ? H1]; subst.
    repeat (inversion H1 as [| ? ? ? H2]; subst; clear H1; rename H2 into H1).
  - apply Hra. do 3 right. left.
  - apply Hrv. right. left.
Defined.

(** ** The monad *)

Lemma bind_ok {A B} (m : M A) (k : A -> M B) w b w' :
  bind m k w = (Ok b, w') ->
  exists a w1, m w = (Ok a, w1) /\ k a w1 = (Ok b, w').
Proof.
  unfold bind. destruct (m w) as [[a | e] w1]; [eauto | discriminate].
Qed.

Lemma bind_eq {A B} (m : M A) (k : A -> M B) w a w1 :
  m w = (Ok a, w1) -> bind m k w = k a w1.
Proof. unfold bind. now intros ->. Qed.

Lemma bind_raise {A B} (m : M A) (k : A -> M B) w e w1 :
  m w = (Raise e, w1) -> bind m k w = (Raise e, w1).
Proof. unfold bind. now intros ->. Qed.

Section Frames.

Context (R : world -> world -> Prop) `{!Frame R}.

Lemma keeps_ret {A} (a : A) : keeps R (ret a).
Proof. intros w r w' H. injection H as _ <-. apply frame_refl. Qed.

Lemma keeps_raise {A} e : keeps R (@raise A e).
Proof. intros w r w' H. injection H as _ <-. apply frame_refl. Qed.

Lemma keeps_lift {A} (x : exn + A) : keeps R (lift x).
Proof. destruct x; [apply keeps_raise | apply keeps_ret]. Qed.

Lemma keeps_bind {A B} (m : M A) (k : A -> M B) :
  keeps R m -> (forall a, keeps R (k a)) -> keeps R (bind m k).
Proof.
  intros Hm Hk w r w' H. unfold bind in H.
  destruct (m w) as [[a | e] w1] eqn:E1.
  - eapply frame_trans; [exact (Hm _ _ _ E1) | exact (Hk _ _ _ _ H)].
  - injection H as _ <-. exact (Hm _ _ _ E1).
Qed.

Lemma keeps_try {A} (m : M A) (h : exn -> M A) :
  keeps R m -> (forall e, keeps R (h e)) -> keeps R (try_except m h).
Proof.
  intros Hm Hh w r w' H. unfold try_except in H.
  destruct (m w) as [[a | e] w1] eqn:E1.
  - injection H as _ <-. exact (Hm _ _ _ E1).
  - eapply frame_trans; [exact (Hm _ _ _ E1) | exact (Hh _ _ _ _ H)].
Qed.

Lemma keeps_future {A} (m : M A) : keeps R m -> keeps R (future m).
Proof.
  intros Hm w r w' H. unfold future in H.
  destruct (m w) as [r0 w1] eqn:E1. injection H as _ <-. exact (Hm _ _ _ E1).
Qed.

End Frames.

#[export] Instance adds_calls_frame P : Frame (adds_calls P).
Proof.
  split.
  - intros w. split; [reflexivity |]. exists []. now rewrite app_nil_r.
  - intros w1 w2 w3 (Hc1 & l1 & Hl1 & HP1) (Hc2 & l2 & Hl2 & HP2).
    split; [congruence |]. exists (l1 ++ l2)%list.
    split; [now rewrite Hl2, Hl1, app_assoc | now apply Forall_app].
Qed.

Lemma adds_calls_weaken (P Q : engine_call -> Prop) w w' :
  (forall c, P c -> Q c) -> adds_calls P w w' -> adds_calls Q w w'.
Proof.
  intros HPQ (Hc & l & Hl & HP). split; [exact Hc |]. exists l.
  split; [exact Hl | eapply Forall_impl; eauto].
Qed.

Lemma print_adds P line : keeps (adds_calls P) (print line).
Proof.
  intros w r w' H. injection H as _ <-. split; [reflexivity |].
  exists []. simpl. now rewrite app_nil_r.
Qed.

(** One constructor of a computation at a time; what is left are the
    primitive steps. *)
Ltac keeps_step :=
  match goal with
  | |- keeps _ (bind _ _) => apply keeps_bind; [apply _ | | intros ?]
  | |- keeps _ (try_except _ _) => apply keeps_try; [apply _ | | intros ?]
  | |- keeps _ (future _) => apply keeps_future
  | |- keeps _ (ret _) => apply keeps_ret; apply _
  | |- keeps _ (raise _) => apply keeps_raise; apply _
  | |- keeps _ (lift _) => apply keeps_lift; apply _
  | |- keeps _ (print _) => apply print_adds
  | |- keeps _ (match ?x with _ => _ end) => destruct x
  | |- keeps _ (if ?b then _ else _) => destruct b
  end.

Section CodeFacts.

Variable E : externals.

Lemma extract_info_world opts url w :
  snd (extract_info E opts url w) = log_call (ExtractInfo opts url) w.
Proof. unfold extract_info. now destruct (ydl_extract_info E _ _ _). Qed.

Lemma download_world opts urls w :
  snd (download E opts urls w) = log_call (Download opts urls) w.
Proof. unfold download. now destruct (ydl_download E _ _ _). Qed.

Lemma extract_info_adds (P : engine_call -> Prop) opts url :
  P (ExtractInfo opts url) -> keeps (adds_calls P) (extract_info E opts url).
Proof.
  intros HP w r w' H. apply (f_equal snd) in H. rewrite extract_info_world in H.
  simpl in H. subst w'. split; [reflexivity |]. eexists. split; [reflexivity |].
  now constructor.
Qed.

Lemma download_adds (P : engine_call -> Prop) opts urls :
  P (Download opts urls) -> keeps (adds_calls P) (download E opts urls).
Proof.
  intros HP w r w' H. apply (f_equal snd) in H. rewrite download_world in H.
  simpl in H. subst w'. split; [reflexivity |]. eexists. split; [reflexivity |].
  now constructor.
Qed.

(** The fallback reads the URL and touches nothing. *)
Lemma url_pattern_fallback_world url w :
  snd (url_pattern_fallback E url w) = w.
Proof.
  unfold url_pattern_fallback, bind, lift.
  destruct (urlparse_query E url) as [e | q]; simpl; [reflexivity |].
  repeat case_match; reflexivity.
Qed.

(** One call of the body is one engine query and nothing else. *)
Lemma get_url_info_body_world url w :
  snd (get_url_info_body E url w) = log_call (ExtractInfo info_ydl_opts url) w.
Proof.
  unfold get_url_info_body, try_except, bind.
  pose proof (extract_info_world info_ydl_opts url w) as Hw.
  destruct (extract_info E info_ydl_opts url w) as [[[info |] | e] w1];
    simpl in Hw; subst w1.
  - unfold ret. repeat case_match; simplify_eq; reflexivity.
  - pose proof (url_pattern_fallback_world url
                  (log_call (ExtractInfo info_ydl_opts url) w)) as Hf.
    destruct (url_pattern_fallback E url _) as [[v | e] w2] eqn:Ef;
      simpl in Hf; subst w2; [reflexivity |].
    rewrite Ef. reflexivity.
  - apply url_pattern_fallback_world.
Qed.

End CodeFacts.

(** ** The classifier *)

Section Classifier.

Variable E : externals.

Lemma url_pattern_fallback_parsed url query w :
  urlparse_query E url = inr query ->
  url_pattern_fallback E url w = (Ok (type_from_pattern E url query, ∅), w).
Proof.
  intros Hq. unfold url_pattern_fallback, type_from_pattern, bind, lift.
  rewrite Hq. simpl. repeat case_match; reflexivity.
Qed.

Lemma url_pattern_fallback_raises url e w :
  urlparse_query E url = inl e ->
  url_pattern_fallback E url w = (Raise e, w).
Proof.
  intros Hq. unfold url_pattern_fallback, bind, lift. now rewrite Hq.
Qed.

(** The engine answered with an info dict. *)
Lemma get_url_info_body_info url info w :
  ydl_extract_info E (engine_log w) info_ydl_opts url = inr (Some info) ->
  get_url_info_body E url w
  = (Ok (type_from_info url info, info), log_call (ExtractInfo info_ydl_opts url) w).
Proof.
  intros He. unfold get_url_info_body, try_except, bind, extract_info, type_from_info.
  rewrite He. unfold ret. repeat case_match; simplify_eq; reflexivity.
Qed.

(** The engine answered [None] or raised: the result is the fallback's. *)
Lemma get_url_info_body_fallback url w :
  (ydl_extract_info E (engine_log w) info_ydl_opts url = inr None \/
   exists e, ydl_extract_info E (engine_log w) info_ydl_opts url = inl e) ->
  get_url_info_body E url w
  = url_pattern_fallback E url (log_call (ExtractInfo info_ydl_opts url) w).
Proof.
  intros He. unfold get_url_info_body, try_except, bind, extract_info.
  destruct He as [-> | [e ->]]; [| reflexivity].
  pose proof (url_pattern_fallback_world E url
                (log_call (ExtractInfo info_ydl_opts url) w)) as Hw.
  destruct (url_pattern_fallback E url _) as [[v | e] w1] eqn:Ef;
    simpl in Hw; subst w1; [reflexivity | exact Ef].
Qed.

(** *** The cache *)

Lemma cache_lookup_None {V} key (c : list (string * V)) :
  cache_lookup key c = None <-> key ∉ map fst c.
Proof.
  induction c as [| [k v] c IH]; simpl.
  - split; [intros _; apply not_elem_of_nil | reflexivity].
  - destruct (String.eqb_spec k key) as [-> | Hne].
    + split; [discriminate | intros H; exfalso; apply H; left].
    + rewrite IH, not_elem_of_cons. split; [intros H; split; congruence | now intros [_ H]].
Qed.

Lemma cache_remove_keys {V} key (c : list (string * V)) k :
  k ∈ map fst (cache_remove key c) <-> k ∈ map fst c /\ k <> key.
Proof.
  induction c as [| [k0 v] c IH]; simpl.
  - split; [intros H; now apply elem_of_nil in H | intros [H _]; now apply elem_of_nil in H].
  - destruct (String.eqb_spec k0 key) as [-> | Hne].
    + rewrite IH, elem_of_cons. split; [intros [? ?]; auto | intros [[-> | ?] ?]; [congruence | auto]].
    + simpl. rewrite !elem_of_cons, IH.
      split; [intros [-> | [? ?]]; auto | intros [[-> | ?] ?]; auto].
Qed.

Lemma cache_remove_NoDup {V} key (c : list (string * V)) :
  NoDup (map fst c) -> NoDup (map fst (cache_remove key c)).
Proof.
  induction c as [| [k0 v] c IH]; simpl; [trivial |].
  intros H. apply NoDup_cons in H as [Hk Hc].
  destruct (String.eqb k0 key); [auto |].
  simpl. apply NoDup_cons. split; [| auto].
  rewrite cache_remove_keys. now intros [? _].
Qed.

Lemma get_url_info_hit url v w :
  cache_lookup url (url_info_cache w) = Some v ->
  get_url_info E url w
  = (Ok v, set_cache ((url, v) :: cache_remove url (url_info_cache w)) w).
Proof. intros H. unfold get_url_info, lru_cache. now rewrite H. Qed.

Lemma get_url_info_miss url w :
  cache_lookup url (url_info_cache w) = None ->
  get_url_info E url w
  = match get_url_info_body E url w with
    | (Ok v, w') =>
        (Ok v, set_cache (cache_store url v (url_info_cache w))
                 (log_call (ExtractInfo info_ydl_opts url) w))
    | (Raise e, w') => (Raise e, log_call (ExtractInfo info_ydl_opts url) w)
    end.
Proof.
  intros H. unfold get_url_info, lru_cache. rewrite H.
  pose proof (get_url_info_body_world E url w) as Hw.
  destruct (get_url_info_body E url w) as [[v | e] w1]; simpl in Hw; subst w1.
  - simpl. now rewrite H.
  - reflexivity.
Qed.

(** An unrecognized type tag of the engine comes back as the content
    type. *)
Lemma get_content_type_passes_tag_through url info tag w :
  cache_lookup url (url_info_cache w) = None ->
  ydl_extract_info E (engine_log w) info_ydl_opts url = inr (Some info) ->
  info !! "_type" = Some (PStr tag) ->
  tag <> "playlist" ->
  fst (get_content_type E url w) = Ok (PStr tag).
Proof.
  intros Hc He Ht Hne. unfold get_content_type.
  erewrite bind_eq.
  2:{ rewrite (get_url_info_miss _ _ Hc), (get_url_info_body_info _ _ _ He). reflexivity. }
  simpl. unfold type_from_info, dict_get. rewrite Ht. simpl.
  destruct (String.eqb_spec tag "playlist"); [congruence | reflexivity].
Qed.

(** The classification policy on a link whose query parses. *)
Lemma classification_policy url query w :
  urlparse_query E url = inr query ->
  cache_lookup url (url_info_cache w) = None ->
  match ydl_extract_info E (engine_log w) info_ydl_opts url with
  | inr (Some info) => fst (get_content_type E url w) = Ok (type_from_info url info)
  | _ => fst (get_content_type E url w) = Ok (type_from_pattern E url query)
  end.
Proof.
  intros Hq Hc. unfold get_content_type.
  destruct (ydl_extract_info E (engine_log w) info_ydl_opts url) as [e | [info |]] eqn:He.
  - erewrite bind_eq.
    2:{ rewrite (get_url_info_miss _ _ Hc), get_url_info_body_fallback by eauto.
        rewrite (url_pattern_fallback_parsed _ _ _ Hq). reflexivity. }
    reflexivity.
  - erewrite bind_eq.
    2:{ rewrite (get_url_info_miss _ _ Hc), (get_url_info_body_info _ _ _ He).
        reflexivity. }
    reflexivity.
  - erewrite bind_eq.
    2:{ rewrite (get_url_info_miss _ _ Hc), get_url_info_body_fallback by eauto.
        rewrite (url_pattern_fallback_parsed _ _ _ Hq). reflexivity. }
    reflexivity.
Qed.

End Classifier.

(** ** Memoization *)

Lemma engine_queries_log_call k opts url w :
  engine_queries k (log_call (ExtractInfo opts url) w)
  = (engine_queries k w + if String.eqb url k then 1 else 0)%nat.
Proof.
  unfold engine_queries. simpl. rewrite List.filter_app, length_app. simpl.
  destruct (String.eqb url k); reflexivity.
Qed.

Lemma engine_queries_set_cache k c w :
  engine_queries k (set_cache c w) = engine_queries k w.
Proof. reflexivity. Qed.

Lemma distinct_keys_bounded (keys universe : list string) :
  NoDup keys -> (forall k, k ∈ keys -> k ∈ universe) ->
  (length keys <= length (remove_dups universe))%nat.
Proof.
  intros Hnd Hsub. apply submseteq_length, NoDup_submseteq; [exact Hnd |].
  intros k Hk. apply elem_of_remove_dups. auto.
Qed.

Section Memo.

Variable E : externals.
Variable universe : list string.
Hypothesis capacity : (length (remove_dups universe) <= maxsize)%nat.

Lemma get_url_info_consistent url v w w' :
  url ∈ universe ->
  cache_consistent universe w ->
  get_url_info E url w = (Ok v, w') ->
  cache_consistent universe w'.
Proof.
  intros Hu (Hnd & Hsub & Hle & Hzero) Hrun.
  destruct (cache_lookup url (url_info_cache w)) as [v0 |] eqn:Hc.
  - (* hit *)
    rewrite (get_url_info_hit _ _ _ _ Hc) in Hrun. injection Hrun as _ <-.
    unfold cache_consistent. simpl. repeat split.
    + apply NoDup_cons. split; [| now apply cache_remove_NoDup].
      rewrite cache_remove_keys. now intros [_ ?].
    + intros k Hk. apply elem_of_cons in Hk as [-> | Hk]; [exact Hu |].
      apply cache_remove_keys in Hk as [Hk _]. auto.
    + exact Hle.
    + intros k Hk. apply Hzero. intros Hin. apply Hk.
      destruct (decide (k = url)) as [-> | Hne]; [left |].
      right. apply cache_remove_keys. auto.
  - (* miss *)
    rewrite (get_url_info_miss _ _ _ Hc) in Hrun.
    destruct (get_url_info_body E url w) as [[v1 | e] w1]; [| discriminate].
    injection Hrun as _ <-.
    apply cache_lookup_None in Hc.
    assert (Hroom : (length (url_info_cache w) <? maxsize)%nat = true).
    { apply Nat.ltb_lt.
      assert (Hb : (length (url :: map fst (url_info_cache w))
                    <= length (remove_dups universe))%nat).
      { apply distinct_keys_bounded.
        - apply NoDup_cons. auto.
        - intros k Hk. apply elem_of_cons in Hk as [-> | Hk]; auto. }
      simpl in Hb. rewrite length_map in Hb. lia. }
    unfold cache_consistent, cache_store. rewrite Hroom. simpl. repeat split.
    + apply NoDup_cons. auto.
    + intros k Hk. apply elem_of_cons in Hk as [-> | Hk]; auto.
    + intros k. rewrite engine_queries_set_cache, engine_queries_log_call.
      destruct (String.eqb_spec url k) as [<- | Hne].
      * rewrite (Hzero _ Hc). lia.
      * specialize (Hle k). lia.
    + intros k Hk. rewrite engine_queries_set_cache, engine_queries_log_call.
      apply not_elem_of_cons in Hk as [Hne Hk].
      destruct (String.eqb_spec url k) as [<- | _]; [congruence |].
      rewrite (Hzero _ Hk). lia.
Qed.

Lemma classify_all_consistent links : forall w shapes w',
  (forall k, k ∈ links -> k ∈ universe) ->
  cache_consistent universe w ->
  classify_all E links w = (Ok shapes, w') ->
  cache_consistent universe w'.
Proof.
  induction links as [| link links IH]; intros w shapes w' Hsub Hinv Hrun; simpl in Hrun.
  - injection Hrun as _ <-. exact Hinv.
  - apply bind_ok in Hrun as (shape & w1 & Hshape & Hrun).
    apply bind_ok in Hrun as (shapes' & w2 & Hrest & Hrun).
    injection Hrun as _ <-.
    unfold get_content_type in Hshape.
    apply bind_ok in Hshape as ([ct info] & w1' & Hinfo & Hshape).
    injection Hshape as _ <-.
    apply (IH w1' shapes' w2).
    + intros k Hk. apply Hsub. now right.
    + apply (get_url_info_consistent link (ct, info) w); auto. apply Hsub. left.
    + exact Hrest.
Qed.

End Memo.

Lemma initial_world_consistent universe : cache_consistent universe initial_world.
Proof.
  unfold cache_consistent, initial_world. simpl.
  repeat split; auto using NoDup_nil_2.
  intros k Hk. now apply elem_of_nil in Hk.
Qed.

(** C4 as stated fails: after 128 other links the first link has left the
    cache, and the engine is asked about it a second time. *)
Lemma cache_evicts_after_128_links :
  exists shapes w',
    classify_all plain_video many_links initial_world = (Ok shapes, w') /\
    engine_queries "https://youtu.be/v0" w' = 2%nat.
Proof. eexists _, _. split; vm_compute; reflexivity. Qed.

(** In a sequence of classify calls that all return and that name at
    most 128 distinct links, starting from an empty cache, the engine is
    asked about each link at most once. *)
Lemma classify_within_capacity
    (E : externals) (links : list string) (shapes : list pyval) (w' : world)
    (link : string) :
  (length (remove_dups links) <= 128)%nat ->
  classify_all E links initial_world = (Ok shapes, w') ->
  (engine_queries link w' <= 1)%nat.
Proof.
  intros Hcap Hrun.
  pose proof (classify_all_consistent E links Hcap links initial_world shapes w'
                (fun k H => H) (initial_world_consistent links) Hrun)
    as (_ & _ & Hle & _).
  apply Hle.
Qed.

Lemma classify_within_capacity_example :
  let links := ["https://youtu.be/a"; "https://youtube.com/@b"; "https://youtu.be/a"] in
  (engine_queries "https://youtu.be/a"
     (snd (classify_all Reference.offline links initial_world)) <= 1)%nat.
Proof.
  intros links.
  apply (classify_within_capacity Reference.offline links
           [PStr "video"; PStr "channel"; PStr "video"]).
  - vm_compute. lia.
  - vm_compute. reflexivity.
Defined.

(** ** The fetch worker *)

Lemma mode_config_run thread_id audio_only quality w :
  exists w0,
    mode_config thread_id audio_only quality w
      = (Ok (resolved_mode audio_only quality), w0) /\
    adds_calls (fun _ => False) w w0.
Proof.
  unfold mode_config, resolved_mode. destruct audio_only.
  - eexists. split; [reflexivity |]. eapply print_adds. reflexivity.
  - eexists. split; [reflexivity |]. eapply print_adds. reflexivity.
Qed.

Lemma set_outtmpl_run thread_id audio_only content_type output_path ext opts w :
  exists w2,
    set_outtmpl thread_id audio_only content_type output_path ext opts w
    = (Ok (<["outtmpl" := PStr (outtmpl_of content_type output_path ext)]> opts), w2) /\
    adds_calls (fun _ => False) w w2.
Proof.
  unfold set_outtmpl, outtmpl_of.
  destruct (PyVal.eq_str content_type "playlist");
    [| destruct (PyVal.eq_str content_type "channel")];
    (eexists; split; [reflexivity | eapply print_adds; reflexivity]).
Qed.

Section Worker.

Variable E : externals.

Lemma check_entries_quiet url thread_id content_type info :
  keeps (adds_calls (fun _ => False)) (check_entries url thread_id content_type info).
Proof. unfold check_entries. repeat keeps_step. Qed.

Lemma check_entries_url link thread_id content_type info w r w' :
  check_entries link thread_id content_type info w = (Ok (Some r), w') ->
  url r = link /\ success r = false.
Proof.
  unfold check_entries. intros H.
  destruct (PyVal.eq_str (dict_get_none info "_type") "playlist"); [| discriminate].
  apply bind_ok in H as (n & w1 & _ & H).
  apply bind_ok in H as (t & w2 & _ & H).
  apply bind_ok in H as (u & w3 & _ & H).
  destruct (n =? 0)%nat; [| discriminate].
  apply bind_ok in H as (t' & w4 & _ & H).
  injection H as <- _. split; reflexivity.
Qed.

Lemma download_and_report_calls url thread_id audio_only content_type opts info :
  keeps (adds_calls (fun c => c = Download opts [url]))
        (download_and_report E url thread_id audio_only content_type opts info).
Proof.
  unfold download_and_report.
  repeat (keeps_step || (apply download_adds; reflexivity)).
Qed.

Lemma download_and_report_url link thread_id audio_only content_type opts info w r w' :
  download_and_report E link thread_id audio_only content_type opts info w = (Ok r, w') ->
  url r = link.
Proof.
  unfold download_and_report. intros H.
  apply bind_ok in H as (code & w1 & _ & H).
  destruct (PyVal.eq_str (dict_get_none info "_type") "playlist").
  - apply bind_ok in H as (t & w2 & _ & H).
    apply bind_ok in H as (n & w3 & _ & H).
    apply bind_ok in H as (t' & w4 & _ & H).
    now injection H as <- _.
  - now injection H as <- _.
Qed.

Lemma download_attempt_url link thread_id audio_only content_type opts w r w' :
  download_attempt E link thread_id audio_only content_type opts w = (Ok r, w') ->
  url r = link.
Proof.
  unfold download_attempt. intros H.
  apply bind_ok in H as (info & w1 & _ & H).
  destruct info as [info |]; [| now injection H as <- _].
  apply bind_ok in H as (early & w2 & Hearly & H).
  destruct early as [r0 |].
  - injection H as <- _. now apply check_entries_url in Hearly.
  - now apply download_and_report_url in H.
Qed.

(** The guarded part always returns a result, and for its own link. *)
Lemma guarded_download_returns link thread_id audio_only content_type opts w :
  exists r w',
    guarded_download E link thread_id audio_only content_type opts w = (Ok r, w') /\
    url r = link.
Proof.
  unfold guarded_download, try_except.
  destruct (download_attempt E link thread_id audio_only content_type opts w)
    as [[r | e] w1] eqn:Hm.
  - exists r, w1. split; [reflexivity |]. now apply download_attempt_url in Hm.
  - eexists _, _. split; reflexivity.
Qed.

(** Its engine calls: the metadata query, then at most downloads of the
    link, all with the options it was given; the cache is left alone. *)
Lemma guarded_download_calls url thread_id audio_only content_type opts w r w' :
  guarded_download E url thread_id audio_only content_type opts w = (r, w') ->
  adds_calls (fun c => c = Download opts [url]) (log_call (ExtractInfo opts url) w) w'.
Proof.
  intros H.
  assert (Hk : forall info,
    keeps (adds_calls (fun c => c = Download opts [url]))
      (match info with
       | None =>
           ret (FetchResult url false
                  (thread_tag thread_id ++
                   " Failed to extract video information. Video may be private or unavailable."))
       | Some info =>
           early <- check_entries url thread_id content_type info ;;
           match early with
           | Some r => ret r
           | None => download_and_report E url thread_id audio_only content_type opts info
           end
       end)).
  { intros [info |]; [| keeps_step].
    apply keeps_bind; [apply _ | |].
    - intros w0 r0 w0' H0. eapply adds_calls_weaken;
        [| exact (check_entries_quiet _ _ _ _ _ _ _ H0)]. intros c [].
    - intros [r0 |]; [keeps_step | apply download_and_report_calls]. }
  unfold guarded_download, try_except, download_attempt, bind at 1 in H.
  pose proof (extract_info_world E opts url w) as Hw.
  destruct (extract_info E opts url w) as [[info | e] w1]; simpl in Hw; subst w1.
  - match type of H with (match ?k with _ => _ end) = _ =>
      destruct k as [[r1 | e1] w2] eqn:Hrun end.
    + injection H as _ <-. exact (Hk _ _ _ _ Hrun).
    + injection H as _ <-. exact (Hk _ _ _ _ Hrun).
  - injection H as _ <-. apply frame_refl.
Qed.

(** *** What the guarded part returns, case by case *)

Lemma guarded_download_engine_error url thread_id audio_only content_type opts w e :
  ydl_extract_info E (engine_log w) opts url = inl e ->
  guarded_download E url thread_id audio_only content_type opts w
  = (Ok (FetchResult url false (thread_tag thread_id ++ " Error: " ++ exn_text e)),
     log_call (ExtractInfo opts url) w).
Proof.
  intros He. unfold guarded_download, try_except, download_attempt, bind, extract_info.
  now rewrite He.
Qed.

Lemma guarded_download_no_info url thread_id audio_only content_type opts w :
  ydl_extract_info E (engine_log w) opts url = inr None ->
  guarded_download E url thread_id audio_only content_type opts w
  = (Ok (FetchResult url false
           (thread_tag thread_id ++
            " Failed to extract video information. Video may be private or unavailable.")),
     log_call (ExtractInfo opts url) w).
Proof.
  intros He. unfold guarded_download, try_except, download_attempt, bind, extract_info.
  now rewrite He.
Qed.

Lemma guarded_download_empty url thread_id audio_only content_type opts w info :
  ydl_extract_info E (engine_log w) opts url = inr (Some info) ->
  PyVal.eq_str (dict_get_none info "_type") "playlist" = true ->
  PyVal.len (dict_get info "entries" (PList [])) = inr O ->
  exists msg w',
    guarded_download E url thread_id audio_only content_type opts w
      = (Ok (FetchResult url false msg), w') /\
    engine_log w' = (engine_log w ++ [ExtractInfo opts url])%list /\
    (forall s, content_type = PStr s ->
       PyVal.title_in_range s false = true ->
       msg = thread_tag thread_id ++ " " ++ PyVal.title_from s false ++
             " appears to be empty or private").
Proof.
  intros He Hty Hlen.
  unfold guarded_download, try_except, download_attempt, bind at 1, extract_info.
  rewrite He. unfold check_entries. rewrite Hty, Hlen.
  destruct content_type as [| b | z | s | l | d];
    (eexists _, _; split; [reflexivity | split; [reflexivity |]];
     intros s' Hs _; try discriminate; injection Hs as <-; reflexivity).
Qed.

Lemma guarded_download_download_error url thread_id audio_only content_type opts w info w1 e :
  ydl_extract_info E (engine_log w) opts url = inr (Some info) ->
  check_entries url thread_id content_type info (log_call (ExtractInfo opts url) w)
    = (Ok None, w1) ->
  ydl_download E (engine_log w1) opts [url] = inl e ->
  guarded_download E url thread_id audio_only content_type opts w
  = (Ok (FetchResult url false (thread_tag thread_id ++ " Error: " ++ exn_text e)),
     log_call (Download opts [url]) w1).
Proof.
  intros He Hcheck Hd.
  unfold guarded_download, try_except, download_attempt, bind at 1, extract_info.
  rewrite He. unfold bind at 1. rewrite Hcheck.
  unfold download_and_report, bind at 1, download. now rewrite Hd.
Qed.

(** *** The whole worker *)

Lemma download_single_video_steps url output_path thread_id audio_only quality w
    content_type cached_info w1 :
  get_url_info E url (snd (mode_config thread_id audio_only quality w))
    = (Ok (content_type, cached_info), w1) ->
  exists w2,
    adds_calls (fun _ => False) w1 w2 /\
    download_single_video E url output_path thread_id audio_only quality w
    = guarded_download E url thread_id audio_only content_type
        (worker_ydl_opts audio_only quality content_type output_path) w2.
Proof.
  intros Hinfo. unfold download_single_video.
  destruct (mode_config_run thread_id audio_only quality w) as (w0 & Hmode & _).
  rewrite Hmode in Hinfo. simpl in Hinfo.
  rewrite (bind_eq _ _ _ _ _ Hmode).
  unfold worker_ydl_opts.
  destruct (resolved_mode audio_only quality) as [[fmt ext] pp].
  rewrite (bind_eq _ _ _ _ _ Hinfo).
  destruct (set_outtmpl_run thread_id audio_only content_type output_path ext
              (base_ydl_opts audio_only fmt pp) w1) as (w2 & Hset & Hq).
  exists w2. split; [exact Hq |].
  now rewrite (bind_eq _ _ _ _ _ Hset).
Qed.

Lemma download_single_video_classify_raises url output_path thread_id audio_only quality w
    e w1 :
  get_url_info E url (snd (mode_config thread_id audio_only quality w)) = (Raise e, w1) ->
  download_single_video E url output_path thread_id audio_only quality w = (Raise e, w1).
Proof.
  intros Hinfo. unfold download_single_video.
  destruct (mode_config_run thread_id audio_only quality w) as (w0 & Hmode & _).
  rewrite Hmode in Hinfo. simpl in Hinfo.
  rewrite (bind_eq _ _ _ _ _ Hmode).
  destruct (resolved_mode audio_only quality) as [[fmt ext] pp].
  now rewrite (bind_raise _ _ _ _ _ Hinfo).
Qed.

(** A result of the worker is about the worker's own link. *)
Lemma download_single_video_url link output_path thread_id audio_only quality w r w' :
  download_single_video E link output_path thread_id audio_only quality w = (Ok r, w') ->
  url r = link.
Proof.
  intros H.
  destruct (get_url_info E link (snd (mode_config thread_id audio_only quality w)))
    as [[[ct ci] | e] w1] eqn:Hinfo.
  - destruct (download_single_video_steps link output_path _ _ _ _ _ _ _ Hinfo)
      as (w2 & _ & Heq).
    rewrite Heq in H.
    destruct (guarded_download_returns link thread_id audio_only ct
                (worker_ydl_opts audio_only quality ct output_path) w2)
      as (r' & w'' & Hg & Hurl).
    rewrite Hg in H. now injection H as <- _.
  - rewrite (download_single_video_classify_raises _ output_path _ _ _ _ _ _ Hinfo) in H.
    discriminate.
Qed.

(** The worker returns whenever the classifier does, and the classifier
    does so on every link whose query part [urlparse] accepts. *)
Lemma get_url_info_returns url query w :
  urlparse_query E url = inr query ->
  exists v w', get_url_info E url w = (Ok v, w').
Proof.
  intros Hq.
  destruct (cache_lookup url (url_info_cache w)) as [v |] eqn:Hc.
  - rewrite (get_url_info_hit _ _ _ _ Hc). eauto.
  - rewrite (get_url_info_miss _ _ _ Hc).
    destruct (ydl_extract_info E (engine_log w) info_ydl_opts url) as [e | [info |]] eqn:He.
    + rewrite get_url_info_body_fallback by eauto.
      rewrite (url_pattern_fallback_parsed _ _ _ _ Hq). eauto.
    + rewrite (get_url_info_body_info _ _ _ _ He). eauto.
    + rewrite get_url_info_body_fallback by eauto.
      rewrite (url_pattern_fallback_parsed _ _ _ _ Hq). eauto.
Qed.

Lemma download_single_video_returns link query output_path thread_id audio_only quality w :
  urlparse_query E link = inr query ->
  exists r w',
    download_single_video E link output_path thread_id audio_only quality w = (Ok r, w') /\
    url r = link.
Proof.
  intros Hq.
  destruct (get_url_info_returns link query
              (snd (mode_config thread_id audio_only quality w)) Hq)
    as ([ct ci] & w1 & Hinfo).
  destruct (download_single_video_steps link output_path _ _ _ _ _ _ _ Hinfo)
    as (w2 & _ & Heq).
  rewrite Heq. apply guarded_download_returns.
Qed.

End Worker.

(** ** Output templates *)

Lemma str_app_empty a b : a ++ b = EmptyString -> b = EmptyString.
Proof. destruct a; simpl; [trivial | discriminate]. Qed.

Lemma ends_with_slash_app a b :
  b <> EmptyString -> ends_with_slash (a ++ b) = ends_with_slash b.
Proof.
  intros Hb. induction a as [| c a IH]; [reflexivity |].
  change (String c a ++ b) with (String c (a ++ b)).
  destruct (a ++ b) as [| d s] eqn:Hab.
  - apply str_app_empty in Hab. congruence.
  - exact IH.
Qed.

Lemma path_join2_plain a b :
  a <> EmptyString -> ends_with_slash a = false -> starts_with_slash b = false ->
  path_join2 a b = a ++ "/" ++ b.
Proof.
  intros Ha Hend Hb. unfold path_join2. rewrite Hb, Hend.
  destruct a; [congruence | reflexivity].
Qed.

Lemma app_nonempty_l a b : a <> EmptyString -> a ++ b <> EmptyString.
Proof. destruct a; [congruence | discriminate]. Qed.

(** Under a plain root the stored template is the one the specification
    gives for the shape. *)
Lemma outtmpl_of_spec content_type root ext :
  plain_root root ->
  outtmpl_of content_type root ext = spec_template (shape_of content_type) root ext.
Proof.
  intros [Hne Hend]. unfold outtmpl_of, shape_of, spec_template, os_path_join.
  destruct (PyVal.eq_str content_type "playlist");
    [| destruct (PyVal.eq_str content_type "channel")]; simpl fold_left.
  - rewrite (path_join2_plain root "%(playlist_title)s" Hne Hend eq_refl).
    rewrite path_join2_plain;
      [ now rewrite str_app_assoc
      | now apply app_nonempty_l
      | now rewrite ends_with_slash_app
      | reflexivity ].
  - rewrite (path_join2_plain root "%(uploader)s" Hne Hend eq_refl).
    rewrite path_join2_plain;
      [ now rewrite str_app_assoc
      | now apply app_nonempty_l
      | now rewrite ends_with_slash_app
      | reflexivity ].
  - rewrite path_join2_plain; [reflexivity | assumption | assumption | reflexivity].
Qed.

Lemma worker_ydl_opts_outtmpl audio_only quality content_type root :
  worker_ydl_opts audio_only quality content_type root !! "outtmpl"
  = Some (PStr (outtmpl_of content_type root (if audio_only then "mp3" else "mp4"))).
Proof.
  unfold worker_ydl_opts, resolved_mode.
  destruct audio_only; apply lookup_insert_eq.
Qed.

Lemma adds_no_calls w w' :
  adds_calls (fun _ => False) w w' -> engine_log w' = engine_log w.
Proof.
  intros (_ & calls & Hl & HF). destruct calls as [| c calls].
  - now rewrite app_nil_r in Hl.
  - now inversion HF.
Qed.

(** ** Claims on the fetch worker *)

(** C7. Once the link is classified, the output template in the options
    the worker passes to the engine follows the shape: root/title.ext
    for a single item, root/playlist_title/playlist_index-title.ext for a
    collection (the collection's own index leads the file name) and
    root/uploader/upload_date-title.ext for a feed; ext is mp3 in audio
    mode and mp4 otherwise. *)
Theorem outtmpl_follows_shape
    (E : externals) (url output_path : string) (thread_id : Z) (audio_only : bool)
    (quality : string) (w : world)
    (content_type : pyval) (cached_info : gmap string pyval) (w1 : world) :
  plain_root output_path ->
  get_url_info E url (snd (mode_config thread_id audio_only quality w))
    = (Ok (content_type, cached_info), w1) ->
  exists opts r w' later,
    download_single_video E url output_path thread_id audio_only quality w = (Ok r, w') /\
    engine_log w' = (engine_log w1 ++ ExtractInfo opts url :: later)%list /\
    Forall (fun c => c = Download opts [url]) later /\
    opts !! "outtmpl"
    = Some (PStr (spec_template (shape_of content_type) output_path
                    (if audio_only then "mp3" else "mp4"))).
Proof.
  intros Hroot Hinfo.
  destruct (download_single_video_steps E url output_path _ _ _ _ _ _ _ Hinfo)
    as (w2 & Hq & Heq).
  set (opts := worker_ydl_opts audio_only quality content_type output_path) in *.
  destruct (guarded_download_returns E url thread_id audio_only content_type opts w2)
    as (r & w' & Hg & _).
  destruct (guarded_download_calls E _ _ _ _ _ _ _ _ Hg) as (_ & later & Hlog & Hlater).
  exists opts, r, w', later. split; [now rewrite Heq |].
  split; [| split; [exact Hlater |]].
  - rewrite Hlog. simpl. rewrite (adds_no_calls _ _ Hq). now rewrite <- app_assoc.
  - unfold opts. rewrite worker_ydl_opts_outtmpl. now rewrite outtmpl_of_spec.
Qed.

Lemma outtmpl_follows_shape_witness :
  let link := "https://www.youtube.com/playlist?list=PL1" in
  let info : gmap string pyval :=
    list_to_map [("_type", PStr "playlist"); ("entries", PList [PNone])] in
  exists opts r w',
    download_single_video (Reference.answering (Some info)) link "downloads" 1 true
      "320kbps" initial_world = (Ok r, w') /\
    ExtractInfo opts link ∈ engine_log w' /\
    opts !! "outtmpl"
    = Some (PStr "downloads/%(playlist_title)s/%(playlist_index)s-%(title)s.mp3").
Proof.
  intros link info.
  destruct (outtmpl_follows_shape (Reference.answering (Some info)) link "downloads"
              1 true "320kbps" initial_world (PStr "playlist") info
              (snd (get_url_info (Reference.answering (Some info)) link
                      (snd (mode_config 1 true "320kbps" initial_world)))))
    as (opts & r & w' & later & Hrun & Hlog & _ & Htmpl).
  - split; [discriminate | reflexivity].
  - vm_compute. reflexivity.
  - exists opts, r, w'. split; [exact Hrun |]. split; [| exact Htmpl].
    rewrite Hlog. apply elem_of_app. right. left.
Defined.

(** Once the link is classified: when the metadata query before the
    download returns nothing, or returns a playlist-typed dict whose list
    of entries is empty, the worker returns a failed result for the
    link, with the message of that case, and the engine is asked for no
    download. *)
Lemma worker_stops_without_entries
    (E : externals) (url output_path : string) (thread_id : Z) (audio_only : bool)
    (quality : string) (w : world)
    (content_type : pyval) (cached_info : gmap string pyval) (w1 : world) :
  let opts := worker_ydl_opts audio_only quality content_type output_path in
  get_url_info E url (snd (mode_config thread_id audio_only quality w))
    = (Ok (content_type, cached_info), w1) ->
  (ydl_extract_info E (engine_log w1) opts url = inr None \/
   exists info,
     ydl_extract_info E (engine_log w1) opts url = inr (Some info) /\
     PyVal.eq_str (dict_get_none info "_type") "playlist" = true /\
     PyVal.len (dict_get info "entries" (PList [])) = inr O) ->
  exists msg w',
    download_single_video E url output_path thread_id audio_only quality w
      = (Ok (FetchResult url false msg), w') /\
    engine_log w' = (engine_log w1 ++ [ExtractInfo opts url])%list /\
    (ydl_extract_info E (engine_log w1) opts url = inr None ->
     msg = thread_tag thread_id ++
           " Failed to extract video information. Video may be private or unavailable.") /\
    (forall info s,
       ydl_extract_info E (engine_log w1) opts url = inr (Some info) ->
       content_type = PStr s ->
       PyVal.title_in_range s false = true ->
       msg = thread_tag thread_id ++ " " ++ PyVal.title_from s false ++
             " appears to be empty or private").
Proof.
  intros opts Hinfo Hcase.
  destruct (download_single_video_steps E url output_path _ _ _ _ _ _ _ Hinfo)
    as (w2 & Hq & Heq).
  fold opts in Heq. rewrite Heq.
  pose proof (adds_no_calls _ _ Hq) as Hlog. rewrite <- Hlog in *.
  destruct Hcase as [Hnone | (info & Hsome & Hty & Hlen)].
  - rewrite (guarded_download_no_info E _ _ _ _ _ _ Hnone).
    eexists _, _. split; [reflexivity |]. split; [reflexivity |].
    split; [reflexivity |]. intros info s Hsome. congruence.
  - destruct (guarded_download_empty E url thread_id audio_only content_type opts w2
                info Hsome Hty Hlen) as (msg & w' & Hg & Hl & Hmsg).
    exists msg, w'. split; [exact Hg |]. split; [exact Hl |].
    split; [intros Hnone; congruence |]. intros info' s _. apply Hmsg.
Qed.

Lemma worker_stops_without_entries_example :
  exists msg w',
    download_single_video (Reference.answering None)
      "https://www.youtube.com/watch?v=abc" "downloads" 2 false "720p" initial_world
      = (Ok (FetchResult "https://www.youtube.com/watch?v=abc" false msg), w') /\
    Forall (fun c => is_download c = false) (engine_log w') /\
    msg = "[Thread 2] Failed to extract video information. Video may be private or unavailable.".
Proof.
  destruct (worker_stops_without_entries (Reference.answering None)
              "https://www.youtube.com/watch?v=abc" "downloads" 2 false "720p"
              initial_world (PStr "video") ∅
              (snd (get_url_info (Reference.answering None)
                      "https://www.youtube.com/watch?v=abc"
                      (snd (mode_config 2 false "720p" initial_world)))))
    as (msg & w' & Hrun & Hlog & Hmsg & _).
  - vm_compute. reflexivity.
  - left. reflexivity.
  - exists msg, w'. split; [exact Hrun |]. split.
    + rewrite Hlog. repeat constructor.
    + apply Hmsg. reflexivity.
Defined.

(** C1 (the code departs from it). A link that passes the parser but has
    an unmatched bracket in its host makes [urlparse] raise inside the
    classifier's fallback; the worker, which classifies outside its own
    [try], raises instead of returning a failed result, and so does the
    coordinator for the whole batch. *)
Theorem worker_raises_on_unmatched_bracket :
  let link := "http://[youtube.com/watch?v=abc" in
  parse_multiple_urls link = [link] /\
  fst (download_single_video Reference.offline link "downloads" 1 false "best"
         initial_world)
  = Raise (Exn "ValueError" "Invalid IPv6 URL") /\
  fst (download_youtube_content Reference.offline ["https://youtu.be/abc"; link]
         (Some "downloads") 2 false "best" initial_world)
  = Raise (Exn "ValueError" "Invalid IPv6 URL").
Proof. vm_compute. repeat split. Qed.

(** C3 (the code departs from it). A type tag of the engine other than
    [playlist] is returned as it is: for the tag [url], with which yt-dlp
    answers a flat query that it would redirect, the content type is
    none of the three variants. *)
Theorem unrecognized_type_tag_is_returned :
  let link := "https://youtu.be/abc?list=PL1" in
  let engine :=
    Reference.answering
      (Some (list_to_map [("_type", PStr "url");
                          ("url", PStr "https://www.youtube.com/watch?v=abc&list=PL1")])) in
  fst (get_content_type engine link initial_world) = Ok (PStr "url") /\
  forall shape, PStr "url" <> PStr (shape_tag shape).
Proof.
  split; [vm_compute; reflexivity |]. intros []; discriminate.
Qed.

(** C5 (the code departs from it). When the engine fails or returns
    nothing, the fallback parses the URL before it looks for a profile
    marker: a link with such a marker and an unmatched bracket in its
    host is not classified as a feed, the call raises. *)
Theorem fallback_raises_before_matching :
  let link := "http://[youtube.com/@channel" in
  parse_multiple_urls link = [link] /\
  has_channel_marker link = true /\
  fst (get_content_type Reference.offline link initial_world)
  = Raise (Exn "ValueError" "Invalid IPv6 URL") /\
  fst (get_content_type (Reference.answering None) link initial_world)
  = Raise (Exn "ValueError" "Invalid IPv6 URL").
Proof. vm_compute. repeat split. Qed.

(** ** The batch report *)

Lemma build_report_counts results :
  length (successful (build_report results))
    = count_occ bool_dec (map success results) true /\
  length (failed (build_report results))
    = count_occ bool_dec (map success results) false.
Proof.
  unfold build_report. simpl.
  induction results as [| r results [IHs IHf]]; simpl; [split; reflexivity |].
  destruct (success r); simpl; rewrite IHs, IHf; split; reflexivity.
Qed.

Lemma build_report_total results :
  (length (successful (build_report results)) + length (failed (build_report results))
   = length results)%nat.
Proof.
  unfold build_report. simpl.
  induction results as [| r results IH]; simpl; [reflexivity |].
  destruct (success r); simpl; lia.
Qed.

Lemma build_report_failed results r :
  In r (failed (build_report results)) <-> In r results /\ success r = false.
Proof.
  unfold build_report. simpl. rewrite filter_In.
  now rewrite negb_true_iff.
Qed.

Lemma build_report_successful results r :
  In r (successful (build_report results)) <-> In r results /\ success r = true.
Proof. unfold build_report. simpl. now rewrite filter_In. Qed.

Lemma enumerate_from_urls urls : forall i, map snd (enumerate_from i urls) = urls.
Proof. induction urls as [| u urls IH]; intros i; simpl; [| rewrite IH]; reflexivity. Qed.

(** Every pending future completes once. *)
Lemma completion_order_permutation {A} n : forall picks (pending : list A),
  length pending = n -> Permutation (completion_order n picks pending) pending.
Proof.
  induction n as [| n IH]; intros picks pending Hlen; simpl.
  - destruct pending; [constructor | discriminate].
  - assert (Hi : (hd O picks mod length pending < length pending)%nat)
      by (apply Nat.mod_upper_bound; lia).
    destruct (lookup_lt_is_Some_2 pending _ Hi) as [x Hx]. rewrite Hx.
    etransitivity; [| symmetry; exact (delete_Permutation pending _ x Hx)].
    constructor. apply IH. rewrite length_delete by eauto. lia.
Qed.

Section Coordinator.

Variable E : externals.

Lemma as_completed_permutation {A} (pending : list A) :
  Permutation (as_completed E pending) pending.
Proof. apply completion_order_permutation. reflexivity. Qed.

Lemma collect_results_links output_path audio_only quality tasks :
  forall results w collected w',
    collect_results E output_path audio_only quality tasks results w = (Ok collected, w') ->
    exists new,
      collected = (results ++ new)%list /\ map url new = map snd tasks.
Proof.
  induction tasks as [| [thread_id link] tasks IH]; intros results w collected w' H;
    simpl in H.
  - injection H as <- _. exists []. now rewrite app_nil_r.
  - apply bind_ok in H as (r & w1 & Hr & H).
    unfold future in Hr.
    destruct (download_single_video E link output_path thread_id audio_only quality w)
      as [r0 w0] eqn:Hrun.
    injection Hr as <- <-.
    destruct r0 as [result | e].
    + apply bind_ok in H as (u & w2 & _ & H).
      destruct (IH _ _ _ _ H) as (new & -> & Hnew).
      exists (result :: new). split; [now rewrite <- app_assoc |].
      simpl. rewrite Hnew. f_equal.
      exact (download_single_video_url E _ _ _ _ _ _ _ _ Hrun).
    + unfold bind in H.
      destruct (drain E output_path audio_only quality tasks w0) as [[u | e'] w2];
        discriminate.
Qed.

(** A report comes from the results of all the workers. *)
Lemma download_youtube_content_report urls output_path max_workers audio_only quality
    w report w' :
  download_youtube_content E urls output_path max_workers audio_only quality w
    = (Ok report, w') ->
  exists results,
    report = build_report results /\ Permutation (map url results) urls.
Proof.
  unfold download_youtube_content. intros H.
  repeat (apply bind_ok in H as (? & ? & ? & H)).
  injection H as <- _.
  match goal with
  | Hc : collect_results _ _ _ _ _ _ _ = (Ok ?rs, _) |- _ =>
      destruct (collect_results_links _ _ _ _ _ _ _ _ Hc) as (new & Hnew & Hlinks);
      exists rs
  end.
  split; [reflexivity |]. subst. simpl.
  rewrite Hlinks, (as_completed_permutation (enumerate_from 0 urls)).
  now rewrite enumerate_from_urls.
Qed.

End Coordinator.

(** * Further properties *)

(** ** More on [parse_multiple_urls] *)

Lemma parse_of_tokens input toks :
  tokens_of input toks ->
  parse_multiple_urls input = List.filter is_youtube_url toks.
Proof.
  intros Ht. destruct (parse_multiple_urls_run_pieces input) as (Ht' & Hv & _).
  unfold parse_multiple_urls. now rewrite Hv, (tokens_of_unique _ _ Ht _ Ht').
Qed.

Lemma tokens_of_sep_free s toks :
  tokens_of s toks -> Forall (fun t => str_forall not_separator t = true) toks.
Proof. induction 1; constructor; assumption. Qed.

Lemma tokens_exist input : exists toks, tokens_of input toks.
Proof. eexists. exact (proj1 (parse_multiple_urls_run_pieces input)). Qed.

(** A link of the result is a token of the text. *)
Lemma parse_result_tokens input :
  Forall (fun link => link <> EmptyString /\ str_forall not_separator link = true /\
                      is_youtube_url link = true)
         (parse_multiple_urls input).
Proof.
  destruct (tokens_exist input) as [toks Ht]. rewrite (parse_of_tokens _ _ Ht).
  apply List.Forall_forall. intros link Hin. apply filter_In in Hin as [Hin Hv].
  pose proof (proj1 (List.Forall_forall _ _) (tokens_of_sep_free _ _ Ht) _ Hin) as Hs.
  pose proof (proj1 (List.Forall_forall _ _) (tokens_of_nonempty _ _ Ht) _ Hin) as Hn.
  repeat split; try assumption. intros ->. discriminate.
Qed.

(** X3. Every link [parse_multiple_urls] returns is non-empty, holds no
    separator character, is unchanged by [strip], and passes the YouTube
    test [is_youtube_url]. *)
Theorem parsed_links_are_clean (input_string link : string) :
  In link (parse_multiple_urls input_string) ->
  link <> EmptyString /\
  str_forall (fun c => negb (is_separator c)) link = true /\
  Py.strip link = link /\
  is_youtube_url link = true.
Proof.
  intros Hin.
  destruct (proj1 (List.Forall_forall _ _) (parse_result_tokens input_string) _ Hin)
    as (Hne & Hsep & Hv).
  repeat split; try assumption. now apply strip_id.
Qed.

Lemma parsed_links_are_clean_witness :
  let link := "https://youtu.be/abc" in
  link <> EmptyString /\
  str_forall (fun c => negb (is_separator c)) link = true /\
  Py.strip link = link /\
  is_youtube_url link = true.
Proof.
  intros link.
  apply (parsed_links_are_clean "  https://youtu.be/abc ,junk" link).
  vm_compute. left. reflexivity.
Defined.

Lemma tokens_of_join links :
  Forall (fun t => t <> EmptyString /\ str_forall not_separator t = true) links ->
  tokens_of (PyVal.join ", " links) links.
Proof.
  induction 1 as [| t links [Hne Hsep] Hrest IH]; simpl.
  - now constructor.
  - destruct links as [| t' links'].
    + assert (H1 : tokens_of (EmptyString ++ t ++ EmptyString) [t]).
      { constructor; try assumption; try reflexivity. }
      simpl in H1. now rewrite str_app_empty_r in H1.
    + apply (tokens_next EmptyString t (", " ++ PyVal.join ", " (t' :: links'))
               (t' :: links')); try assumption; try reflexivity.
      apply (tokens_of_prefix ", "); [reflexivity | exact IH].
Qed.

Lemma filter_all_true {A} (f : A -> bool) l :
  Forall (fun x => f x = true) l -> List.filter f l = l.
Proof. induction 1 as [| x l Hx _ IH]; simpl; [| rewrite Hx, IH]; reflexivity. Qed.

(** X1. Parsing is stable under re-joining its own result: writing the links
    [parse_multiple_urls] returned as one line, separated by a comma and a
    space, and parsing that line gives the same links in the same order. *)
Theorem parse_of_joined_result (input_string : string) :
  parse_multiple_urls (PyVal.join ", " (parse_multiple_urls input_string))
  = parse_multiple_urls input_string.
Proof.
  pose proof (parse_result_tokens input_string) as Hall.
  rewrite (parse_of_tokens _ (parse_multiple_urls input_string)).
  - apply filter_all_true. eapply List.Forall_impl; [| exact Hall]. now intros ? (_ & _ & ?).
  - apply tokens_of_join. eapply List.Forall_impl; [| exact Hall]. now intros ? (? & ? & _).
Qed.

Lemma tokens_of_app a ta : tokens_of a ta -> forall c b tb,
  is_separator c = true -> tokens_of b tb ->
  tokens_of (a ++ String c b) (ta ++ tb)%list.
Proof.
  induction 1 as [seps Hs | seps tok rest toks Hs Hne Htok Hb Hrest IH];
    intros c b tb Hc Htb.
  - simpl. apply tokens_of_prefix; [exact Hs |].
    apply (tokens_of_prefix (String c EmptyString)); [simpl; now rewrite Hc | exact Htb].
  - rewrite !str_app_assoc. simpl. constructor; try assumption.
    + destruct rest; simpl; [exact Hc | exact Hb].
    + now apply IH.
Qed.

(** X2. [parse_multiple_urls] works block by block: for two texts put
    together with one separator character between them (a comma or a
    white-space character), the result is the links of the first text
    followed by the links of the second. *)
Theorem parse_of_two_blocks (first second : string) (sep : ascii) :
  is_separator sep = true ->
  parse_multiple_urls (first ++ String sep second)
  = (parse_multiple_urls first ++ parse_multiple_urls second)%list.
Proof.
  intros Hsep.
  destruct (tokens_exist first) as [ta Ha]. destruct (tokens_exist second) as [tb Hb].
  rewrite (parse_of_tokens _ _ (tokens_of_app _ _ Ha _ _ _ Hsep Hb)).
  rewrite (parse_of_tokens _ _ Ha), (parse_of_tokens _ _ Hb). apply List.filter_app.
Qed.

Lemma parse_of_two_blocks_witness :
  parse_multiple_urls ("https://youtu.be/a,x" ++ String "010" "https://youtu.be/b")
  = (parse_multiple_urls "https://youtu.be/a,x" ++ parse_multiple_urls "https://youtu.be/b")%list.
Proof. apply parse_of_two_blocks. reflexivity. Defined.

(** What the loop prints. *)
Lemma parse_loop_printed toks : forall st,
  Forall (fun t => Py.truthy_str t = true) toks ->
  parse_printed (fold_left parse_step toks st)
  = (parse_printed st ++
     map (fun t => ("Warning: Skipping invalid URL: " ++ t)%string)
         (List.filter (fun t => negb (is_youtube_url t)) toks))%list.
Proof.
  induction toks as [| t toks IH]; intros st Hne; simpl.
  - now rewrite app_nil_r.
  - inversion Hne as [| ? ? Ht Hrest]; subst. rewrite (IH _ Hrest).
    unfold parse_step. rewrite Ht. destruct (is_youtube_url t); simpl; [reflexivity |].
    now rewrite <- app_assoc.
Qed.

(** The run of the function on the tokens of its input. *)
Lemma parse_run_of_tokens input_string toks :
  tokens_of input_string toks ->
  parse_multiple_urls_run input_string
  = let st := fold_left parse_step toks (ParseState [] 0 []) in
    if (0 <? invalid_count st)%nat then
      ParseState (valid_urls st) (invalid_count st)
        (parse_printed st ++
         ["Info: Found " ++ pretty (length (valid_urls st)) ++
          " valid YouTube URLs, skipped " ++ pretty (invalid_count st) ++
          " invalid entries"])
    else st.
Proof.
  intros Ht. unfold parse_multiple_urls_run.
  rewrite (comprehension_strip (re_split (Py.strip input_string)))
    by (apply re_split_from_pieces; reflexivity).
  assert (Heq : List.filter Py.truthy_str (re_split (Py.strip input_string)) = toks).
  { apply (tokens_of_unique input_string); [| exact Ht].
    exact (proj1 (parse_multiple_urls_run_pieces input_string)). }
  now rewrite Heq.
Qed.

(** X4. What [parse_multiple_urls] prints: one line
    [Warning: Skipping invalid URL: t] for each rejected token [t], in the
    order of the input, and after them, only when a token was rejected,
    one line [Info: Found n valid YouTube URLs, skipped m invalid entries]
    with the number of accepted and of rejected tokens. *)
Theorem parse_console_output (input_string : string) (toks : list string) :
  tokens_of input_string toks ->
  let rejected := List.filter (fun t => negb (is_youtube_url t)) toks in
  parse_printed (parse_multiple_urls_run input_string)
  = (map (fun t => ("Warning: Skipping invalid URL: " ++ t)%string) rejected ++
     match rejected with
     | [] => []
     | _ => [("Info: Found " ++ pretty (length (List.filter is_youtube_url toks)) ++
              " valid YouTube URLs, skipped " ++ pretty (length rejected) ++
              " invalid entries")%string]
     end)%list.
Proof.
  intros Ht rejected.
  rewrite (parse_run_of_tokens _ _ Ht). cbv zeta.
  pose proof (tokens_of_nonempty _ _ Ht) as Hne.
  destruct (parse_loop toks (ParseState [] 0 []) Hne) as [Hv Hc].
  pose proof (parse_loop_printed toks (ParseState [] 0 []) Hne) as Hp.
  simpl in Hv, Hc, Hp. fold rejected in Hc, Hp.
  destruct rejected as [| r rejected'] eqn:Hrej.
  - rewrite Hc. simpl. now rewrite Hp.
  - rewrite Hc. simpl. rewrite Hp, Hv. reflexivity.
Qed.

Lemma parse_console_output_witness :
  parse_printed (parse_multiple_urls_run "https://youtu.be/a, junk")
  = ["Warning: Skipping invalid URL: junk";
     "Info: Found 1 valid YouTube URLs, skipped 1 invalid entries"].
Proof.
  apply (parse_console_output "https://youtu.be/a, junk" ["https://youtu.be/a"; "junk"]).
  apply (tokens_next EmptyString "https://youtu.be/a" ", junk" ["junk"]);
    try reflexivity; [discriminate |].
  apply (tokens_next ", " "junk" EmptyString []); try reflexivity; [discriminate |].
  now constructor.
Defined.

Lemma tokens_of_nil_iff s : tokens_of s [] <-> str_forall is_separator s = true.
Proof.
  split; [| apply tokens_none]. intros H. now inversion H.
Qed.

(** X5. [parse_multiple_urls] finds no link, counts no invalid entry and
    prints nothing exactly when its input consists of separator characters
    only (the empty input included). *)
Theorem parse_silent_on_separators (input_string : string) :
  str_forall is_separator input_string = true <->
  parse_multiple_urls_run input_string = ParseState [] 0 [].
Proof.
  split.
  - intros Hs. now rewrite (parse_run_of_tokens _ _ (tokens_none _ Hs)).
  - intros Hrun. destruct (tokens_exist input_string) as [toks Ht].
    apply tokens_of_nil_iff.
    destruct (parse_multiple_urls_run_pieces input_string) as (Ht' & Hv & Hc).
    rewrite <- (tokens_of_unique _ _ Ht _ Ht') in *. rewrite Hrun in Hv, Hc. simpl in *.
    destruct toks as [| t toks]; [exact Ht |]. simpl in Hv, Hc.
    destruct (is_youtube_url t); discriminate.
Qed.

Lemma parse_silent_on_separators_witness :
  parse_multiple_urls_run " , ,  " = ParseState [] 0 [].
Proof. apply parse_silent_on_separators. reflexivity. Defined.

(** ** More on the cache *)

Lemma cache_lookup_head {V} key (v : V) c : cache_lookup key ((key, v) :: c) = Some v.
Proof. simpl. now rewrite String.eqb_refl. Qed.

(** A call that returns leaves its answer at the head of the cache. *)
Lemma get_url_info_stores (E : externals) link v w w1 :
  get_url_info E link w = (Ok v, w1) ->
  cache_lookup link (url_info_cache w1) = Some v.
Proof.
  intros H. destruct (cache_lookup link (url_info_cache w)) as [v0 |] eqn:Hc.
  - rewrite (get_url_info_hit _ _ _ _ Hc) in H. injection H as <- <-.
    apply cache_lookup_head.
  - rewrite (get_url_info_miss _ _ _ Hc) in H.
    destruct (get_url_info_body E link w) as [[v1 | e] w0]; [| discriminate].
    injection H as <- <-. apply cache_lookup_head.
Qed.

(** X6. A classification [get_url_info] has returned is answered from the
    cache when the same link is asked again at once: the second call
    returns the same value whatever the engine and the URL parser would
    answer now, asks the engine nothing and prints nothing. *)
Theorem cached_answer_is_reused
    (E E' : externals) (link : string) (v : pyval * gmap string pyval) (w w1 : world) :
  get_url_info E link w = (Ok v, w1) ->
  exists w2,
    get_url_info E' link w1 = (Ok v, w2) /\
    engine_log w2 = engine_log w1 /\
    console w2 = console w1.
Proof.
  intros H. apply get_url_info_stores in H.
  rewrite (get_url_info_hit _ _ _ _ H). eexists. repeat split.
Qed.

Lemma cached_answer_is_reused_witness :
  let link := "https://www.youtube.com/watch?v=abc&list=PL1" in
  let w1 := snd (get_url_info Reference.offline link initial_world) in
  exists w2,
    get_url_info plain_video link w1 = (Ok (PStr "playlist", ∅), w2) /\
    engine_log w2 = engine_log w1 /\
    console w2 = console w1.
Proof.
  intros link w1.
  apply (cached_answer_is_reused Reference.offline plain_video link _ initial_world).
  vm_compute. reflexivity.
Defined.

Lemma cache_remove_length {V} key (c : list (string * V)) :
  (length (cache_remove key c) <= length c)%nat.
Proof.
  induction c as [| [k v] c IH]; simpl; [lia |].
  destruct (String.eqb k key); simpl; lia.
Qed.

Lemma cache_remove_shrinks {V} key (c : list (string * V)) v :
  cache_lookup key c = Some v -> (length (cache_remove key c) < length c)%nat.
Proof.
  induction c as [| [k v0] c IH]; simpl; [discriminate |].
  destruct (String.eqb k key).
  - intros _. pose proof (cache_remove_length key c). lia.
  - intros H. specialize (IH H). simpl. lia.
Qed.

Lemma removelast_keys {V} (c : list (string * V)) :
  map fst (removelast c) = removelast (map fst c).
Proof.
  induction c as [| kv c IH]; [reflexivity |].
  destruct c as [| kv' c']; [reflexivity |].
  change (fst kv :: map fst (removelast (kv' :: c'))
          = fst kv :: removelast (map fst (kv' :: c'))).
  f_equal. exact IH.
Qed.

Lemma removelast_sublist {A} (l : list A) : sublist (removelast l) l.
Proof.
  induction l as [| x l IH]; [constructor |].
  destruct l as [| y l']; [apply sublist_nil_l |].
  change (removelast (x :: y :: l')) with (x :: removelast (y :: l')).
  now constructor.
Qed.

Lemma removelast_length {A} (l : list A) :
  l <> [] -> S (length (removelast l)) = length l.
Proof.
  induction l as [| x l IH]; [congruence |]. intros _.
  destruct l as [| y l']; [reflexivity |].
  change (removelast (x :: y :: l')) with (x :: removelast (y :: l')).
  simpl. f_equal. apply IH. discriminate.
Qed.

Lemma cache_store_bounded {V} key (v : V) c :
  (length c <= maxsize)%nat -> NoDup (map fst c) -> key ∉ map fst c ->
  (length (cache_store key v c) <= maxsize)%nat /\
  NoDup (map fst (cache_store key v c)).
Proof.
  intros Hlen Hnd Hkey. unfold cache_store.
  destruct (Nat.ltb_spec (length c) maxsize) as [Hlt | Hge].
  - simpl. split; [lia |]. apply NoDup_cons. auto.
  - assert (Hne : c <> []) by (intros ->; simpl in Hge; unfold maxsize in Hge; lia).
    simpl. rewrite (removelast_length c Hne). split; [exact Hlen |].
    rewrite removelast_keys. apply NoDup_cons. split.
    + intros Hin. apply Hkey.
      exact (sublist_subseteq _ _ (removelast_sublist (map fst c)) _ Hin).
    + exact (sublist_NoDup _ _ Hnd (removelast_sublist (map fst c))).
Qed.

Lemma get_url_info_bounded E link : keeps keeps_bounded (get_url_info E link).
Proof.
  intros w r w' H [Hlen Hnd].
  destruct (cache_lookup link (url_info_cache w)) as [v0 |] eqn:Hc.
  - rewrite (get_url_info_hit _ _ _ _ Hc) in H. injection H as _ <-.
    split; simpl.
    + pose proof (cache_remove_shrinks _ _ _ Hc). lia.
    + apply NoDup_cons. split; [| now apply cache_remove_NoDup].
      rewrite cache_remove_keys. now intros [_ ?].
  - rewrite (get_url_info_miss _ _ _ Hc) in H.
    destruct (get_url_info_body E link w) as [[v1 | e] w0].
    + injection H as _ <-. apply cache_lookup_None in Hc.
      exact (cache_store_bounded link v1 _ Hlen Hnd Hc).
    + injection H as _ <-. split; assumption.
Qed.

(** X7. [get_url_info] keeps its cache within the bound of
    [lru_cache(maxsize=128)]: a cache of at most 128 entries with distinct
    keys is one after the call too, whether the call returns or raises. *)
Theorem cache_stays_bounded
    (E : externals) (link : string) (w : world)
    (r : result (pyval * gmap string pyval)) (w' : world) :
  cache_bounded w ->
  get_url_info E link w = (r, w') ->
  cache_bounded w'.
Proof.
  intros Hb H. unfold cache_bounded.
  exact (get_url_info_bounded E link w r w' H Hb).
Qed.

Lemma cache_stays_bounded_witness :
  cache_bounded (snd (get_url_info Reference.offline "https://youtu.be/abc" initial_world)).
Proof.
  apply (cache_stays_bounded Reference.offline "https://youtu.be/abc" initial_world
           (fst (get_url_info Reference.offline "https://youtu.be/abc" initial_world))).
  - split; [vm_compute; lia | constructor].
  - vm_compute. reflexivity.
Defined.

(** ** More on the fetch worker *)

Section WorkerMore.

Variable E : externals.

Lemma check_entries_log link thread_id content_type info w r w' :
  check_entries link thread_id content_type info w = (r, w') ->
  engine_log w' = engine_log w.
Proof.
  intros H. exact (adds_no_calls _ _ (check_entries_quiet _ _ _ _ _ _ _ H)).
Qed.

Lemma check_entries_tagged link thread_id content_type info w r w' :
  check_entries link thread_id content_type info w = (Ok (Some r), w') ->
  tagged thread_id (message r).
Proof.
  unfold check_entries. intros H.
  destruct (PyVal.eq_str (dict_get_none info "_type") "playlist"); [| discriminate].
  apply bind_ok in H as (n & w1 & _ & H).
  apply bind_ok in H as (t & w2 & _ & H).
  apply bind_ok in H as (u & w3 & _ & H).
  destruct (n =? 0)%nat; [| discriminate].
  apply bind_ok in H as (t' & w4 & _ & H).
  injection H as <- _. eexists. reflexivity.
Qed.

(** The download step asks the engine once, however it ends. *)
Lemma download_and_report_log link thread_id audio_only content_type opts info w r w' :
  download_and_report E link thread_id audio_only content_type opts info w = (r, w') ->
  engine_log w' = (engine_log w ++ [Download opts [link]])%list.
Proof.
  unfold download_and_report, bind at 1. intros H.
  pose proof (download_world E opts [link] w) as Hw.
  destruct (download E opts [link] w) as [[code | e] w1]; simpl in Hw; subst w1.
  - assert (Hk : keeps (adds_calls (fun _ => False))
              (if PyVal.eq_str (dict_get_none info "_type") "playlist"
               then
                 content_title <- lift (PyVal.title content_type) ;;
                 let title := dict_get info "title" (PStr ("Unknown " ++ content_title)) in
                 video_count <- lift (PyVal.len (dict_get info "entries" (PList []))) ;;
                 content_title0 <- lift (PyVal.title content_type) ;;
                 ret (FetchResult link true
                        (thread_tag thread_id ++ " " ++ content_title0 ++ " '" ++
                         PyVal.str title ++ "' download completed! (" ++
                         pretty video_count ++ " " ++
                         (if audio_only then "MP3s" else "videos") ++ ")"))
               else
                 ret (FetchResult link true
                        (thread_tag thread_id ++ " " ++
                         (if audio_only then "Audio" else "Video") ++
                         " download completed successfully!")))).
    { repeat (keeps_step || (progress (cbv zeta))). }
    rewrite (adds_no_calls _ _ (Hk _ _ _ H)). reflexivity.
  - injection H as _ <-. reflexivity.
Qed.

Lemma download_and_report_tagged link thread_id audio_only content_type opts info w r w' :
  download_and_report E link thread_id audio_only content_type opts info w = (Ok r, w') ->
  tagged thread_id (message r) /\ success r = true.
Proof.
  unfold download_and_report. intros H.
  apply bind_ok in H as (code & w1 & _ & H).
  destruct (PyVal.eq_str (dict_get_none info "_type") "playlist").
  - apply bind_ok in H as (t & w2 & _ & H).
    apply bind_ok in H as (n & w3 & _ & H).
    apply bind_ok in H as (t' & w4 & _ & H).
    injection H as <- _. split; [eexists |]; reflexivity.
  - injection H as <- _. split; [eexists |]; reflexivity.
Qed.

(** The guarded part: its result carries the thread's tag; it asks for the
    metadata once and for a download at most once, and it reports
    success only after the download call. *)
Lemma guarded_download_account link thread_id audio_only content_type opts w r w' :
  guarded_download E link thread_id audio_only content_type opts w = (Ok r, w') ->
  tagged thread_id (message r) /\
  exists later,
    engine_log w' = (engine_log w ++ ExtractInfo opts link :: later)%list /\
    (later = [] \/ later = [Download opts [link]]) /\
    (success r = true -> later = [Download opts [link]]).
Proof.
  unfold guarded_download, try_except, download_attempt, bind at 1. intros H.
  pose proof (extract_info_world E opts link w) as Hw.
  destruct (extract_info E opts link w) as [[info | e] w1]; simpl in Hw; subst w1.
  2:{ injection H as <- <-. split; [eexists; reflexivity |].
      exists []. split; [reflexivity |]. split; [now left | discriminate]. }
  destruct info as [info |].
  2:{ injection H as <- <-. split; [eexists; reflexivity |].
      exists []. split; [reflexivity |]. split; [now left | discriminate]. }
  unfold bind at 1 in H.
  destruct (check_entries link thread_id content_type info
              (log_call (ExtractInfo opts link) w)) as [[early | e] w2] eqn:Hearly.
  2:{ injection H as <- <-. split; [eexists; reflexivity |].
      exists []. rewrite (check_entries_log _ _ _ _ _ _ _ Hearly).
      split; [reflexivity |]. split; [now left | discriminate]. }
  pose proof (check_entries_log _ _ _ _ _ _ _ Hearly) as Hlog2. simpl in Hlog2.
  destruct early as [r0 |].
  - injection H as <- <-. split; [exact (check_entries_tagged _ _ _ _ _ _ _ Hearly) |].
    exists []. split; [exact Hlog2 |]. split; [now left |].
    intros Hs. apply check_entries_url in Hearly as [_ Hf]. congruence.
  - destruct (download_and_report E link thread_id audio_only content_type opts info w2)
      as [[r1 | e1] w3] eqn:Hdl.
    + injection H as <- <-.
      split; [exact (proj1 (download_and_report_tagged _ _ _ _ _ _ _ _ _ Hdl)) |].
      exists [Download opts [link]].
      rewrite (download_and_report_log _ _ _ _ _ _ _ _ _ Hdl), Hlog2, <- app_assoc.
      split; [reflexivity |]. split; [now right | reflexivity].
    + injection H as <- <-. split; [eexists; reflexivity |].
      exists [Download opts [link]].
      rewrite (download_and_report_log _ _ _ _ _ _ _ _ _ Hdl), Hlog2, <- app_assoc.
      split; [reflexivity |]. split; [now right | reflexivity].
Qed.

(** X8. The engine calls of one worker.  When the classification of the
    link returned and [download_single_video] returned a result, the
    worker made after the classification exactly one [extract_info] call
    for the link with the worker's options, followed by at most one
    [download] call for that link alone; a result that reports success
    always has the [download] call; the classification cache is as the
    classification left it. *)
Theorem worker_engine_calls
    (link output_path : string) (thread_id : Z) (audio_only : bool) (quality : string)
    (w : world) (content_type : pyval) (cached_info : gmap string pyval) (w1 : world)
    (r : fetch_result) (w' : world) :
  let opts := worker_ydl_opts audio_only quality content_type output_path in
  get_url_info E link (snd (mode_config thread_id audio_only quality w))
    = (Ok (content_type, cached_info), w1) ->
  download_single_video E link output_path thread_id audio_only quality w = (Ok r, w') ->
  (engine_log w' = (engine_log w1 ++ [ExtractInfo opts link])%list \/
   engine_log w' = (engine_log w1 ++ [ExtractInfo opts link; Download opts [link]])%list) /\
  (success r = true ->
   engine_log w' = (engine_log w1 ++ [ExtractInfo opts link; Download opts [link]])%list) /\
  url_info_cache w' = url_info_cache w1.
Proof.
  intros opts Hinfo Hrun.
  destruct (download_single_video_steps E link output_path _ _ _ _ _ _ _ Hinfo)
    as (w2 & Hq & Heq).
  fold opts in Heq. rewrite Heq in Hrun.
  destruct (guarded_download_account _ _ _ _ _ _ _ _ Hrun)
    as (_ & later & Hlog & Hcases & Hsucc).
  rewrite (adds_no_calls _ _ Hq) in Hlog.
  split; [| split].
  - destruct Hcases as [-> | ->]; [left | right]; exact Hlog.
  - intros Hs. rewrite (Hsucc Hs) in Hlog. exact Hlog.
  - destruct (guarded_download_calls E _ _ _ _ _ _ _ _ Hrun) as [Hc _].
    simpl in Hc. rewrite Hc. exact (proj1 Hq).
Qed.

Lemma download_single_video_tagged
    link output_path thread_id audio_only quality w (r : fetch_result) w' :
  download_single_video E link output_path thread_id audio_only quality w = (Ok r, w') ->
  tagged thread_id (message r).
Proof.
  intros Hrun.
  destruct (get_url_info E link (snd (mode_config thread_id audio_only quality w)))
    as [[[ct ci] | e] w1] eqn:Hinfo.
  - destruct (download_single_video_steps E link output_path _ _ _ _ _ _ _ Hinfo)
      as (w2 & _ & Heq).
    rewrite Heq in Hrun. exact (proj1 (guarded_download_account _ _ _ _ _ _ _ _ Hrun)).
  - rewrite (download_single_video_classify_raises E _ output_path _ _ _ _ _ _ Hinfo)
      in Hrun. discriminate.
Qed.

(** X9. Every result [download_single_video] returns names the link the
    worker was given, and its message starts with the worker's tag
    [[Thread <id>]] followed by a space. *)
Theorem worker_message_is_tagged
    (link output_path : string) (thread_id : Z) (audio_only : bool) (quality : string)
    (w : world) (r : fetch_result) (w' : world) :
  download_single_video E link output_path thread_id audio_only quality w = (Ok r, w') ->
  url r = link /\ tagged thread_id (message r).
Proof.
  intros Hrun. split.
  - exact (download_single_video_url E _ _ _ _ _ _ _ _ Hrun).
  - exact (download_single_video_tagged _ _ _ _ _ _ _ _ Hrun).
Qed.

End WorkerMore.

Lemma worker_engine_calls_witness :
  let link := "https://youtu.be/abc" in
  let w1 := snd (get_url_info plain_video link (snd (mode_config 4 true "64kbps" initial_world))) in
  let run := download_single_video plain_video link "downloads" 4 true "64kbps" initial_world in
  let opts := worker_ydl_opts true "64kbps" (PStr "video") "downloads" in
  engine_log (snd run)
  = (engine_log w1 ++ [ExtractInfo opts link; Download opts [link]])%list.
Proof.
  intros link w1 run opts.
  refine (proj1 (proj2 (worker_engine_calls plain_video link "downloads" 4 true "64kbps"
            initial_world (PStr "video") (list_to_map [("_type", PStr "video")]) w1
            (FetchResult link true "[Thread 4] Audio download completed successfully!")
            (snd run) _ _)) _).
  - vm_compute. reflexivity.
  - vm_compute. reflexivity.
  - reflexivity.
Defined.

Lemma worker_message_is_tagged_witness :
  let run := download_single_video Reference.offline "https://youtu.be/abc" "downloads" 7
               false "best" initial_world in
  exists r, fst run = Ok r /\ url r = "https://youtu.be/abc" /\ tagged 7 (message r).
Proof.
  intros run.
  exists (FetchResult "https://youtu.be/abc" false
            "[Thread 7] Error: ERROR: Unable to download webpage: https://youtu.be/abc").
  split; [vm_compute; reflexivity |].
  apply (worker_message_is_tagged Reference.offline "https://youtu.be/abc" "downloads" 7
           false "best" initial_world _ (snd run)).
  vm_compute. reflexivity.
Defined.

(** ** More on the coordinator *)

#[export] Instance log_adds_frame P : Frame (log_adds P).
Proof.
  split.
  - intros w. exists []. now rewrite app_nil_r.
  - intros w1 w2 w3 (l1 & Hl1 & HP1) (l2 & Hl2 & HP2).
    exists (l1 ++ l2)%list.
    split; [now rewrite Hl2, Hl1, app_assoc | now apply Forall_app].
Qed.

#[export] Instance keeps_bounded_frame : Frame keeps_bounded.
Proof. split; unfold keeps_bounded; auto. Qed.

Lemma adds_calls_log_adds P w w' : adds_calls P w w' -> log_adds P w w'.
Proof. now intros [_ H]. Qed.

Lemma adds_calls_keeps_bounded P w w' : adds_calls P w w' -> keeps_bounded w w'.
Proof. intros [Hc _] [Hlen Hnd]. unfold cache_bounded. now rewrite Hc. Qed.

Lemma print_log_adds P line : keeps (log_adds P) (print line).
Proof. intros w r w' H. exact (adds_calls_log_adds _ _ _ (print_adds P line _ _ _ H)). Qed.

Lemma print_keeps_bounded line : keeps keeps_bounded (print line).
Proof.
  intros w r w' H.
  exact (adds_calls_keeps_bounded _ _ _ (print_adds (fun _ => True) line _ _ _ H)).
Qed.

Lemma bind_raise_keeps {A B} R `{!Frame R} e (k : A -> M B) : keeps R (bind (raise e) k).
Proof. intros w r w' H. injection H as _ <-. apply frame_refl. Qed.

Section CoordinatorMore.

Variable E : externals.

(** The classifier asks the engine for metadata only. *)
Lemma get_url_info_log link :
  keeps (log_adds (fun c => is_download c = false)) (get_url_info E link).
Proof.
  intros w r w' H.
  destruct (cache_lookup link (url_info_cache w)) as [v0 |] eqn:Hc.
  - rewrite (get_url_info_hit _ _ _ _ Hc) in H. injection H as _ <-.
    exists []. simpl. now rewrite app_nil_r.
  - rewrite (get_url_info_miss _ _ _ Hc) in H.
    destruct (get_url_info_body E link w) as [[v1 | e] w0]; injection H as _ <-;
      (eexists; split; [reflexivity | now repeat constructor]).
Qed.

Lemma count_content_type_log ty links :
  keeps (log_adds (fun c => is_download c = false)) (count_content_type E ty links).
Proof.
  induction links as [| link links IH]; simpl; [keeps_step |].
  unfold get_content_type.
  repeat (keeps_step || apply get_url_info_log || exact IH).
Qed.

Lemma count_content_type_bounded ty links :
  keeps keeps_bounded (count_content_type E ty links).
Proof.
  induction links as [| link links IH]; simpl; [keeps_step |].
  unfold get_content_type.
  repeat (keeps_step || apply get_url_info_bounded || exact IH).
Qed.

Lemma download_single_video_bounded link output_path thread_id audio_only quality :
  keeps keeps_bounded
    (download_single_video E link output_path thread_id audio_only quality).
Proof.
  intros w r w' H Hb.
  destruct (mode_config_run thread_id audio_only quality w) as (w0 & Hmode & Hq0).
  pose proof (adds_calls_keeps_bounded _ _ _ Hq0 Hb) as Hb0.
  destruct (get_url_info E link (snd (mode_config thread_id audio_only quality w)))
    as [[[ct ci] | e] w1] eqn:Hinfo.
  - destruct (download_single_video_steps E link output_path _ _ _ _ _ _ _ Hinfo)
      as (w2 & Hq & Heq).
    rewrite Heq in H. rewrite Hmode in Hinfo. simpl in Hinfo.
    pose proof (get_url_info_bounded _ _ _ _ _ Hinfo Hb0) as Hb1.
    pose proof (adds_calls_keeps_bounded _ _ _ Hq Hb1) as Hb2.
    destruct (guarded_download_calls E _ _ _ _ _ _ _ _ H) as [Hc _].
    simpl in Hc. destruct Hb2 as [Hlen Hnd]. unfold cache_bounded. now rewrite Hc.
  - rewrite (download_single_video_classify_raises E _ output_path _ _ _ _ _ _ Hinfo) in H.
    injection H as _ <-. rewrite Hmode in Hinfo. simpl in Hinfo.
    exact (get_url_info_bounded _ _ _ _ _ Hinfo Hb0).
Qed.

Lemma drain_bounded output_path audio_only quality tasks :
  keeps keeps_bounded (drain E output_path audio_only quality tasks).
Proof.
  induction tasks as [| [thread_id link] tasks IH]; simpl; [keeps_step |].
  repeat (keeps_step || apply download_single_video_bounded || exact IH).
Qed.

Lemma collect_results_bounded output_path audio_only quality tasks : forall results,
  keeps keeps_bounded (collect_results E output_path audio_only quality tasks results).
Proof.
  induction tasks as [| [thread_id link] tasks IH]; intros results; simpl; [keeps_step |].
  repeat (keeps_step || apply download_single_video_bounded || apply print_keeps_bounded
          || apply drain_bounded || apply IH).
Qed.

Lemma print_failed_bounded failed : keeps keeps_bounded (print_failed failed).
Proof.
  induction failed as [| r failed IH]; simpl; [keeps_step |].
  repeat (keeps_step || apply print_keeps_bounded || exact IH).
Qed.

(** X10. A whole batch keeps the classification cache within its bound:
    if the cache holds at most 128 entries with distinct keys before
    [download_youtube_content], it does so afterwards, whether the batch
    returns a report or raises. *)
Theorem batch_keeps_cache_bounded
    (urls : list string) (output_path : option string) (max_workers : Z)
    (audio_only : bool) (quality : string) (w : world)
    (r : result batch_report) (w' : world) :
  (length (url_info_cache w) <= 128)%nat ->
  NoDup (map fst (url_info_cache w)) ->
  download_youtube_content E urls output_path max_workers audio_only quality w = (r, w') ->
  (length (url_info_cache w') <= 128)%nat /\ NoDup (map fst (url_info_cache w')).
Proof.
  intros Hlen Hnd H.
  assert (Hk : keeps keeps_bounded
            (download_youtube_content E urls output_path max_workers audio_only quality)).
  { unfold download_youtube_content.
    repeat (keeps_step || (progress (cbv zeta)) || apply print_keeps_bounded
            || apply count_content_type_bounded || apply collect_results_bounded
            || apply print_failed_bounded). }
  exact (Hk _ _ _ H (conj Hlen Hnd)).
Qed.

(** X11. If the output directory cannot be created,
    [download_youtube_content] raises the error of [os.makedirs] at once:
    nothing is printed, no link is classified, the engine is never
    called. *)
Theorem makedirs_failure_stops_batch
    (urls : list string) (output_path : option string) (max_workers : Z)
    (audio_only : bool) (quality : string) (w : world) (e : exn) :
  os_makedirs E (match output_path with
                 | None => os_path_join (os_getcwd E) ["downloads"]
                 | Some p => p
                 end) = Some e ->
  download_youtube_content E urls output_path max_workers audio_only quality w
  = (Raise e, w).
Proof.
  intros Hmk. unfold download_youtube_content, bind at 1. now rewrite Hmk.
Qed.

(** X12. With a worker count of zero or less [download_youtube_content]
    raises (the thread pool refuses the count), and until then the engine
    has been asked for information only: no download was started. *)
Theorem nonpositive_workers_rejected
    (urls : list string) (output_path : option string) (max_workers : Z)
    (audio_only : bool) (quality : string) (w : world) :
  (max_workers <= 0)%Z ->
  exists e w' calls,
    download_youtube_content E urls output_path max_workers audio_only quality w
      = (Raise e, w') /\
    engine_log w' = (engine_log w ++ calls)%list /\
    Forall (fun c => is_download c = false) calls.
Proof.
  intros Hmw. apply Z.leb_le in Hmw.
  assert (Hk : keeps (log_adds (fun c => is_download c = false))
            (download_youtube_content E urls output_path max_workers audio_only quality)).
  { unfold download_youtube_content. rewrite Hmw.
    repeat (first [ apply bind_raise_keeps; apply _
                  | keeps_step
                  | progress (cbv zeta)
                  | apply print_log_adds
                  | apply count_content_type_log ]). }
  destruct (download_youtube_content E urls output_path max_workers audio_only quality w)
    as [[report | e] w'] eqn:Hrun.
  - exfalso. unfold download_youtube_content in Hrun. rewrite Hmw in Hrun.
    repeat (apply bind_ok in Hrun as (? & ? & ? & Hrun)).
    match goal with Hr : raise _ _ = _ |- _ => unfold raise in Hr; discriminate Hr end.
  - destruct (Hk _ _ _ Hrun) as (calls & Hlog & Hcalls). eauto 6.
Qed.

End CoordinatorMore.

Lemma batch_keeps_cache_bounded_witness :
  let run := download_youtube_content plain_video
               ["https://youtu.be/a"; "https://youtu.be/b"; "https://youtu.be/a"]
               None 3 false "best" initial_world in
  (length (url_info_cache (snd run)) <= 128)%nat /\
  NoDup (map fst (url_info_cache (snd run))).
Proof.
  intros run.
  apply (batch_keeps_cache_bounded plain_video
           ["https://youtu.be/a"; "https://youtu.be/b"; "https://youtu.be/a"]
           None 3 false "best" initial_world (fst run) (snd run)).
  - vm_compute. lia.
  - constructor.
  - vm_compute. reflexivity.
Defined.

Lemma makedirs_failure_stops_batch_witness :
  download_youtube_content read_only_host ["https://youtu.be/a"] None 1 false "best"
    initial_world
  = (Raise (Exn "PermissionError" "[Errno 13] Permission denied: '/downloads'"),
     initial_world).
Proof.
  apply (makedirs_failure_stops_batch read_only_host ["https://youtu.be/a"] None 1 false
           "best" initial_world).
  vm_compute. reflexivity.
Defined.

Lemma nonpositive_workers_rejected_witness :
  exists e w' calls,
    download_youtube_content plain_video ["https://youtu.be/a"] None 0 false "best"
      initial_world = (Raise e, w') /\
    engine_log w' = (engine_log initial_world ++ calls)%list /\
    Forall (fun c => is_download c = false) calls.
Proof.
  apply (nonpositive_workers_rejected plain_video ["https://youtu.be/a"] None 0 false
           "best" initial_world).
  vm_compute. discriminate.
Defined.

(** ** Results and their links *)

Lemma enumerate_from_index links : forall k thread_id link,
  In (thread_id, link) (enumerate_from k links) ->
  exists i, links !! i = Some link /\ thread_id = (k + Z.of_nat i + 1)%Z.
Proof.
  induction links as [| l links IH]; intros k thread_id link Hin; simpl in Hin;
    [contradiction |].
  destruct Hin as [Heq | Hin].
  - injection Heq as <- <-. exists O. split; [reflexivity | lia].
  - destruct (IH _ _ _ Hin) as (i & Hi & ->). exists (S i). split; [exact Hi | lia].
Qed.

Section Attribution.

Variable E : externals.

Lemma collect_results_tasks output_path audio_only quality tasks :
  forall results w collected w',
    collect_results E output_path audio_only quality tasks results w = (Ok collected, w') ->
    exists new,
      collected = (results ++ new)%list /\
      Forall (fun r => exists thread_id,
                In (thread_id, url r) tasks /\ tagged thread_id (message r)) new.
Proof.
  induction tasks as [| [thread_id link] tasks IH]; intros results w collected w' H;
    simpl in H.
  - injection H as <- _. exists []. split; [now rewrite app_nil_r | constructor].
  - apply bind_ok in H as (r & w1 & Hr & H).
    unfold future in Hr.
    destruct (download_single_video E link output_path thread_id audio_only quality w)
      as [r0 w0] eqn:Hrun.
    injection Hr as <- <-.
    destruct r0 as [result | e].
    + apply bind_ok in H as (u & w2 & _ & H).
      destruct (IH _ _ _ _ H) as (new & -> & Hnew).
      exists (result :: new). split; [now rewrite <- app_assoc |].
      pose proof (download_single_video_url E _ _ _ _ _ _ _ _ Hrun) as Hurl.
      pose proof (download_single_video_tagged E _ _ _ _ _ _ _ _ Hrun) as Htag.
      constructor.
      * exists thread_id. rewrite Hurl. split; [now left | exact Htag].
      * eapply List.Forall_impl; [| exact Hnew].
        intros r (t & Hin & Ht). exists t. split; [now right | exact Ht].
    + unfold bind in H.
      destruct (drain E output_path audio_only quality tasks w0) as [[u | e'] w2];
        discriminate.
Qed.

(** X13. Every result in the report of [download_youtube_content],
    successful or failed, belongs to a position of the input list: its
    link is the link at some index [i], and its message carries the tag of
    thread [i + 1]. *)
Theorem results_name_link_and_thread
    (urls : list string) (output_path : option string) (max_workers : Z)
    (audio_only : bool) (quality : string) (w : world)
    (report : batch_report) (w' : world) (r : fetch_result) :
  download_youtube_content E urls output_path max_workers audio_only quality w
    = (Ok report, w') ->
  In r (successful report ++ failed report) ->
  exists i,
    urls !! i = Some (url r) /\
    tagged (Z.of_nat i + 1) (message r).
Proof.
  unfold download_youtube_content. intros H Hin.
  repeat (apply bind_ok in H as (? & ? & ? & H)).
  injection H as <- _.
  match goal with
  | Hc : collect_results _ _ _ _ _ _ _ = (Ok ?rs, _) |- _ =>
      destruct (collect_results_tasks _ _ _ _ _ _ _ _ Hc) as (new & Hnew & Hall)
  end.
  simpl in Hnew. subst.
  assert (Hr : In r new).
  { apply in_app_or in Hin as [Hin | Hin];
      [apply build_report_successful in Hin | apply build_report_failed in Hin];
      tauto. }
  destruct (proj1 (List.Forall_forall _ _) Hall _ Hr) as (thread_id & Htask & Htag).
  apply (Permutation_in _ (as_completed_permutation E (enumerate_from 0 urls))) in Htask.
  destruct (enumerate_from_index _ _ _ _ Htask) as (i & Hi & ->).
  exists i. split; [exact Hi |]. now replace (Z.of_nat i + 1)%Z with (0 + Z.of_nat i + 1)%Z by lia.
Qed.

End Attribution.

Lemma results_name_link_and_thread_witness :
  let urls := ["https://youtu.be/one"; "https://youtu.be/two"; "https://youtu.be/three"] in
  let r := FetchResult "https://youtu.be/two" false
             "[Thread 2] Error: ERROR: Video unavailable" in
  exists i, urls !! i = Some (url r) /\ tagged (Z.of_nat i + 1) (message r).
Proof.
  intros urls r.
  set (run := download_youtube_content second_fails urls (Some "downloads") 3 false
                "best" initial_world).
  assert (Hrun : exists report, run = (Ok report, snd run) /\
                                In r (successful report ++ failed report)).
  { vm_compute. eexists. split; [reflexivity |]. do 2 right. left. reflexivity. }
  destruct Hrun as (report & Hrun & Hin).
  exact (results_name_link_and_thread second_fails urls (Some "downloads") 3 false "best"
           initial_world report (snd run) r Hrun Hin).
Defined.

(** ** The printed summary *)

Lemma print_console line w :
  print line w = (Ok tt, World (url_info_cache w) (engine_log w) (console w ++ [line])).
Proof. reflexivity. Qed.

Lemma print_failed_console failed : forall w,
  exists w',
    print_failed failed w = (Ok tt, w') /\
    console w'
    = (console w ++
       flat_map (fun r => [("   • " ++ url r)%string; ("     Reason: " ++ message r)%string])
                failed)%list.
Proof.
  induction failed as [| r failed IH]; intros w; simpl.
  - eexists. split; [reflexivity |]. now rewrite app_nil_r.
  - unfold bind at 1. rewrite print_console. unfold bind at 1. rewrite print_console.
    match goal with |- context [print_failed failed ?w0] =>
      destruct (IH w0) as (w' & Hrun & Hc) end.
    exists w'. split; [exact Hrun |]. rewrite Hc. simpl. now rewrite <- !app_assoc.
Qed.

Lemma failure_lines_in_a_row (failed : list fetch_result) r before after :
  In r failed ->
  printed_in_a_row ("   • " ++ url r) ("     Reason: " ++ message r)
    (before ++
     flat_map (fun r => [("   • " ++ url r)%string; ("     Reason: " ++ message r)%string])
              failed ++ after)%list.
Proof.
  intros Hin. apply in_split in Hin as (l1 & l2 & ->).
  rewrite flat_map_app. simpl.
  eexists (before ++ flat_map _ l1)%list, (flat_map _ l2 ++ after)%list.
  now rewrite <- !app_assoc.
Qed.

Lemma failed_block_console (failed : list fetch_result) header w u w' :
  (match failed with
   | [] => ret tt
   | _ => print header ;; print_failed failed
   end) w = (Ok u, w') ->
  exists head,
    console w'
    = (console w ++ head ++
       flat_map (fun r => [("   • " ++ url r)%string; ("     Reason: " ++ message r)%string])
                failed)%list.
Proof.
  destruct failed as [| r failed].
  - intros H. injection H as _ <-. exists []. simpl. now rewrite app_nil_r.
  - unfold bind at 1. rewrite print_console. intros H.
    match type of H with print_failed ?l ?w0 = _ =>
      destruct (print_failed_console l w0) as (w1 & Hrun & Hc) end.
    rewrite Hrun in H. injection H as _ <-. exists [header].
    rewrite Hc. simpl console. now rewrite <- app_assoc.
Qed.

Lemma saved_block_console (successful : list fetch_result) line w u w' :
  (match successful with
   | [] => ret tt
   | _ => print line
   end) w = (Ok u, w') ->
  exists tail, console w' = (console w ++ tail)%list.
Proof.
  destruct successful; intros H; injection H as _ <-.
  - exists []. now rewrite app_nil_r.
  - now exists [line].
Qed.

Section Summary.

Variable E : externals.

(** X14. The summary a batch prints.  When [download_youtube_content]
    returns a report, the console holds the lines
    [Successful downloads: n] and [Failed downloads: m] with the sizes of
    the two lists of the report, and for every failed result the line
    with its link directly followed by the line with its reason. *)
Theorem summary_lists_every_failure
    (urls : list string) (output_path : option string) (max_workers : Z)
    (audio_only : bool) (quality : string) (w : world)
    (report : batch_report) (w' : world) :
  download_youtube_content E urls output_path max_workers audio_only quality w
    = (Ok report, w') ->
  In ("Successful downloads: " ++ pretty (length (successful report))) (console w') /\
  In ("Failed downloads: " ++ pretty (length (failed report))) (console w') /\
  forall r, In r (failed report) ->
    printed_in_a_row ("   • " ++ url r) ("     Reason: " ++ message r) (console w').
Proof.
  unfold download_youtube_content. intros H.
  repeat (apply bind_ok in H as (? & ? & ? & H)).
  injection H as <- <-.
  match goal with
  | Hsucc : print (String.append "Successful downloads: " _) ?wa = (_, ?wb),
    Hfail : print (String.append "Failed downloads: " _) ?wb = (_, ?wc),
    Hf : _ ?wc = (Ok _, ?wd),
    Hs : _ ?wd = (Ok _, ?we) |- context [console ?we] =>
      rewrite print_console in Hsucc; injection Hsucc as _ <-;
      rewrite print_console in Hfail; injection Hfail as _ <-;
      apply failed_block_console in Hf as (head & Hf);
      apply saved_block_console in Hs as (tail & Hs);
      rewrite Hs, Hf; cbn [console]
  end.
  split; [| split].
  - rewrite !in_app_iff. cbn [In]. left; left; left; right; left; reflexivity.
  - rewrite !in_app_iff. cbn [In]. left; left; right; left; reflexivity.
  - intros r Hr. rewrite !app_assoc. rewrite <- app_assoc.
    now apply failure_lines_in_a_row.
Qed.

End Summary.

Lemma summary_lists_every_failure_witness :
  let run := download_youtube_content second_fails
               ["https://youtu.be/one"; "https://youtu.be/two"; "https://youtu.be/three"]
               (Some "downloads") 3 false "best" initial_world in
  In "Successful downloads: 2" (console (snd run)) /\
  In "Failed downloads: 1" (console (snd run)) /\
  printed_in_a_row "   • https://youtu.be/two"
    "     Reason: [Thread 2] Error: ERROR: Video unavailable" (console (snd run)).
Proof.
  intros run.
  assert (Hrun : exists report, run = (Ok report, snd run) /\
            length (successful report) = 2%nat /\
            failed report
            = [FetchResult "https://youtu.be/two" false
                 "[Thread 2] Error: ERROR: Video unavailable"]).
  { vm_compute. eexists. repeat split. }
  destruct Hrun as (report & Hrun & Hlen & Hfailed).
  destruct (summary_lists_every_failure second_fails
              ["https://youtu.be/one"; "https://youtu.be/two"; "https://youtu.be/three"]
              (Some "downloads") 3 false "best" initial_world report (snd run) Hrun)
    as (Hs & Hf & Hall).
  assert (Hp2 : pretty 2%nat = "2") by (vm_compute; reflexivity).
  assert (Hp1 : pretty 1%nat = "1") by (vm_compute; reflexivity).
  rewrite Hlen, Hp2 in Hs. rewrite Hfailed in Hf. cbn [length] in Hf. rewrite Hp1 in Hf.
  split; [exact Hs |]. split; [exact Hf |].
  apply (Hall (FetchResult "https://youtu.be/two" false
                 "[Thread 2] Error: ERROR: Video unavailable")).
  rewrite Hfailed. now left.
Defined.

(** ** The window *)

Lemma on_format_change_consistent g checkbox :
  checkbox <> OtherWidget -> format_consistent (on_format_change g checkbox true).
Proof.
  intros Hw. destruct checkbox; simpl; [| | congruence].
  - left. repeat split. now left.
  - right. repeat split. do 2 right. now left.
Qed.

Lemma self_method_missing inherited name :
  ~ In name class_methods -> ~ In name inherited ->
  self_method inherited name
  = inl (Exn "AttributeError"
           ("'YouTubeDownloaderGUI' object has no attribute '" ++ name ++ "'")).
Proof.
  intros Hc Hi. unfold self_method.
  destruct (existsb (String.eqb name) (class_methods ++ inherited)) eqn:Hex;
    [| reflexivity].
  apply existsb_exists in Hex as (x & Hin & Heq).
  apply String.eqb_eq in Heq. subst x.
  apply in_app_or in Hin as [Hin | Hin]; contradiction.
Qed.

Lemma gui_init_consistent E inherited g :
  gui_init E inherited = inr g -> format_consistent g.
Proof.
  unfold gui_init, and_then.
  repeat match goal with
         | |- context [self_method ?i ?n] => destruct (self_method i n); [discriminate |]
         end.
  intros H. injection H as <-. left. repeat split. now left.
Qed.

Lemma lookup_In {A} (l : list A) i x : l !! i = Some x -> In x l.
Proof. intros H. apply list_elem_of_In. eapply list_elem_of_lookup_2. exact H. Qed.

Lemma apply_action_consistent g a :
  format_consistent g -> format_consistent (apply_action g a).
Proof.
  intros Hc. destruct a as [text | text | checkbox value | index]; simpl.
  - exact Hc.
  - exact Hc.
  - destruct value; [| exact Hc]. destruct checkbox; simpl; [| | exact Hc].
    + left. repeat split. now left.
    + right. repeat split. do 2 right. now left.
  - destruct (quality_values g !! index) as [text |] eqn:Hi; [| exact Hc].
    apply lookup_In in Hi.
    destruct Hc as [(Hf & Hv & _) | (Hf & Hv & _)]; rewrite Hv in Hi;
      [left | right]; (split; [exact Hf | split; [exact Hv | exact Hi]]).
Qed.

Lemma actions_consistent actions : forall g,
  format_consistent g -> format_consistent (fold_left apply_action actions g).
Proof.
  induction actions as [| a actions IH]; intros g Hc; simpl; [exact Hc |].
  apply IH. now apply apply_action_consistent.
Qed.

Lemma start_download_arguments E g urls output_path audio_only max_workers quality :
  thread_started (start_download E g)
    = Some (urls, output_path, audio_only, max_workers, quality) ->
  urls = parse_multiple_urls (Py.strip (url_text g)) /\
  urls <> [] /\
  audio_only = String.eqb (format_var g) "audio" /\
  quality = quality_text g /\
  max_workers = (let m := Z.min (Z.of_nat (length urls)) 5 in
                 if (m =? 0)%Z then 1 else m)%Z.
Proof.
  unfold start_download, parse_multiple_urls.
  destruct (negb (Py.truthy_str (Py.strip (Py.strip (url_text g))))); [discriminate |].
  destruct (valid_urls (parse_multiple_urls_run (Py.strip (url_text g))))
    as [| u us] eqn:Hurls; [discriminate |].
  simpl. intros H. injection H as <- <- <- <- <-. repeat split. discriminate.
Qed.

(** X15. Once a format box has been activated, whatever the user does
    with the controls afterwards (typing in the two inputs, toggling the
    format boxes, picking an entry of the spinner), the quality
    [start_download] hands to the download thread is a key of the quality
    table of the format it hands over. *)
Theorem gui_quality_is_always_listed
    (E : externals) (g0 : gui) (checkbox : widget) (actions : list user_action)
    (urls : list string) (output_path : string) (audio_only : bool)
    (max_workers : Z) (quality : string) :
  checkbox <> OtherWidget ->
  thread_started
    (start_download E
       (fold_left apply_action actions (on_format_change g0 checkbox true)))
    = Some (urls, output_path, audio_only, max_workers, quality) ->
  is_Some ((if audio_only then audio_quality_map else video_quality_map) !! quality).
Proof.
  intros Hw H.
  pose proof (actions_consistent actions _ (on_format_change_consistent g0 _ Hw)) as Hc.
  apply start_download_arguments in H as (_ & _ & -> & -> & _).
  destruct Hc as [(Hf & _ & Hin) | (Hf & _ & Hin)]; rewrite Hf; simpl.
  - unfold video_qualities in Hin. simpl in Hin.
    repeat (destruct Hin as [<- | Hin]; [eexists; reflexivity |]). contradiction.
  - unfold audio_qualities in Hin. simpl in Hin.
    repeat (destruct Hin as [<- | Hin]; [eexists; reflexivity |]). contradiction.
Qed.

Lemma gui_quality_is_always_listed_witness :
  is_Some (audio_quality_map !! "64kbps").
Proof.
  apply (gui_quality_is_always_listed Reference.offline
           (Gui EmptyString "/home/user/downloads" "video" video_qualities "720p"
                false 0 EmptyString (O, O) [])
           AudioCheckBox
           [TypeUrls "https://youtu.be/abc"; Toggle VideoCheckBox false; PickQuality 4]
           ["https://youtu.be/abc"] "/home/user/downloads" true 1 "64kbps").
  - discriminate.
  - vm_compute. reflexivity.
Defined.

(** X21. The window cannot be built: [__init__] binds the browse button
    to [self.browse_directory], a method the class does not define, so
    unless a base class provides that name the constructor raises
    [AttributeError] before the format controls exist. *)
Theorem window_is_never_built (E : externals) (inherited : list string) :
  ~ In "browse_directory" inherited ->
  gui_init E inherited
  = inl (Exn "AttributeError"
           "'YouTubeDownloaderGUI' object has no attribute 'browse_directory'").
Proof.
  intros Hi. unfold gui_init.
  rewrite (self_method_missing inherited "browse_directory"); [reflexivity | | exact Hi].
  unfold class_methods. simpl. intros H.
  repeat (destruct H as [H | H]; [discriminate H |]). exact H.
Qed.

Lemma window_is_never_built_witness :
  gui_init Reference.offline ["add_widget"; "bind"]
  = inl (Exn "AttributeError"
           "'YouTubeDownloaderGUI' object has no attribute 'browse_directory'").
Proof.
  apply (window_is_never_built Reference.offline ["add_widget"; "bind"]).
  simpl. intros H. repeat (destruct H as [H | H]; [discriminate H |]). exact H.
Defined.

(** X16. When [start_download] launches the thread, the list of links
    is non-empty, the worker count is [min(len(urls), 5)], hence between 1
    and 5 and never above the number of links (the [max_workers == 0]
    branch is dead), and the output folder is a non-empty path. *)
Theorem gui_worker_count_is_bounded
    (E : externals) (g : gui)
    (urls : list string) (output_path : string) (audio_only : bool)
    (max_workers : Z) (quality : string) :
  thread_started (start_download E g)
    = Some (urls, output_path, audio_only, max_workers, quality) ->
  urls <> [] /\
  max_workers = Z.min (Z.of_nat (length urls)) 5 /\
  (1 <= max_workers <= 5)%Z /\
  (max_workers <= Z.of_nat (length urls))%Z /\
  output_path <> EmptyString.
Proof.
  intros H. pose proof H as H'.
  apply start_download_arguments in H as (_ & Hne & _ & _ & Hmw).
  assert (Hlen : (1 <= Z.of_nat (length urls))%Z).
  { destruct urls; [congruence | simpl; lia]. }
  simpl in Hmw.
  destruct (Z.eqb_spec (Z.min (Z.of_nat (length urls)) 5) 0) as [H0 | H0]; [lia |].
  subst max_workers. repeat split; try assumption; try lia.
  (* the output path *)
  unfold start_download in H'.
  destruct (negb (Py.truthy_str (Py.strip (Py.strip (url_text g))))); [discriminate |].
  destruct (valid_urls (parse_multiple_urls_run (Py.strip (url_text g))));
    [discriminate |].
  simpl in H'. injection H' as _ Hpath _ _ _.
  destruct (Py.strip (output_entry g)) as [| c0 s0] eqn:Hs; simpl in Hpath; subst output_path.
  - unfold os_path_join. simpl. unfold path_join2. simpl.
    destruct (negb (Py.truthy_str (os_getcwd E)) || ends_with_slash (os_getcwd E));
      destruct (os_getcwd E); discriminate.
  - discriminate.
Qed.

Lemma gui_worker_count_is_bounded_witness :
  let urls := ["https://youtu.be/1"; "https://youtu.be/2"; "https://youtu.be/3";
               "https://youtu.be/4"; "https://youtu.be/5"; "https://youtu.be/6"] in
  urls <> [] /\
  5%Z = Z.min (Z.of_nat (length urls)) 5 /\
  (1 <= 5 <= 5)%Z /\
  (5 <= Z.of_nat (length urls))%Z /\
  "out" <> EmptyString.
Proof.
  intros urls.
  apply (gui_worker_count_is_bounded Reference.offline
           (apply_action
              (apply_action
                 (Gui EmptyString "/home/user/downloads" "video" video_qualities "1080p"
                      false 0 EmptyString (O, O) [])
                 (TypeUrls "https://youtu.be/1 https://youtu.be/2 https://youtu.be/3 https://youtu.be/4 https://youtu.be/5 https://youtu.be/6"))
              (TypeOutput " out "))
           urls "out" false 5 "1080p").
  vm_compute. reflexivity.
Defined.

(** *** Stripping twice *)

Lemma rstrip_idempotent s : Py.rstrip (Py.rstrip s) = Py.rstrip s.
Proof.
  induction s as [| c s IH]; [reflexivity |]. simpl.
  destruct (Py.rstrip s) as [| d r] eqn:Hr.
  - destruct (Py.isspace c) eqn:Hc; [reflexivity |]. simpl. now rewrite Hc.
  - simpl in IH |- *. now rewrite IH.
Qed.

Lemma lstrip_keeps_rstripped s : Py.rstrip s = s -> Py.rstrip (Py.lstrip s) = Py.lstrip s.
Proof.
  induction s as [| c s IH]; [reflexivity |]. simpl.
  destruct (Py.isspace c) eqn:Hc.
  - destruct (Py.rstrip s) as [| d r] eqn:Hr; [discriminate |].
    intros H. injection H as H. apply IH. exact H.
  - intros H. simpl. now rewrite Hc.
Qed.

Lemma lstrip_idempotent s : Py.lstrip (Py.lstrip s) = Py.lstrip s.
Proof.
  induction s as [| c s IH]; [reflexivity |]. simpl.
  destruct (Py.isspace c) eqn:Hc; [exact IH |]. simpl. now rewrite Hc.
Qed.

Lemma strip_idempotent s : Py.strip (Py.strip s) = Py.strip s.
Proof.
  unfold Py.strip. rewrite (lstrip_keeps_rstripped _ (rstrip_idempotent s)).
  apply lstrip_idempotent.
Qed.

Lemma parse_run_of_stripped s :
  parse_multiple_urls_run (Py.strip s) = parse_multiple_urls_run s.
Proof. unfold parse_multiple_urls_run. now rewrite strip_idempotent. Qed.

Lemma parse_run_of_blank s :
  Py.strip s = EmptyString -> valid_urls (parse_multiple_urls_run s) = [].
Proof. unfold parse_multiple_urls_run. now intros ->. Qed.

(** X17. [start_download] launches the thread exactly when the text
    field holds a valid link.  With none it starts no thread, schedules
    nothing and only opens an error pop-up; with some it starts the thread
    on the parsed links with the chosen format and quality, disables the
    start button, resets the progress bar to 0 and opens no pop-up. *)
Theorem start_needs_a_valid_link (E : externals) (g : gui) :
  (parse_multiple_urls (url_text g) = [] ->
   thread_started (start_download E g) = None /\
   scheduled (start_download E g) = [] /\
   exists message, gui_after (start_download E g) = show_error g message) /\
  (parse_multiple_urls (url_text g) <> [] ->
   exists output_path max_workers,
     thread_started (start_download E g)
       = Some (parse_multiple_urls (url_text g), output_path,
               String.eqb (format_var g) "audio", max_workers, quality_text g) /\
     start_disabled (gui_after (start_download E g)) = true /\
     progress_value (gui_after (start_download E g)) = 0%Z /\
     popups (gui_after (start_download E g)) = popups g).
Proof.
  unfold start_download, parse_multiple_urls.
  rewrite strip_idempotent, parse_run_of_stripped.
  destruct (Py.strip (url_text g)) as [| c s] eqn:Hs.
  - simpl. rewrite (parse_run_of_blank _ Hs). split; [| congruence].
    intros _. repeat split. eexists. reflexivity.
  - simpl negb. cbv iota.
    destruct (valid_urls (parse_multiple_urls_run (url_text g))) as [| u us].
    + split; [| congruence]. intros _. repeat split. eexists. reflexivity.
    + split; [discriminate |]. intros _. eexists _, _. repeat split.
Qed.

Lemma start_needs_a_valid_link_witness :
  let g := apply_action (Gui EmptyString "/home/user/downloads" "video" video_qualities "1080p" false 0 EmptyString (O, O) []) (TypeUrls "hello, world") in
  thread_started (start_download Reference.offline g) = None /\
  scheduled (start_download Reference.offline g) = [] /\
  exists message, gui_after (start_download Reference.offline g) = show_error g message.
Proof.
  intros g. apply (proj1 (start_needs_a_valid_link Reference.offline g)).
  vm_compute. reflexivity.
Defined.

(** *** The console under the coordinator *)

#[export] Instance console_grows_frame : Frame console_grows.
Proof.
  split.
  - intros w. exists []. now rewrite app_nil_r.
  - intros w1 w2 w3 [l1 H1] [l2 H2]. exists (l1 ++ l2)%list.
    now rewrite H2, H1, app_assoc.
Qed.

Lemma print_console_grows line : keeps console_grows (print line).
Proof. intros w r w' H. injection H as _ <-. now exists [line]. Qed.

Section Console.

Variable E : externals.

Lemma extract_info_console opts link : keeps console_grows (extract_info E opts link).
Proof.
  intros w r w' H. apply (f_equal snd) in H. rewrite extract_info_world in H.
  simpl in H. subst w'. exists []. simpl. now rewrite app_nil_r.
Qed.

Lemma download_console opts links : keeps console_grows (download E opts links).
Proof.
  intros w r w' H. apply (f_equal snd) in H. rewrite download_world in H.
  simpl in H. subst w'. exists []. simpl. now rewrite app_nil_r.
Qed.

Lemma get_url_info_console link : keeps console_grows (get_url_info E link).
Proof.
  intros w r w' H. exists [].
  destruct (cache_lookup link (url_info_cache w)) as [v0 |] eqn:Hc.
  - rewrite (get_url_info_hit _ _ _ _ Hc) in H. injection H as _ <-.
    simpl. now rewrite app_nil_r.
  - rewrite (get_url_info_miss _ _ _ Hc) in H.
    destruct (get_url_info_body E link w) as [[v1 | e] w0]; injection H as _ <-;
      simpl; now rewrite app_nil_r.
Qed.

Ltac console_step :=
  first [ keeps_step
        | progress (cbv zeta)
        | apply print_console_grows
        | apply extract_info_console
        | apply download_console
        | apply get_url_info_console ].

Lemma download_single_video_console link output_path thread_id audio_only quality :
  keeps console_grows
    (download_single_video E link output_path thread_id audio_only quality).
Proof.
  unfold download_single_video, mode_config, set_outtmpl, guarded_download,
    download_attempt, check_entries, download_and_report.
  repeat console_step.
Qed.

Lemma count_content_type_console ty links :
  keeps console_grows (count_content_type E ty links).
Proof.
  induction links as [| link links IH]; simpl; [keeps_step |].
  unfold get_content_type. repeat (console_step || exact IH).
Qed.

Lemma drain_console output_path audio_only quality tasks :
  keeps console_grows (drain E output_path audio_only quality tasks).
Proof.
  induction tasks as [| [thread_id link] tasks IH]; simpl; [keeps_step |].
  repeat (keeps_step || apply download_single_video_console || exact IH).
Qed.

Lemma collect_results_console output_path audio_only quality tasks : forall results,
  keeps console_grows (collect_results E output_path audio_only quality tasks results).
Proof.
  induction tasks as [| [thread_id link] tasks IH]; intros results; simpl; [keeps_step |].
  repeat (keeps_step || apply download_single_video_console || apply print_console_grows
          || apply drain_console || apply IH).
Qed.

Lemma print_failed_console_grows failed : keeps console_grows (print_failed failed).
Proof.
  induction failed as [| r failed IH]; simpl; [keeps_step |].
  repeat (keeps_step || apply print_console_grows || exact IH).
Qed.

Lemma download_youtube_content_console urls output_path max_workers audio_only quality :
  keeps console_grows
    (download_youtube_content E urls output_path max_workers audio_only quality).
Proof.
  unfold download_youtube_content.
  repeat (keeps_step || (progress (cbv zeta)) || apply print_console_grows
          || apply count_content_type_console || apply collect_results_console
          || apply print_failed_console_grows).
Qed.

End Console.

(** ** Classification queries of a batch *)

Lemma keeps_ok_bind {A B} R `{!Frame R} (m : M A) (k : A -> M B) :
  keeps_ok R m -> (forall a, keeps_ok R (k a)) -> keeps_ok R (bind m k).
Proof.
  intros Hm Hk w b w' H. apply bind_ok in H as (a & w1 & H1 & H2).
  eapply frame_trans; [exact (Hm _ _ _ H1) | exact (Hk _ _ _ _ H2)].
Qed.

Lemma keeps_keeps_ok {A} R (m : M A) : keeps R m -> keeps_ok R m.
Proof. intros H w a w' Hrun. exact (H _ _ _ Hrun). Qed.

Lemma shallow_queries_add w w' :
  url_info_cache w' = url_info_cache w ->
  (exists calls, engine_log w' = (engine_log w ++ calls)%list /\
                 Forall (fun c => forall k, is_shallow_query k c = false) calls) ->
  forall universe, classifier_consistent universe w -> classifier_consistent universe w'.
Proof.
  intros Hc (calls & Hl & Hcalls) universe (Hnd & Hsub & Hle & Hz).
  assert (Hq : forall k, shallow_queries k w' = shallow_queries k w).
  { intros k. unfold shallow_queries. rewrite Hl, List.filter_app, length_app.
    replace (List.filter (is_shallow_query k) calls) with (@nil engine_call);
      [simpl; lia |].
    clear Hl. induction Hcalls as [| c calls Hc0 _ IH]; [reflexivity |].
    simpl. now rewrite Hc0. }
  unfold classifier_consistent. rewrite Hc. repeat split; try assumption.
  - intros k. rewrite Hq. apply Hle.
  - intros k Hk. rewrite Hq. now apply Hz.
Qed.

#[export] Instance keeps_account_frame universe : Frame (keeps_account universe).
Proof. split; unfold keeps_account; auto. Qed.

Lemma quiet_keeps_account universe w w' :
  adds_calls (fun _ => False) w w' -> keeps_account universe w w'.
Proof.
  intros (Hc & calls & Hl & Hcalls) Hinv.
  apply (shallow_queries_add w w'); [exact Hc | | exact Hinv].
  exists calls. split; [exact Hl |]. eapply List.Forall_impl; [| exact Hcalls].
  intros c [].
Qed.

Lemma print_keeps_account universe line : keeps (keeps_account universe) (print line).
Proof.
  intros w r w' H.
  exact (quiet_keeps_account _ _ _ (print_adds (fun _ => False) line _ _ _ H)).
Qed.

Lemma shallow_queries_log_call k link w :
  shallow_queries k (log_call (ExtractInfo info_ydl_opts link) w)
  = (shallow_queries k w + if String.eqb link k then 1 else 0)%nat.
Proof.
  unfold shallow_queries. simpl. rewrite List.filter_app, length_app. simpl.
  change (info_ydl_opts !! "playlist_items") with (Some (PStr "1")).
  destruct (String.eqb link k); reflexivity.
Qed.

Lemma worker_opts_not_shallow audio_only quality content_type output_path :
  worker_ydl_opts audio_only quality content_type output_path !! "playlist_items" = None.
Proof.
  unfold worker_ydl_opts, resolved_mode, base_ydl_opts.
  destruct audio_only; simpl; rewrite !lookup_insert_ne by discriminate; reflexivity.
Qed.

Section Account.

Variable E : externals.
Variable universe : list string.
Hypothesis capacity : (length (remove_dups universe) <= maxsize)%nat.

Lemma get_url_info_account link :
  link ∈ universe -> keeps_ok (keeps_account universe) (get_url_info E link).
Proof.
  intros Hu w v w' Hrun (Hnd & Hsub & Hle & Hzero).
  destruct (cache_lookup link (url_info_cache w)) as [v0 |] eqn:Hc.
  - rewrite (get_url_info_hit _ _ _ _ Hc) in Hrun. injection Hrun as _ <-.
    unfold classifier_consistent. simpl. repeat split.
    + apply NoDup_cons. split; [| now apply cache_remove_NoDup].
      rewrite cache_remove_keys. now intros [_ ?].
    + intros k Hk. apply elem_of_cons in Hk as [-> | Hk]; [exact Hu |].
      apply cache_remove_keys in Hk as [Hk _]. auto.
    + exact Hle.
    + intros k Hk. apply Hzero. intros Hin. apply Hk.
      destruct (decide (k = link)) as [-> | Hne]; [left |].
      right. apply cache_remove_keys. auto.
  - rewrite (get_url_info_miss _ _ _ Hc) in Hrun.
    destruct (get_url_info_body E link w) as [[v1 | e] w1]; [| discriminate].
    injection Hrun as _ <-.
    apply cache_lookup_None in Hc.
    assert (Hroom : (length (url_info_cache w) <? maxsize)%nat = true).
    { apply Nat.ltb_lt.
      assert (Hb : (length (link :: map fst (url_info_cache w))
                    <= length (remove_dups universe))%nat).
      { apply distinct_keys_bounded.
        - apply NoDup_cons. auto.
        - intros k Hk. apply elem_of_cons in Hk as [-> | Hk]; auto. }
      simpl in Hb. rewrite length_map in Hb. lia. }
    unfold classifier_consistent, cache_store. rewrite Hroom. simpl. repeat split.
    + apply NoDup_cons. auto.
    + intros k Hk. apply elem_of_cons in Hk as [-> | Hk]; auto.
    + intros k. change (shallow_queries k (set_cache ?c ?w0)) with (shallow_queries k w0).
      rewrite shallow_queries_log_call.
      destruct (String.eqb_spec link k) as [<- | Hne].
      * rewrite (Hzero _ Hc). lia.
      * specialize (Hle k). lia.
    + intros k Hk. change (shallow_queries k (set_cache ?c ?w0)) with (shallow_queries k w0).
      rewrite shallow_queries_log_call.
      apply not_elem_of_cons in Hk as [Hne Hk].
      destruct (String.eqb_spec link k) as [<- | _]; [congruence |].
      rewrite (Hzero _ Hk). lia.
Qed.

Lemma count_content_type_account ty links :
  (forall k, k ∈ links -> k ∈ universe) ->
  keeps_ok (keeps_account universe) (count_content_type E ty links).
Proof.
  induction links as [| link links IH]; intros Hsub; simpl.
  - apply keeps_keeps_ok. keeps_step.
  - unfold get_content_type.
    apply keeps_ok_bind; [apply _ | | intros ct].
    + apply keeps_ok_bind; [apply _ | | intros [ct ci]].
      * apply get_url_info_account. apply Hsub. left.
      * apply keeps_keeps_ok. keeps_step.
    + apply keeps_ok_bind; [apply _ | | intros n].
      * apply IH. intros k Hk. apply Hsub. now right.
      * apply keeps_keeps_ok. keeps_step.
Qed.

Lemma download_single_video_account link output_path thread_id audio_only quality :
  link ∈ universe ->
  keeps_ok (keeps_account universe)
    (download_single_video E link output_path thread_id audio_only quality).
Proof.
  intros Hu w r w' H Hinv.
  destruct (mode_config_run thread_id audio_only quality w) as (w0 & Hmode & Hq0).
  pose proof (quiet_keeps_account universe _ _ Hq0 Hinv) as Hinv0.
  destruct (get_url_info E link (snd (mode_config thread_id audio_only quality w)))
    as [[[ct ci] | e] w1] eqn:Hinfo.
  - destruct (download_single_video_steps E link output_path _ _ _ _ _ _ _ Hinfo)
      as (w2 & Hq & Heq).
    rewrite Heq in H. rewrite Hmode in Hinfo. simpl in Hinfo.
    pose proof (get_url_info_account link Hu _ _ _ Hinfo Hinv0) as Hinv1.
    pose proof (quiet_keeps_account universe _ _ Hq Hinv1) as Hinv2.
    destruct (guarded_download_calls E _ _ _ _ _ _ _ _ H) as (Hc & later & Hl & Hlater).
    apply (shallow_queries_add w2 w'); [exact Hc | | exact Hinv2].
    exists (ExtractInfo (worker_ydl_opts audio_only quality ct output_path) link :: later).
    split; [simpl in Hl; now rewrite Hl, <- app_assoc |].
    constructor.
    + intros k. simpl. rewrite worker_opts_not_shallow. apply andb_false_r.
    + eapply List.Forall_impl; [| exact Hlater]. intros c -> k. reflexivity.
  - rewrite (download_single_video_classify_raises E _ output_path _ _ _ _ _ _ Hinfo) in H.
    discriminate.
Qed.

Lemma collect_results_account output_path audio_only quality tasks :
  (forall t, t ∈ tasks -> snd t ∈ universe) ->
  forall results,
    keeps_ok (keeps_account universe)
      (collect_results E output_path audio_only quality tasks results).
Proof.
  induction tasks as [| [thread_id link] tasks IH]; intros Hsub results w collected w' H;
    simpl in H.
  - injection H as _ <-. intros Hinv. exact Hinv.
  - apply bind_ok in H as (r & w1 & Hr & H).
    unfold future in Hr.
    destruct (download_single_video E link output_path thread_id audio_only quality w)
      as [r0 w0] eqn:Hrun.
    injection Hr as <- <-.
    destruct r0 as [result | e].
    + apply bind_ok in H as (u & w2 & Hp & H).
      intros Hinv.
      pose proof (download_single_video_account link output_path thread_id audio_only
                    quality (Hsub (thread_id, link) (list_elem_of_here _ _)) _ _ _ Hrun Hinv)
        as Hinv0.
      pose proof (print_keeps_account universe _ _ _ _ Hp Hinv0) as Hinv2.
      exact (IH (fun t Ht => Hsub t (list_elem_of_further _ _ _ Ht)) _ _ _ _ H Hinv2).
    + unfold bind in H.
      destruct (drain E output_path audio_only quality tasks w0) as [[u | e'] w2];
        discriminate.
Qed.

Lemma print_failed_account failed :
  keeps (keeps_account universe) (print_failed failed).
Proof.
  induction failed as [| r failed IH]; simpl; [keeps_step |].
  repeat (keeps_step || apply print_keeps_account || exact IH).
Qed.

Lemma download_youtube_content_account urls output_path max_workers audio_only quality :
  (forall k, k ∈ urls -> k ∈ universe) ->
  keeps_ok (keeps_account universe)
    (download_youtube_content E urls output_path max_workers audio_only quality).
Proof.
  intros Hsub. unfold download_youtube_content.
  repeat (first
    [ apply keeps_ok_bind; [apply _ | | intros ?]
    | progress (cbv zeta)
    | apply count_content_type_account; exact Hsub
    | apply collect_results_account
    | apply keeps_keeps_ok; apply print_keeps_account
    | apply keeps_keeps_ok; apply print_failed_account
    | apply keeps_keeps_ok; solve [repeat (keeps_step || apply print_keeps_account
                                           || apply print_failed_account)] ]).
  intros [t link] Ht.
  apply list_elem_of_In in Ht.
  apply (Permutation_in _ (as_completed_permutation E (enumerate_from 0 urls))) in Ht.
  apply Hsub. apply list_elem_of_In.
  rewrite <- (enumerate_from_urls urls 0). apply in_map_iff. now exists (t, link).
Qed.

End Account.

Lemma initial_world_classifier_consistent universe :
  classifier_consistent universe initial_world.
Proof.
  unfold classifier_consistent, initial_world. simpl.
  repeat split; auto using NoDup_nil_2.
  intros k Hk. now apply elem_of_nil in Hk.
Qed.

(** X20. In a fresh process, a batch over at most 128 distinct links that
    returns a report has asked the engine for the classification of any
    one link at most once, however often the link occurs in the list, and
    although the summary and every worker classify it. *)
Theorem batch_classifies_each_link_once
    (E : externals) (urls : list string) (output_path : option string)
    (max_workers : Z) (audio_only : bool) (quality : string)
    (report : batch_report) (w' : world) (link : string) :
  (length (remove_dups urls) <= 128)%nat ->
  download_youtube_content E urls output_path max_workers audio_only quality initial_world
    = (Ok report, w') ->
  (shallow_queries link w' <= 1)%nat.
Proof.
  intros Hcap Hrun.
  pose proof (download_youtube_content_account E urls Hcap urls output_path max_workers
                audio_only quality (fun k H => H) _ _ _ Hrun
                (initial_world_classifier_consistent urls)) as (_ & _ & Hle & _).
  apply Hle.
Qed.

Lemma batch_classifies_each_link_once_witness :
  let run := download_youtube_content plain_video
               ["https://youtu.be/a"; "https://youtu.be/b"; "https://youtu.be/a"]
               None 3 false "best" initial_world in
  (shallow_queries "https://youtu.be/a" (snd run) <= 1)%nat.
Proof.
  intros run.
  assert (Hrun : exists report, run = (Ok report, snd run)).
  { vm_compute. eexists. reflexivity. }
  destruct Hrun as [report Hrun].
  apply (batch_classifies_each_link_once plain_video
           ["https://youtu.be/a"; "https://youtu.be/b"; "https://youtu.be/a"]
           None 3 false "best" report (snd run) "https://youtu.be/a").
  - vm_compute. lia.
  - exact Hrun.
Defined.

(** * The cache window, unresolved entries, the report and the window *)

(** ** The cache as a window of 128 links *)

Lemma cache_remove_app {V} key (a b : list (string * V)) :
  cache_remove key (a ++ b) = (cache_remove key a ++ cache_remove key b)%list.
Proof.
  induction a as [| [k v] a IH]; simpl; [reflexivity |].
  destruct (String.eqb k key); [exact IH | simpl; now rewrite IH].
Qed.

Lemma cache_remove_other {V} key k (v : V) c :
  k <> key -> cache_remove key ((k, v) :: c) = (k, v) :: cache_remove key c.
Proof. intros Hne. simpl. destruct (String.eqb_spec k key); [congruence | reflexivity]. Qed.

Lemma distinct_grows (seen : list string) k :
  (length (remove_dups seen) <= length (remove_dups (seen ++ [k])))%nat.
Proof.
  apply distinct_keys_bounded; [apply NoDup_remove_dups |].
  intros x Hx. rewrite elem_of_remove_dups in Hx. apply elem_of_app. left. exact Hx.
Qed.

(** One more returning call, on another link. *)
Lemma get_url_info_window E link v seen k vk w w' :
  k <> link ->
  cache_bounded w ->
  lru_window link v seen w ->
  get_url_info E k w = (Ok vk, w') ->
  lru_window link v (seen ++ [k]) w'.
Proof.
  intros Hk [Hlen Hnd] Hwin Hrun.
  pose proof (distinct_grows seen k) as Hgrow.
  destruct (cache_lookup k (url_info_cache w)) as [v0 |] eqn:Hc.
  - (* hit: [k] moves to the front *)
    rewrite (get_url_info_hit _ _ _ _ Hc) in Hrun. injection Hrun as _ <-.
    destruct Hwin as [(pre & post & Hcache & Hset) | [Hout Hfull]].
    + left. exists ((k, v0) :: cache_remove k pre), (cache_remove k post). split.
      * simpl. rewrite Hcache, cache_remove_app, cache_remove_other by congruence.
        reflexivity.
      * intros x. simpl. rewrite elem_of_cons, cache_remove_keys, Hset, elem_of_app,
          list_elem_of_singleton.
        split.
        -- intros [-> | [Hx _]]; auto.
        -- intros [Hx | ->]; [| now left].
           destruct (decide (x = k)) as [-> | Hne]; [now left | right; auto].
    + right. split; [| lia]. simpl. rewrite not_elem_of_cons. split; [congruence |].
      rewrite cache_remove_keys. intros [? _]. contradiction.
  - (* miss: [k] is stored at the front, the last entry leaves a full cache *)
    rewrite (get_url_info_miss _ _ _ Hc) in Hrun.
    destruct (get_url_info_body E k w) as [[v1 | e] w0]; [| discriminate].
    injection Hrun as _ <-.
    apply cache_lookup_None in Hc.
    assert (Hsub : forall x, x ∈ map fst (if (length (url_info_cache w) <? maxsize)%nat
                                           then url_info_cache w
                                           else removelast (url_info_cache w)) ->
                             x ∈ map fst (url_info_cache w)).
    { intros x. destruct (length (url_info_cache w) <? maxsize)%nat; [trivial |].
      rewrite removelast_keys. apply sublist_subseteq, removelast_sublist. }
    destruct Hwin as [(pre & post & Hcache & Hset) | [Hout Hfull]].
    + assert (Hkeys : forall x, x ∈ k :: map fst pre <-> x ∈ (seen ++ [k])%list).
      { intros x. rewrite elem_of_cons, Hset, elem_of_app, list_elem_of_singleton. tauto. }
      simpl. unfold cache_store.
      destruct (Nat.ltb_spec (length (url_info_cache w)) maxsize) as [Hroom | Hfull].
      * left. exists ((k, v1) :: pre), post. split; [simpl; now rewrite Hcache | exact Hkeys].
      * destruct post as [| p post].
        -- (* [link] was the last entry *)
           right. rewrite Hcache in *. rewrite removelast_last. split.
           ++ simpl. rewrite not_elem_of_cons. split; [congruence |].
              rewrite map_app in Hnd. apply NoDup_app in Hnd as (_ & Hdis & _).
              intros Hin. apply (Hdis _ Hin). simpl. left.
           ++ assert (Hb : (length (k :: map fst pre)
                            <= length (remove_dups (seen ++ [k])))%nat).
              { apply distinct_keys_bounded.
                - apply NoDup_cons. split.
                  + intros Hin. apply Hc. rewrite map_app. apply elem_of_app. now left.
                  + rewrite map_app in Hnd. now apply NoDup_app in Hnd as (? & _ & _).
                - intros x Hx. now apply Hkeys. }
              simpl in Hb. rewrite length_map in Hb.
              rewrite length_app in Hfull. simpl in Hfull. lia.
        -- left. exists ((k, v1) :: pre), (removelast (p :: post)). split; [| exact Hkeys].
           simpl. rewrite Hcache.
           rewrite removelast_app by discriminate.
           reflexivity.
    + right. split; [| lia]. simpl. rewrite not_elem_of_cons. split; [congruence |].
      intros Hin. apply Hout. now apply Hsub.
Qed.

(** A sequence of returning calls on other links. *)
Lemma classify_all_window E link v between : forall seen w shapes w',
  ~ In link between ->
  cache_bounded w ->
  lru_window link v seen w ->
  classify_all E between w = (Ok shapes, w') ->
  lru_window link v (seen ++ between) w' /\ cache_bounded w'.
Proof.
  induction between as [| k between IH]; intros seen w shapes w' Hnot Hb Hwin Hrun;
    simpl in Hrun.
  - injection Hrun as _ <-. now rewrite app_nil_r.
  - apply bind_ok in Hrun as (shape & w1 & Hshape & Hrun).
    apply bind_ok in Hrun as (shapes' & w2 & Hrest & Hrun).
    injection Hrun as _ <-.
    unfold get_content_type in Hshape.
    apply bind_ok in Hshape as ([ct info] & w1' & Hinfo & Hshape).
    injection Hshape as _ <-.
    assert (Hk : k <> link) by (intros ->; apply Hnot; now left).
    pose proof (get_url_info_window E link v seen k _ _ _ Hk Hb Hwin Hinfo) as Hwin1.
    pose proof (get_url_info_bounded E k _ _ _ Hinfo Hb) as Hb1.
    destruct (IH (seen ++ [k])%list w1' shapes' w2) as [Hwin2 Hb2]; auto.
    { intros Hin. apply Hnot. now right. }
    split; [| exact Hb2]. now rewrite <- app_assoc in Hwin2.
Qed.

(** While [link] is cached, the links used since are as many as the
    entries in front of it. *)
Lemma lru_window_cached link v seen w :
  cache_bounded w ->
  lru_window link v seen w ->
  ((length (remove_dups seen) < maxsize)%nat ->
   cache_lookup link (url_info_cache w) = Some v) /\
  ((maxsize <= length (remove_dups seen))%nat ->
   cache_lookup link (url_info_cache w) = None).
Proof.
  intros [Hlen Hnd] [(pre & post & Hcache & Hset) | [Hout Hfull]].
  - rewrite Hcache, map_app in Hnd. apply NoDup_app in Hnd as (Hpre & Hdis & _).
    assert (Hcount : length (remove_dups seen) = length pre).
    { rewrite <- (length_map fst pre). apply Permutation_length, NoDup_Permutation.
      - apply NoDup_remove_dups.
      - exact Hpre.
      - intros x. now rewrite elem_of_remove_dups, Hset. }
    rewrite Hcache, length_app in Hlen. simpl in Hlen.
    split; [intros _ | lia].
    rewrite Hcache. clear Hcache Hset Hcount Hlen.
    induction pre as [| [k0 v0] pre IH]; simpl.
    + now rewrite String.eqb_refl.
    + destruct (String.eqb_spec k0 link) as [-> | Hne].
      * exfalso. apply (Hdis link); simpl; left.
      * apply IH.
        -- simpl in Hpre. now apply NoDup_cons in Hpre as [_ ?].
        -- intros x Hx. apply Hdis. simpl. now right.
  - split; [lia | intros _]. now apply cache_lookup_None.
Qed.

Lemma get_content_type_run E link w r w' :
  get_content_type E link w = (r, w') ->
  match cache_lookup link (url_info_cache w) with
  | Some v => r = Ok (fst v) /\ engine_log w' = engine_log w
  | None => engine_queries link w' = S (engine_queries link w)
  end.
Proof.
  unfold get_content_type, bind. intros H.
  destruct (cache_lookup link (url_info_cache w)) as [v |] eqn:Hc.
  - rewrite (get_url_info_hit _ _ _ _ Hc) in H. destruct v as [ct info].
    injection H as <- <-. split; reflexivity.
  - rewrite (get_url_info_miss _ _ _ Hc) in H.
    destruct (get_url_info_body E link w) as [[[ct info] | e] w0];
      injection H as _ <-; rewrite ?engine_queries_set_cache, engine_queries_log_call,
        String.eqb_refl; lia.
Qed.

(** C4 (amended). The cache is a window of 128 links.  From any state
    of the process in which the cache is within its bound: once a call
    of classify on a link has returned (asking the engine at most one
    query for it), and however many returning calls on other links
    follow, the next call on the link asks the engine nothing and
    returns the same content type if fewer than 128 distinct other links
    were classified in between, and asks the engine exactly one more
    query if 128 or more were.  In particular two calls in a row on the
    same link ask the engine at most once, whatever was classified
    before. *)
Theorem classify_asks_again_after_128_others
    (E : externals) (link : string) (between : list string)
    (w1 : world) (shape : pyval) (w2 : world) (shapes : list pyval) (w3 : world)
    (r : result pyval) (w4 : world) :
  cache_bounded w1 ->
  get_content_type E link w1 = (Ok shape, w2) ->
  ~ In link between ->
  classify_all E between w2 = (Ok shapes, w3) ->
  get_content_type E link w3 = (r, w4) ->
  (engine_queries link w2 <= S (engine_queries link w1))%nat /\
  ((length (remove_dups between) < 128)%nat ->
   r = Ok shape /\ engine_log w4 = engine_log w3) /\
  ((128 <= length (remove_dups between))%nat ->
   engine_queries link w4 = S (engine_queries link w3)).
Proof.
  intros Hb1 Hfirst Hnot Hbetween Hagain.
  (* the first call leaves the link at the head of the cache *)
  pose proof (get_content_type_run E link w1 _ _ Hfirst) as Hq1.
  unfold get_content_type in Hfirst.
  apply bind_ok in Hfirst as ([ct info] & w2' & Hinfo & Hret).
  injection Hret as <- <-.
  pose proof (get_url_info_bounded E link _ _ _ Hinfo Hb1) as Hb2.
  assert (Hwin2 : lru_window link (ct, info) [] w2').
  { left. exists [].
    destruct (cache_lookup link (url_info_cache w1)) as [v0 |] eqn:Hc.
    - rewrite (get_url_info_hit _ _ _ _ Hc) in Hinfo. injection Hinfo as <- <-.
      eexists. split; [reflexivity | reflexivity].
    - rewrite (get_url_info_miss _ _ _ Hc) in Hinfo.
      destruct (get_url_info_body E link w1) as [[v1 | e] w0]; [| discriminate].
      injection Hinfo as <- <-. eexists. split; [reflexivity | reflexivity]. }
  destruct (classify_all_window E link (ct, info) between [] w2' shapes w3
              Hnot Hb2 Hwin2 Hbetween) as [Hwin3 Hb3].
  simpl in Hwin3.
  destruct (lru_window_cached link (ct, info) between w3 Hb3 Hwin3) as [Hin Hout].
  pose proof (get_content_type_run E link w3 _ _ Hagain) as Hq3.
  split; [| split].
  - destruct (cache_lookup link (url_info_cache w1)); [| lia].
    destruct Hq1 as [_ Hlog]. unfold engine_queries. rewrite Hlog. lia.
  - intros Hfew. rewrite (Hin Hfew) in Hq3. exact Hq3.
  - intros Hmany. rewrite (Hout Hmany) in Hq3. exact Hq3.
Qed.

Lemma classify_asks_again_after_128_others_witness :
  let links := ["https://youtu.be/b"; "https://youtube.com/@c"; "https://youtu.be/b"] in
  let w2 := snd (get_content_type Reference.offline "https://youtu.be/a" initial_world) in
  let w3 := snd (classify_all Reference.offline links w2) in
  fst (get_content_type Reference.offline "https://youtu.be/a" w3) = Ok (PStr "video") /\
  engine_log (snd (get_content_type Reference.offline "https://youtu.be/a" w3))
  = engine_log w3.
Proof.
  intros links w2 w3.
  destruct (classify_asks_again_after_128_others Reference.offline "https://youtu.be/a"
              links initial_world (PStr "video") w2
              [PStr "video"; PStr "channel"; PStr "video"] w3
              (fst (get_content_type Reference.offline "https://youtu.be/a" w3))
              (snd (get_content_type Reference.offline "https://youtu.be/a" w3)))
    as (_ & Hfew & _).
  - split; [vm_compute; lia | constructor].
  - vm_compute. reflexivity.
  - vm_compute. intros [H | [H | [H | []]]]; discriminate H.
  - vm_compute. reflexivity.
  - vm_compute. reflexivity.
  - apply Hfew. vm_compute. lia.
Defined.

(** ** Entries that did not resolve *)

(** The guarded part on a playlist-typed answer whose list of entries is
    not empty: whatever the entries are, the download is asked for and
    the result reports success. *)
Lemma guarded_download_with_entries E link thread_id audio_only kind opts w info entries :
  ydl_extract_info E (engine_log w) opts link = inr (Some info) ->
  info !! "_type" = Some (PStr "playlist") ->
  info !! "entries" = Some (PList entries) ->
  entries <> [] ->
  (forall log, exists code, ydl_download E log opts [link] = inr code) ->
  exists msg w',
    guarded_download E link thread_id audio_only (PStr kind) opts w
      = (Ok (FetchResult link true msg), w') /\
    engine_log w' = (engine_log w ++ [ExtractInfo opts link; Download opts [link]])%list.
Proof.
  intros He Hty Hentries Hne Hd.
  unfold guarded_download, try_except, download_attempt, bind at 1, extract_info.
  rewrite He. unfold check_entries, download_and_report, dict_get_none, dict_get.
  rewrite Hty, Hentries. simpl.
  destruct entries as [| entry entries]; [congruence |]. simpl.
  unfold bind at 1, print. simpl. unfold bind at 1, download. simpl.
  destruct (Hd (engine_log w ++ [ExtractInfo opts link])%list) as [code Hcode].
  rewrite Hcode. simpl.
  eexists _, _. split; [reflexivity |].
  simpl. now rewrite <- app_assoc.
Qed.

(** C6 (the code departs from it). Once the link is classified with a
    string as its content type: when the metadata query before the
    download returns a playlist-typed dict whose list of entries is not
    empty but holds no resolved item (every entry is [None]) and the
    engine's download call does not raise, the worker does not fail
    fast: it asks the engine for the download and returns a result that
    reports success.  The test of line 276 counts the entries, resolved
    or not. *)
Theorem unresolved_entries_are_downloaded
    (E : externals) (link output_path : string) (thread_id : Z) (audio_only : bool)
    (quality : string) (w : world)
    (kind : string) (cached_info : gmap string pyval) (w1 : world)
    (info : gmap string pyval) (entries : list pyval) :
  let opts := worker_ydl_opts audio_only quality (PStr kind) output_path in
  get_url_info E link (snd (mode_config thread_id audio_only quality w))
    = (Ok (PStr kind, cached_info), w1) ->
  ydl_extract_info E (engine_log w1) opts link = inr (Some info) ->
  info !! "_type" = Some (PStr "playlist") ->
  info !! "entries" = Some (PList entries) ->
  entries <> [] ->
  Forall (fun entry => entry = PNone) entries ->
  (forall log, exists code, ydl_download E log opts [link] = inr code) ->
  exists msg w',
    download_single_video E link output_path thread_id audio_only quality w
      = (Ok (FetchResult link true msg), w') /\
    engine_log w' = (engine_log w1 ++ [ExtractInfo opts link; Download opts [link]])%list.
Proof.
  intros opts Hinfo He Hty Hentries Hne _ Hd.
  destruct (download_single_video_steps E link output_path _ _ _ _ _ _ _ Hinfo)
    as (w2 & Hq & Heq).
  fold opts in Heq. rewrite Heq.
  pose proof (adds_no_calls _ _ Hq) as Hlog. rewrite <- Hlog in *.
  exact (guarded_download_with_entries E link thread_id audio_only kind opts w2 info
           entries He Hty Hentries Hne Hd).
Qed.

Lemma unresolved_entries_are_downloaded_witness :
  let link := "https://www.youtube.com/playlist?list=PL1" in
  let opts := worker_ydl_opts false "720p" (PStr "playlist") "downloads" in
  exists msg w',
    download_single_video unresolved_playlist link "downloads" 1 false "720p" initial_world
      = (Ok (FetchResult link true msg), w') /\
    engine_log w'
    = (engine_log (snd (get_url_info unresolved_playlist link
                          (snd (mode_config 1 false "720p" initial_world)))) ++
       [ExtractInfo opts link; Download opts [link]])%list.
Proof.
  intros link opts.
  apply (unresolved_entries_are_downloaded unresolved_playlist link "downloads" 1 false
           "720p" initial_world "playlist"
           (list_to_map [("_type", PStr "playlist"); ("title", PStr "Holidays");
                         ("entries", PList [PNone; PNone])])
           (snd (get_url_info unresolved_playlist link
                   (snd (mode_config 1 false "720p" initial_world))))
           (list_to_map [("_type", PStr "playlist"); ("title", PStr "Holidays");
                         ("entries", PList [PNone; PNone])])
           [PNone; PNone]).
  - vm_compute. reflexivity.
  - reflexivity.
  - vm_compute. reflexivity.
  - vm_compute. reflexivity.
  - discriminate.
  - repeat constructor.
  - intros log. eexists. reflexivity.
Defined.

(** The result of that run, as the worker reports it. *)
Example unresolved_playlist_reports_success :
  fst (download_single_video unresolved_playlist
         "https://www.youtube.com/playlist?list=PL1" "downloads" 1 false "720p"
         initial_world)
  = Ok (FetchResult "https://www.youtube.com/playlist?list=PL1" true
          "[Thread 1] Playlist 'Holidays' download completed! (2 videos)").
Proof. vm_compute. reflexivity. Qed.

(** ** The report of a batch *)

Lemma print_failed_world failed : forall w,
  print_failed failed w
  = (Ok tt,
     World (url_info_cache w) (engine_log w)
       (console w ++
        flat_map (fun r => [("   • " ++ url r)%string; ("     Reason: " ++ message r)%string])
                 failed)).
Proof.
  induction failed as [| r failed IH]; intros w; simpl.
  - rewrite app_nil_r. now destruct w.
  - unfold bind at 1. rewrite print_console. unfold bind at 1. rewrite print_console.
    rewrite IH. simpl. now rewrite <- !app_assoc.
Qed.

Lemma failed_block_world (failed : list fetch_result) header w :
  (match failed with
   | [] => ret tt
   | _ => print header ;; print_failed failed
   end) w
  = (Ok tt,
     World (url_info_cache w) (engine_log w)
       (console w ++
        match failed with
        | [] => []
        | _ => header ::
               flat_map (fun r => [("   • " ++ url r)%string;
                                   ("     Reason: " ++ message r)%string]) failed
        end)).
Proof.
  destruct failed as [| r failed].
  - rewrite app_nil_r. now destruct w.
  - unfold bind at 1. rewrite print_console, print_failed_world.
    cbn [url_info_cache engine_log console]. now rewrite <- app_assoc.
Qed.

Lemma saved_block_world (saved : list fetch_result) line w :
  (match saved with
   | [] => ret tt
   | _ => print line
   end) w
  = (Ok tt,
     World (url_info_cache w) (engine_log w)
       (console w ++ match saved with [] => [] | _ => [line] end)).
Proof.
  destruct saved; [rewrite app_nil_r; now destruct w | reflexivity].
Qed.

Section Report.

Variable E : externals.

Lemma collect_results_outcomes root audio_only quality tasks :
  forall results w collected w',
    collect_results E root audio_only quality tasks results w = (Ok collected, w') ->
    exists new,
      collected = (results ++ new)%list /\
      worker_outcomes E root audio_only quality tasks w new w'.
Proof.
  induction tasks as [| [thread_id link] tasks IH]; intros results w collected w' H;
    simpl in H.
  - injection H as <- <-. exists []. split; [now rewrite app_nil_r | constructor].
  - apply bind_ok in H as (r & w1 & Hr & H).
    unfold future in Hr.
    destruct (download_single_video E link root thread_id audio_only quality w)
      as [r0 w0] eqn:Hrun.
    injection Hr as <- <-.
    destruct r0 as [result | e].
    + apply bind_ok in H as (u & w2 & Hp & H).
      rewrite print_console in Hp. injection Hp as _ <-.
      destruct (IH _ _ _ _ H) as (new & -> & Hnew).
      exists (result :: new). split; [now rewrite <- app_assoc |].
      econstructor; [exact Hrun | exact Hnew].
    + apply bind_ok in H as (u & w2 & _ & H). unfold raise in H. discriminate H.
Qed.

Lemma worker_outcomes_links root audio_only quality tasks w results w' :
  worker_outcomes E root audio_only quality tasks w results w' ->
  map url results = map snd tasks.
Proof.
  induction 1 as [| thread_id link tasks w r w1 results w' Hrun _ IH]; [reflexivity |].
  simpl. rewrite IH. f_equal. exact (download_single_video_url E _ _ _ _ _ _ _ _ Hrun).
Qed.

(** The run of the coordinator, in its three parts. *)
Lemma download_youtube_content_parts urls output_path max_workers audio_only quality
    w report w' :
  download_youtube_content E urls output_path max_workers audio_only quality w
    = (Ok report, w') ->
  let root := batch_root E output_path in
  exists u w0 results w1,
    batch_prelude E urls root max_workers audio_only w = (Ok u, w0) /\
    worker_outcomes E root audio_only quality (as_completed E (enumerate_from 0 urls))
      w0 results w1 /\
    report = build_report results /\
    w' = World (url_info_cache w1) (engine_log w1)
           (console w1 ++ summary_lines report root).
Proof.
  intros H root. unfold download_youtube_content in H. fold (batch_root E output_path) in H.
  fold root in H.
  apply bind_ok in H as (u1 & x1 & H1 & H).
  apply bind_ok in H as (u2 & x2 & H2 & H).
  apply bind_ok in H as (u3 & x3 & H3 & H).
  apply bind_ok in H as (u4 & x4 & H4 & H).
  apply bind_ok in H as (playlist_count & x5 & H5 & H).
  apply bind_ok in H as (channel_count & x6 & H6 & H).
  cbv zeta in H.
  apply bind_ok in H as (u7 & x7 & H7 & H).
  apply bind_ok in H as (u8 & x8 & H8 & H).
  apply bind_ok in H as (u9 & x9 & H9 & H).
  apply bind_ok in H as (results & w1 & Hcollect & H).
  exists u9, x9, results, w1.
  split; [| split; [| split]].
  - unfold batch_prelude.
    rewrite (bind_eq _ _ _ _ _ H1), (bind_eq _ _ _ _ _ H2), (bind_eq _ _ _ _ _ H3),
      (bind_eq _ _ _ _ _ H4), (bind_eq _ _ _ _ _ H5), (bind_eq _ _ _ _ _ H6).
    cbv zeta.
    rewrite (bind_eq _ _ _ _ _ H7), (bind_eq _ _ _ _ _ H8). exact H9.
  - destruct (collect_results_outcomes _ _ _ _ _ _ _ _ Hcollect) as (new & -> & Hnew).
    exact Hnew.
  - repeat (apply bind_ok in H as (? & ? & _ & H)). now injection H as <- _.
  - unfold bind at 1 in H. rewrite print_console in H.
    unfold bind at 1 in H. rewrite print_console in H.
    unfold bind at 1 in H. rewrite print_console in H.
    cbv zeta in H.
    unfold bind at 1 in H. rewrite print_console in H.
    unfold bind at 1 in H. rewrite print_console in H.
    unfold summary_lines.
    assert (Hrep : report = build_report results).
    { repeat (apply bind_ok in H as (? & ? & _ & H)). now injection H as <- _. }
    rewrite <- Hrep in H.
    unfold bind at 1 in H. rewrite failed_block_world in H.
    unfold bind at 1 in H. rewrite saved_block_world in H.
    unfold ret in H. injection H as Hw. subst w'. cbn [url_info_cache engine_log console].
    f_equal. rewrite <- !app_assoc. reflexivity.
Qed.

End Report.

(** C8. When the coordinator returns, there are the outcomes the
    workers returned, one per dispatched link, run from the state the
    coordinator had reached before the pool and in the order of
    completion, such that the report divides exactly these: its two
    lists are the outcomes with success set and those with success
    unset, in that order; the successful count is the number of
    outcomes with success set, the failed count the number with success
    unset, and they add up to the number of links; the failure list
    holds the failed outcomes and only those, each with its link and
    message; and what the coordinator prints after the last worker is
    the summary of this report, with the two counts and, for each failed
    outcome, its link and its reason. *)
Theorem batch_report_partitions
    (E : externals) (urls : list string) (output_path : option string) (max_workers : Z)
    (audio_only : bool) (quality : string) (w : world)
    (report : batch_report) (w' : world) :
  download_youtube_content E urls output_path max_workers audio_only quality w
    = (Ok report, w') ->
  let root := batch_root E output_path in
  exists start results w1,
    batch_prelude E urls root max_workers audio_only w = (Ok tt, start) /\
    worker_outcomes E root audio_only quality (as_completed E (enumerate_from 0 urls))
      start results w1 /\
    Permutation (map url results) urls /\
    successful report = List.filter (fun r => success r) results /\
    failed report = List.filter (fun r => negb (success r)) results /\
    length (successful report) = count_occ bool_dec (map success results) true /\
    length (failed report) = count_occ bool_dec (map success results) false /\
    (length (successful report) + length (failed report) = length urls)%nat /\
    (forall r, In r (failed report) <-> In r results /\ success r = false) /\
    w' = World (url_info_cache w1) (engine_log w1)
           (console w1 ++ summary_lines report root).
Proof.
  intros H root.
  destruct (download_youtube_content_parts E _ _ _ _ _ _ _ _ H)
    as ([] & start & results & w1 & Hpre & Hout & Hrep & Hw).
  fold root in Hpre, Hout, Hw.
  assert (Hperm : Permutation (map url results) urls).
  { rewrite (worker_outcomes_links E _ _ _ _ _ _ _ Hout).
    rewrite (as_completed_permutation E (enumerate_from 0 urls)).
    now rewrite enumerate_from_urls. }
  exists start, results, w1.
  split; [exact Hpre |]. split; [exact Hout |]. split; [exact Hperm |].
  destruct (build_report_counts results) as [Hs Hf].
  split; [now rewrite Hrep |]. split; [now rewrite Hrep |].
  split; [now rewrite Hrep |]. split; [now rewrite Hrep |]. split.
  - rewrite Hrep, build_report_total, <- (Permutation_length Hperm). symmetry.
    apply length_map.
  - split; [intros r; rewrite Hrep; apply build_report_failed | exact Hw].
Qed.

Lemma batch_report_partitions_witness :
  let links := ["https://youtu.be/one"; "https://youtu.be/two"; "https://youtu.be/three"] in
  exists report,
    fst (download_youtube_content second_fails links (Some "downloads") 3 false "best"
           initial_world) = Ok report /\
    length (successful report) = 2%nat /\
    (length (successful report) + length (failed report) = 3)%nat /\
    failed report
    = [FetchResult "https://youtu.be/two" false "[Thread 2] Error: ERROR: Video unavailable"].
Proof.
  intros links.
  set (run := download_youtube_content second_fails links (Some "downloads") 3 false
                "best" initial_world).
  assert (Hrun : exists report, run = (Ok report, snd run) /\
            length (successful report) = 2%nat /\
            failed report
            = [FetchResult "https://youtu.be/two" false
                 "[Thread 2] Error: ERROR: Video unavailable"]).
  { vm_compute. eexists. repeat split. }
  destruct Hrun as (report & Hrun & Hlen & Hfailed).
  destruct (batch_report_partitions second_fails links (Some "downloads") 3 false "best"
              initial_world report (snd run) Hrun)
    as (start & results & w1 & _ & _ & _ & _ & _ & _ & _ & Htotal & _).
  exists report. rewrite Hrun. split; [reflexivity |].
  split; [exact Hlen |]. split; [exact Htotal | exact Hfailed].
Defined.

(** *** Frames of the clock *)

Lemma clock_frame_from_updates lines : forall g queue new,
  clock_frame_from g (map UpdateLog lines ++ queue) new
  = clock_frame_from (fold_left _update_log lines g) queue new.
Proof.
  induction lines as [| l lines IH]; intros g queue new; simpl; [reflexivity |].
  now rewrite app_nil_r, IH.
Qed.

Lemma updates_log_text lines : forall g,
  log_text (fold_left _update_log lines g) = log_text g ++ log_lines lines.
Proof.
  induction lines as [| l lines IH]; intros g; simpl.
  - now rewrite str_app_empty_r.
  - rewrite IH. simpl. now rewrite !str_app_assoc.
Qed.

Lemma updates_keep_controls lines : forall g,
  start_disabled (fold_left _update_log lines g) = start_disabled g /\
  progress_value (fold_left _update_log lines g) = progress_value g /\
  popups (fold_left _update_log lines g) = popups g.
Proof.
  induction lines as [| l lines IH]; intros g; simpl; [repeat split |].
  destruct (IH (_update_log g l)) as (H1 & H2 & H3). now rewrite H1, H2, H3.
Qed.

Lemma log_lines_app a b : log_lines (a ++ b) = log_lines a ++ log_lines b.
Proof.
  induction a as [| l a IH]; simpl; [reflexivity |].
  now rewrite IH, !str_app_assoc.
Qed.

(** The thread leaves the console as it was and schedules the lines of
    the batch, the error callback if the batch raised, and the call of
    [download_finished]. *)
Lemma run_download_events E urls output_path audio_only max_workers quality w :
  let run := download_youtube_content E urls (Some output_path) max_workers audio_only
               quality w in
  run_download E urls output_path audio_only max_workers quality w
  = (World (url_info_cache (snd run)) (engine_log (snd run)) (console w),
     (map UpdateLog (drop (length (console w)) (console (snd run))) ++
      match fst run with
      | Raise _ => [UpdateLogError; DownloadFinished]
      | Ok _ => [DownloadFinished]
      end)%list).
Proof.
  intros run. unfold run_download. fold run.
  destruct run as [[report | e] w']; reflexivity.
Qed.

(** X18. The window recovers after a batch exactly when the batch
    returned.  [run_download] leaves the console as it was.  If
    [download_youtube_content] returned, the clock runs the scheduled
    callbacks without an exception, and after the second frame nothing is
    left in the queue, the start button is enabled again, the progress
    bar is at 100 and no pop-up was opened.  If it raised, the callback
    that is to log the error raises [NameError] when the clock runs it
    (it reads [e] after the [except] clause has unbound the name): the
    frame ends there, with the lines of the batch in the log, the call of
    [download_finished] still queued, and the start button and the
    progress bar as they were. *)
Theorem gui_recovers_only_after_returning_batch
    (E : externals) (urls : list string) (output_path : string) (audio_only : bool)
    (max_workers : Z) (quality : string) (w : world) (g : gui) :
  let run := download_youtube_content E urls (Some output_path) max_workers audio_only
               quality w in
  let thread := run_download E urls output_path audio_only max_workers quality w in
  let first_frame := clock_frame g (snd thread) in
  let second_frame := clock_frame (frame_gui first_frame) (frame_queue first_frame) in
  console (fst thread) = console w /\
  popups (frame_gui first_frame) = popups g /\
  match fst run with
  | Ok _ =>
      frame_error first_frame = None /\
      frame_error second_frame = None /\
      frame_queue second_frame = [] /\
      start_disabled (frame_gui second_frame) = false /\
      progress_value (frame_gui second_frame) = 100%Z /\
      popups (frame_gui second_frame) = popups g
  | Raise _ =>
      exists printed e,
        snd thread = (map UpdateLog printed ++ [UpdateLogError; DownloadFinished])%list /\
        frame_error first_frame = Some e /\
        exn_class e = "NameError" /\
        frame_gui first_frame = fold_left _update_log printed g /\
        frame_queue first_frame = [DownloadFinished] /\
        start_disabled (frame_gui first_frame) = start_disabled g /\
        progress_value (frame_gui first_frame) = progress_value g
  end.
Proof.
  intros run thread first_frame second_frame.
  unfold second_frame, first_frame, thread, clock_frame.
  rewrite run_download_events. fold run. cbn [fst snd console].
  rewrite clock_frame_from_updates.
  destruct (updates_keep_controls (drop (length (console w)) (console (snd run))) g)
    as (Hd & Hv & Hp).
  split; [reflexivity |].
  destruct (fst run) as [report | e].
  - cbn [clock_frame_from dispatch download_finished log_message app frame_gui
           frame_queue frame_error _update_log start_disabled progress_value popups].
    split; [exact Hp |]. repeat split. exact Hp.
  - cbn [clock_frame_from dispatch app frame_gui frame_queue frame_error].
    split; [exact Hp |].
    eexists _, _. split; [reflexivity |]. split; [reflexivity |].
    split; [reflexivity |]. split; [reflexivity |]. split; [reflexivity |].
    split; [exact Hd | exact Hv].
Qed.

(** *** What the log shows of a batch that returned *)

Lemma batch_prelude_console E urls root max_workers audio_only w u start :
  batch_prelude E urls root max_workers audio_only w = (Ok u, start) ->
  exists more, console start = (console w ++ batch_header urls max_workers :: more)%list.
Proof.
  unfold batch_prelude. intros H.
  apply bind_ok in H as (u1 & x1 & H1 & H).
  assert (x1 = w) as ->.
  { unfold lift in H1. destruct (os_makedirs E root); [discriminate H1 |].
    now injection H1. }
  apply bind_ok in H as (u2 & x2 & H2 & H).
  rewrite print_console in H2. injection H2 as _ <-.
  match type of H with ?m _ = _ => assert (Hk : keeps console_grows m) end.
  { repeat (keeps_step || (progress (cbv zeta)) || apply print_console_grows
            || apply count_content_type_console). }
  destruct (Hk _ _ _ H) as [more Hmore]. exists more.
  rewrite Hmore. cbn [console]. now rewrite <- app_assoc.
Qed.

Lemma worker_outcomes_console E root audio_only quality tasks w results w' :
  worker_outcomes E root audio_only quality tasks w results w' ->
  console_grows w w'.
Proof.
  induction 1 as [w | thread_id link tasks w r w1 results w' Hrun _ IH].
  - apply frame_refl.
  - destruct (download_single_video_console E _ _ _ _ _ _ _ _ Hrun) as [l1 H1].
    destruct IH as [l2 H2]. cbn [console] in H2.
    exists (l1 ++ message r :: l2)%list.
    rewrite H2, H1, <- !app_assoc. reflexivity.
Qed.

(** What a batch that returned has printed: its header first, its
    summary last. *)
Lemma download_youtube_content_printed E urls output_path max_workers audio_only quality
    w report w' :
  download_youtube_content E urls output_path max_workers audio_only quality w
    = (Ok report, w') ->
  exists middle,
    console w'
    = (console w ++ batch_header urls max_workers :: middle ++
       summary_lines report (batch_root E output_path))%list.
Proof.
  intros H.
  destruct (download_youtube_content_parts E _ _ _ _ _ _ _ _ H)
    as (u & start & results & w1 & Hpre & Hout & _ & ->).
  destruct (batch_prelude_console _ _ _ _ _ _ _ _ Hpre) as [m1 H1].
  destruct (worker_outcomes_console _ _ _ _ _ _ _ _ Hout) as [m2 H2].
  exists (m1 ++ m2)%list. cbn [console]. rewrite H2, H1.
  rewrite <- !app_assoc. reflexivity.
Qed.

(** X19. After a batch that returned, the log of the window holds the
    former text, then the lines of the batch, the first of which is its
    header with the number of links and of workers and the last of which
    are the lines of the summary of the report, then the line
    [Descarga completada.]. *)
Theorem gui_log_ends_with_summary
    (E : externals) (urls : list string) (output_path : string) (audio_only : bool)
    (max_workers : Z) (quality : string) (w : world) (g : gui)
    (report : batch_report) (w' : world) :
  download_youtube_content E urls (Some output_path) max_workers audio_only quality w
    = (Ok report, w') ->
  let thread := run_download E urls output_path audio_only max_workers quality w in
  let first_frame := clock_frame g (snd thread) in
  let second_frame := clock_frame (frame_gui first_frame) (frame_queue first_frame) in
  exists middle,
    log_text (frame_gui second_frame)
    = log_text g ++
      log_lines (batch_header urls max_workers :: middle) ++
      log_lines (summary_lines report output_path) ++
      "Descarga completada." ++ nl.
Proof.
  intros H thread first_frame second_frame.
  destruct (download_youtube_content_printed E _ _ _ _ _ _ _ _ H) as [middle Hprinted].
  exists middle.
  unfold second_frame, first_frame, thread, clock_frame.
  rewrite run_download_events, H. cbn [fst snd].
  rewrite clock_frame_from_updates.
  cbn [clock_frame_from dispatch download_finished log_message app frame_gui
         frame_queue _update_log log_text].
  rewrite updates_log_text, Hprinted, drop_app_length.
  change (batch_header urls max_workers :: middle ++
          summary_lines report (batch_root E (Some output_path)))%list
    with ((batch_header urls max_workers :: middle) ++
          summary_lines report output_path)%list.
  rewrite log_lines_app, !str_app_assoc. reflexivity.
Qed.

Lemma gui_log_ends_with_summary_witness :
  let links := ["https://youtu.be/one"; "https://youtu.be/two"] in
  let g := Gui EmptyString "downloads" "video" video_qualities "1080p" true 0
               EmptyString (O, O) [] in
  let thread := run_download second_fails links "downloads" false 2 "best" initial_world in
  let first_frame := clock_frame g (snd thread) in
  let second_frame := clock_frame (frame_gui first_frame) (frame_queue first_frame) in
  exists report middle,
    fst (download_youtube_content second_fails links (Some "downloads") 2 false "best"
           initial_world) = Ok report /\
    log_text (frame_gui second_frame)
    = log_text g ++
      log_lines (batch_header links 2 :: middle) ++
      log_lines (summary_lines report "downloads") ++
      "Descarga completada." ++ nl.
Proof.
  intros links g thread first_frame second_frame.
  set (run := download_youtube_content second_fails links (Some "downloads") 2 false
                "best" initial_world).
  assert (Hrun : exists report, run = (Ok report, snd run)).
  { vm_compute. eexists. reflexivity. }
  destruct Hrun as (report & Hrun).
  destruct (gui_log_ends_with_summary second_fails links "downloads" false 2 "best"
              initial_world g report (snd run) Hrun) as [middle Hlog].
  exists report, middle. split; [now rewrite Hrun | exact Hlog].
Defined.

(** The window after a batch that held a link with an unmatched bracket
    in its host: the batch raises, the callback that is to log the error
    raises in its turn, and the start button stays disabled. *)
Example gui_error_callback_raises :
  let link := "http://[youtube.com/watch?v=abc" in
  let g0 := apply_action (Gui EmptyString "/home/user/downloads" "video" video_qualities "1080p" false 0 EmptyString (O, O) []) (TypeUrls link) in
  let pressed := start_download Reference.offline g0 in
  let thread := run_download Reference.offline [link] "/home/user/downloads" false 1
                  "1080p" initial_world in
  let first_frame := clock_frame (gui_after pressed) (scheduled pressed ++ snd thread) in
  thread_started pressed = Some ([link], "/home/user/downloads", false, 1%Z, "1080p") /\
  option_map exn_class (frame_error first_frame) = Some "NameError" /\
  frame_queue first_frame = [DownloadFinished] /\
  start_disabled (frame_gui first_frame) = true /\
  Py.contains "Error:" (log_text (frame_gui first_frame)) = false.
Proof. vm_compute. repeat split. Qed.
